(** * ZaloBot retrieval core: knowledge-base search, agent caches, webhook

    A shallow embedding of
    - [src/ueh_knowledge_base_mongodb.py]: [full_text_search],
      [generate_embedding], [cosine_similarity], [vector_search],
      [hybrid_search] and the document methods;
    - [src/uit_knowledge_base_mongodb.py]: [full_text_search];
    - [src/google_search_agent_mongodb.py]: [search_uit_knowledge] with
      [QUERY_CACHE], and [GoogleSearchAgent.chat] with [RESPONSE_CACHE];
    - [src/app.py]: [webhook_handler], the message handlers and
      [send_zalo_message].

    Conventions of the embedding.
    - Numbers.  The searches are written over the real numbers [R] (module
      [UEH]): what is stated of them there is the order of the scores, the
      test against the threshold and the formula of the fused score.  The
      value [cosine_similarity] computes, and the ranking that follows from
      it, depend on rounding: they are written over binary64 numbers, Rocq's
      primitive floats (module [Float64]).
    - A Python [dict] holding a document is a [gmap string pyval]; a [dict]
      whose iteration order matters is an insertion-ordered association list.
    - A Python [try]/[except] is written in a small exception monad
      ([outcome], [try_except]).
    - A Python [str] is a Rocq [string] holding the UTF-8 bytes of the text.
      [len] and slices count characters.  [str.lower] and [str.strip] follow
      the Unicode tables of the interpreter: they are parameters of the
      embedding ([Unicode]), and the examples run on ASCII text.
    - MongoDB, the embedding service, the language-model agent and the clock
      are external: they appear as data the functions are given. *)

From Stdlib Require Import Floats.
From Stdlib Require Import Reals Lra Lia ZArith String Ascii List Permutation
  Sorted.
From stdpp Require Import base option list gmap strings pretty.

Local Open Scope string_scope.

(* ===================================================================== *)
(** ** Python values, exceptions, slices and ordered dictionaries *)
(* ===================================================================== *)

Module Py.

(** The values a document field can hold. *)
Inductive pyval : Type :=
  | VNone
  | VStr (s : string)
  | VNum (x : R)
  | VVec (v : list R).

(** Exceptions, with the text [str(e)] gives. *)
Inductive exn : Type :=
  | KeyError (key : string)
  | TypeError (msg : string)
  | ValueError (msg : string)
  | AttributeError (msg : string)
  | OperationFailure (msg : string)
  | ServerSelectionTimeoutError (msg : string)
  | ServiceError (msg : string).

Definition exn_str (e : exn) : string :=
  match e with
  | KeyError k => "'" ++ k ++ "'"
  | TypeError m | ValueError m | AttributeError m
  | OperationFailure m | ServerSelectionTimeoutError m | ServiceError m => m
  end.

(** What running a piece of Python gives: a value, or a raised exception. *)
Inductive outcome (A : Type) : Type :=
  | Returned (a : A)
  | Raised (e : exn).
Arguments Returned {A} a.
Arguments Raised {A} e.

Definition bind {A B} (m : outcome A) (k : A → outcome B) : outcome B :=
  match m with
  | Returned a => k a
  | Raised e => Raised e
  end.

(** [try: body except Exception as e: handler(e)] *)
Definition try_except {A} (body : outcome A) (handler : exn → outcome A)
  : outcome A :=
  match body with
  | Returned a => Returned a
  | Raised e => handler e
  end.

(** Run [f] on each element, left to right, stopping at the first raise. *)
Fixpoint for_each {A B} (f : A → outcome B) (l : list A) : outcome (list B) :=
  match l with
  | [] => Returned []
  | x :: l' =>
      bind (f x) (λ y, bind (for_each f l') (λ ys, Returned (y :: ys)))
  end.

(** Truth value of a Python object. *)
Definition truthy (v : pyval) : bool :=
  match v with
  | VNone => false
  | VStr s => negb (String.eqb s EmptyString)
  | VNum x => if Req_dec_T x 0 then false else true
  | VVec [] => false
  | VVec (_ :: _) => true
  end.

(** [xs[:n]]: a negative [n] counts from the end. *)
Definition slice_to {A} (n : Z) (xs : list A) : list A :=
  if (0 <=? n)%Z then take (Z.to_nat n) xs
  else take (length xs - Z.to_nat (- n)) xs.

(** A [str] is held as the UTF-8 bytes of its text.  A character is a byte
    that is not a continuation byte ([10xxxxxx]) with the continuation bytes
    that follow it. *)
Definition continuation (c : ascii) : bool :=
  let n := nat_of_ascii c in ((128 <=? n) && (n <? 192))%nat.

Definition continues (s : string) : bool :=
  match s with
  | String c _ => continuation c
  | EmptyString => false
  end.

(** The characters of a text, in order. *)
Fixpoint chars (s : string) : list string :=
  match s with
  | EmptyString => []
  | String c s' =>
      if continues s' then
        match chars s' with
        | g :: rest => String c g :: rest
        | [] => [String c EmptyString]
        end
      else String c EmptyString :: chars s'
  end.

(** A text that is one character: a byte, then continuation bytes only. *)
Fixpoint all_continue (t : string) : bool :=
  match t with
  | EmptyString => true
  | String b t' => continuation b && all_continue t'
  end.

Definition is_char (g : string) : Prop :=
  match g with
  | String c t => all_continue t = true
  | EmptyString => False
  end.

(** [len(s)]: the number of characters. *)
Definition str_len (s : string) : nat := length (chars s).

(** [s[i:j]] for [0 <= i <= j]. *)
Definition str_slice (i j : nat) (s : string) : string :=
  String.concat EmptyString (take (j - i) (drop i (chars s))).

(** [s[:n]] for a string and a non-negative constant [n]. *)
Definition str_slice_to (n : nat) (s : string) : string := str_slice 0 n s.

(** [str.lower] and [str.strip] are the interpreter's, and follow its Unicode
    tables: [lower] maps every cased character, [strip] removes the leading
    and the trailing characters that [str.isspace] accepts.  The embedding
    takes the two functions as given, so that what is proved holds of the
    interpreter's. *)
Class Unicode : Type := {
  lower : string → string;
  strip : string → string
}.

(** The two functions on ASCII text, where they are [A-Z] to [a-z] and the
    removal of tab, line feed, vertical tab, form feed, carriage return, the
    four separators 28..31 and space.  The examples run on ASCII text, with
    these. *)
Definition lower_char (c : ascii) : ascii :=
  let n := nat_of_ascii c in
  if ((65 <=? n) && (n <=? 90))%nat then ascii_of_nat (n + 32) else c.

Fixpoint ascii_lower (s : string) : string :=
  match s with
  | EmptyString => EmptyString
  | String c s' => String (lower_char c) (ascii_lower s')
  end.

Definition isspace (c : ascii) : bool :=
  let n := nat_of_ascii c in
  (((9 <=? n) && (n <=? 13)) || ((28 <=? n) && (n <=? 32)))%nat.

Fixpoint lstrip (s : string) : string :=
  match s with
  | EmptyString => EmptyString
  | String c s' => if isspace c then lstrip s' else s
  end.

Definition str_rev (s : string) : string :=
  string_of_list_ascii (rev (list_ascii_of_string s)).

Definition rstrip (s : string) : string := str_rev (lstrip (str_rev s)).

Definition ascii_strip (s : string) : string := rstrip (lstrip s).

Definition ascii_text : Unicode :=
  {| lower := ascii_lower; strip := ascii_strip |}.

(** [hash(v)] fails on a list. *)
Definition hashable (v : pyval) : bool :=
  match v with
  | VVec _ => false
  | _ => true
  end.

Definition pyval_eq_dec (a b : pyval) : {a = b} + {a ≠ b}.
Proof.
  decide equality.
  - apply String.string_dec.
  - apply Req_dec_T.
  - apply (List.list_eq_dec Req_dec_T).
Defined.

(** A [dict] in iteration order: assigning to a key that is present
    replaces its value in place, a new key goes last. *)
Definition pydict (V : Type) : Type := list (pyval * V).

Fixpoint dict_set {V} (k : pyval) (v : V) (d : pydict V) : pydict V :=
  match d with
  | [] => [(k, v)]
  | (k', v') :: d' =>
      if pyval_eq_dec k' k then (k', v) :: d' else (k', v') :: dict_set k v d'
  end.

Fixpoint dict_get {V} (k : pyval) (d : pydict V) : option V :=
  match d with
  | [] => None
  | (k', v') :: d' => if pyval_eq_dec k' k then Some v' else dict_get k d'
  end.

(** [{k: v for ...}]: the pairs are assigned left to right; an unhashable
    key raises [TypeError]. *)
Fixpoint dict_comprehension_from {V} (acc : pydict V) (kvs : list (pyval * V))
  : outcome (pydict V) :=
  match kvs with
  | [] => Returned acc
  | (k, v) :: rest =>
      if hashable k then dict_comprehension_from (dict_set k v acc) rest
      else Raised (TypeError "unhashable type: 'list'")
  end.

Definition dict_comprehension {V} (kvs : list (pyval * V)) : outcome (pydict V) :=
  dict_comprehension_from [] kvs.

(** [xs.sort(key=key, reverse=True)]: stable, so elements with equal keys
    keep the order they had. *)
Fixpoint insert_desc {A} (key : A → R) (x : A) (l : list A) : list A :=
  match l with
  | [] => [x]
  | y :: l' =>
      if Rlt_dec (key x) (key y) then y :: insert_desc key x l'
      else x :: y :: l'
  end.

Definition sort_reverse {A} (key : A → R) (l : list A) : list A :=
  foldr (insert_desc key) [] l.

End Py.

(* ===================================================================== *)
(** ** hashlib.md5 (RFC 1321) on byte strings *)
(* ===================================================================== *)

Module MD5.

Local Open Scope Z_scope.

Definition w32 (x : Z) : Z := x mod 2 ^ 32.
Definition add32 (x y : Z) : Z := w32 (x + y).
Definition not32 (x : Z) : Z := Z.lxor x 0xffffffff.
Definition rotl32 (x : Z) (c : Z) : Z :=
  w32 (Z.lor (Z.shiftl x c) (Z.shiftr x (32 - c))).

Definition K : list Z :=
  [ 0xd76aa478; 0xe8c7b756; 0x242070db; 0xc1bdceee;
    0xf57c0faf; 0x4787c62a; 0xa8304613; 0xfd469501;
    0x698098d8; 0x8b44f7af; 0xffff5bb1; 0x895cd7be;
    0x6b901122; 0xfd987193; 0xa679438e; 0x49b40821;
    0xf61e2562; 0xc040b340; 0x265e5a51; 0xe9b6c7aa;
    0xd62f105d; 0x02441453; 0xd8a1e681; 0xe7d3fbc8;
    0x21e1cde6; 0xc33707d6; 0xf4d50d87; 0x455a14ed;
    0xa9e3e905; 0xfcefa3f8; 0x676f02d9; 0x8d2a4c8a;
    0xfffa3942; 0x8771f681; 0x6d9d6122; 0xfde5380c;
    0xa4beea44; 0x4bdecfa9; 0xf6bb4b60; 0xbebfbc70;
    0x289b7ec6; 0xeaa127fa; 0xd4ef3085; 0x04881d05;
    0xd9d4d039; 0xe6db99e5; 0x1fa27cf8; 0xc4ac5665;
    0xf4292244; 0x432aff97; 0xab9423a7; 0xfc93a039;
    0x655b59c3; 0x8f0ccc92; 0xffeff47d; 0x85845dd1;
    0x6fa87e4f; 0xfe2ce6e0; 0xa3014314; 0x4e0811a1;
    0xf7537e82; 0xbd3af235; 0x2ad7d2bb; 0xeb86d391 ].

Definition S : list Z :=
  [ 7; 12; 17; 22; 7; 12; 17; 22; 7; 12; 17; 22; 7; 12; 17; 22;
    5; 9; 14; 20; 5; 9; 14; 20; 5; 9; 14; 20; 5; 9; 14; 20;
    4; 11; 16; 23; 4; 11; 16; 23; 4; 11; 16; 23; 4; 11; 16; 23;
    6; 10; 15; 21; 6; 10; 15; 21; 6; 10; 15; 21; 6; 10; 15; 21 ].

Definition nthZ (l : list Z) (i : Z) : Z := nth (Z.to_nat i) l 0.

(** The message followed by the bit 1, zeros up to 56 modulo 64 bytes, and
    the bit length as a 64-bit little-endian number. *)
Definition le_bytes (n : nat) (x : Z) : list Z :=
  map (λ i, Z.shiftr x (8 * Z.of_nat i) mod 256) (seq 0 n).

Definition pad (msg : list Z) : list Z :=
  let len := Z.of_nat (length msg) in
  let zeros := Z.to_nat ((55 - len) mod 64) in
  msg ++ [0x80] ++ repeat 0 zeros ++ le_bytes 8 ((8 * len) mod 2 ^ 64).

Fixpoint le_word (bs : list Z) : Z :=
  match bs with
  | [] => 0
  | b :: bs' => b + 256 * le_word bs'
  end.

Fixpoint words (n : nat) (bs : list Z) : list Z :=
  match n with
  | O => []
  | Datatypes.S n' => le_word (take 4 bs) :: words n' (drop 4 bs)
  end.

Record state : Type := State { sa : Z; sb : Z; sc : Z; sd : Z }.

Definition init : state := State 0x67452301 0xefcdab89 0x98badcfe 0x10325476.

Definition round (M : list Z) (st : state) (i : Z) : state :=
  let '(State A B C D) := st in
  let '(F, g) :=
    if i <? 16 then (Z.lor (Z.land B C) (Z.land (not32 B) D), i)
    else if i <? 32 then
      (Z.lor (Z.land D B) (Z.land (not32 D) C), (5 * i + 1) mod 16)
    else if i <? 48 then (Z.lxor B (Z.lxor C D), (3 * i + 5) mod 16)
    else (Z.lxor C (Z.lor B (not32 D)), (7 * i) mod 16) in
  let F' := add32 (add32 (add32 F A) (nthZ K i)) (nthZ M g) in
  State D (add32 B (rotl32 F' (nthZ S i))) B C.

Definition block (st : state) (M : list Z) : state :=
  let st' := fold_left (round M) (map Z.of_nat (seq 0 64)) st in
  State (add32 (sa st) (sa st')) (add32 (sb st) (sb st'))
        (add32 (sc st) (sc st')) (add32 (sd st) (sd st')).

Fixpoint blocks (n : nat) (st : state) (bs : list Z) : state :=
  match n with
  | O => st
  | Datatypes.S n' => blocks n' (block st (words 16 (take 64 bs))) (drop 64 bs)
  end.

Definition digest (msg : list Z) : list Z :=
  let p := pad msg in
  let st := blocks (length p / 64) init p in
  le_bytes 4 (sa st) ++ le_bytes 4 (sb st) ++ le_bytes 4 (sc st)
    ++ le_bytes 4 (sd st).

Definition hex_digit (n : Z) : ascii :=
  ascii_of_nat (Z.to_nat (if n <? 10 then 48 + n else 87 + n)).

Fixpoint hex (bs : list Z) : string :=
  match bs with
  | [] => EmptyString
  | b :: bs' => String (hex_digit (b / 16)) (String (hex_digit (b mod 16)) (hex bs'))
  end.

(** [s.encode()]: the string already holds the UTF-8 bytes. *)
Definition encode (s : string) : list Z :=
  map (λ c, Z.of_nat (nat_of_ascii c)) (list_ascii_of_string s).

(** [hashlib.md5(bs).hexdigest()] *)
Definition md5_hexdigest (bs : list Z) : string := hex (digest bs).

End MD5.

(* ===================================================================== *)
(** ** The MongoDB collection, as the knowledge bases use it *)
(* ===================================================================== *)

Module Mongo.
Import Py.

(** A stored document is a Python [dict] from field names to values. *)
Abbreviation Doc := (gmap string pyval).

(** The collection: the stored documents in scan order, the text index
    when there is one, and what the server or the connection does to the
    two kinds of query the knowledge bases send (an error, if any).  The
    index gives a query and a document their [textScore], or nothing when
    no term of the query matches the document. *)
Record Collection : Type := {
  documents : list Doc;
  text_index : option (string → Doc → option R);
  text_query_error : option exn;
  scan_error : option exn
}.

(** A numeric field, read where the code has just assigned it. *)
Definition num_field (field : string) (doc : Doc) : R :=
  match doc !! field with
  | Some (VNum x) => x
  | _ => 0%R
  end.

(** [cursor.limit(n)]: 0 means no limit; a negative [n] asks for one batch
    of at most [-n] documents, which the model takes to be full. *)
Definition cursor_limit {A} (n : Z) (xs : list A) : list A :=
  if (n =? 0)%Z then xs else take (Z.abs_nat n) xs.

(** [collection.find({'$text': {'$search': query}},
                     {'score': {'$meta': 'textScore'}})
       .sort([('score', {'$meta': 'textScore'})]).limit(limit)],
    read to the end.  Documents of equal score come in scan order. *)
Definition find_text (c : Collection) (query : string) (limit : Z)
  : outcome (list Doc) :=
  match text_query_error c with
  | Some e => Raised e
  | None =>
      match text_index c with
      | None => Raised (OperationFailure "text index required for $text query")
      | Some score =>
          let matched :=
            omap (λ doc : Doc,
                    match score query doc with
                    | Some s => Some (<["score" := VNum s]> doc)
                    | None => None
                    end) (documents c) in
          Returned
            (cursor_limit limit (sort_reverse (num_field "score") matched))
      end
  end.

(** [list(collection.find({field: {'$exists': True}}))] *)
Definition find_exists (c : Collection) (field : string) : outcome (list Doc) :=
  match scan_error c with
  | Some e => Raised e
  | None => Returned (filter (λ doc : Doc, is_Some (doc !! field)) (documents c))
  end.

End Mongo.

(* ===================================================================== *)
(** ** src/ueh_knowledge_base_mongodb.py: UEHMongoKnowledgeBase *)
(* ===================================================================== *)

Module UEH.
Import Py Mongo.

Local Open Scope R_scope.

(** The object's state that the search methods read.  [invoke_model text]
    stands for the Bedrock call of [generate_embedding]: it gives
    [response_body.get('embedding', [])], or raises. *)
Record KnowledgeBase : Type := {
  collection : Collection;
  enable_vector_search : bool;
  invoke_model : string → outcome (list R)
}.

Definition strip_text_result (doc : Doc) : Doc :=
  delete "score" (delete "embedding" (delete "_id" doc)).

Definition full_text_search (self : KnowledgeBase) (query : string) (limit : Z)
  : outcome (list Doc) :=
  try_except
    (bind (find_text (collection self) query limit) (λ results,
       Returned (map strip_text_result results)))
    (λ e, Returned []).

Definition max_chars : Z := 8192 * 4.

Definition generate_embedding (self : KnowledgeBase) (text : string)
  : option (list R) :=
  if negb (enable_vector_search self) then None
  else
    let text :=
      if (max_chars <? Z.of_nat (str_len text))%Z
      then str_slice_to (Z.to_nat max_chars) text
      else text in
    match invoke_model self text with
    | Returned [] => None
    | Returned embedding => Some embedding
    | Raised e => None
    end.

(** [np.dot] of two one-dimensional arrays: the lengths must agree. *)
Fixpoint np_dot (a b : list R) : outcome R :=
  match a, b with
  | [], [] => Returned 0
  | x :: a', y :: b' => bind (np_dot a' b') (λ s, Returned (x * y + s))
  | _, _ => Raised (ValueError "shapes not aligned")
  end.

Definition sum_squares (a : list R) : R := foldr (λ x s, x * x + s) 0 a.

(** [np.linalg.norm] *)
Definition norm (a : list R) : R := sqrt (sum_squares a).

Definition cosine_similarity (vec1 vec2 : list R) : R :=
  match np_dot vec1 vec2 with
  | Returned dot_product =>
      let norm1 := norm vec1 in
      let norm2 := norm vec2 in
      if Req_dec_T norm1 0 then 0
      else if Req_dec_T norm2 0 then 0
      else dot_product / (norm1 * norm2)
  | Raised e => 0
  end.

(** The similarity of the query embedding to what a document holds under
    ['embedding'].  A value that is not a list of numbers makes numpy raise
    inside [cosine_similarity], whose [except] branch answers 0.0. *)
Definition similarity_to (query_embedding : list R) (stored : pyval) : R :=
  match stored with
  | VVec v => cosine_similarity query_embedding v
  | _ => 0
  end.

(** One turn of the loop of [vector_search] over the scanned documents. *)
Definition score_document (query_embedding : list R) (similarity_threshold : R)
    (doc : Doc) : option Doc :=
  match doc !! "embedding" with
  | Some stored =>
      if truthy stored then
        let similarity := similarity_to query_embedding stored in
        if Rle_dec similarity_threshold similarity then
          Some (<["similarity_score" := VNum similarity]>
                  (delete "embedding" (delete "_id" doc)))
        else None
      else None
  | None => None
  end.

Definition vector_search (self : KnowledgeBase) (query : string) (limit : Z)
    (similarity_threshold : R) : outcome (list Doc) :=
  if negb (enable_vector_search self) then full_text_search self query limit
  else
    try_except
      (match generate_embedding self query with
       | None | Some [] => full_text_search self query limit
       | Some query_embedding =>
           bind (find_exists (collection self) "embedding") (λ documents,
             let results :=
               omap (score_document query_embedding similarity_threshold)
                    documents in
             Returned
               (slice_to limit
                  (sort_reverse (num_field "similarity_score") results)))
       end)
      (λ e, full_text_search self query limit).

(** [doc.get('url', doc.get('content_id', ''))] *)
Definition doc_key (doc : Doc) : pyval :=
  match doc !! "url" with
  | Some v => v
  | None => match doc !! "content_id" with
            | Some v => v
            | None => VStr EmptyString
            end
  end.

(** [(text_weight * text_score) + (vector_weight * vector_score)]: a float
    times anything but a number raises [TypeError]. *)
Definition combine (text_weight text_score vector_weight : R)
    (vector_score : pyval) : outcome R :=
  match vector_score with
  | VNum v => Returned (text_weight * text_score + vector_weight * v)
  | _ => Raised (TypeError "unsupported operand type(s) for *")
  end.

(** The body of the [try] of [hybrid_search]. *)
Definition fusion (self : KnowledgeBase) (query : string) (limit : Z)
    (text_weight vector_weight : R) : outcome (list Doc) :=
  bind (full_text_search self query (limit * 2)) (λ text_results,
  bind (dict_comprehension
          (imap (λ i doc, (doc_key doc, 1 / INR (i + 1))) text_results))
       (λ text_scores,
  bind (vector_search self query (limit * 2) 0.3) (λ vector_results,
  bind (dict_comprehension
          (map (λ doc : Doc,
                  (doc_key doc, default (VNum 0) (doc !! "similarity_score")))
               vector_results))
       (λ vector_scores,
  bind (dict_comprehension
          (map (λ doc, (doc_key doc, doc)) (text_results ++ vector_results)))
       (λ all_docs,
  bind (for_each
          (λ '(doc_id, doc),
             let text_score := default 0 (dict_get doc_id text_scores) in
             let vector_score :=
               default (VNum 0) (dict_get doc_id vector_scores) in
             bind (combine text_weight text_score vector_weight vector_score)
               (λ combined_score,
                  Returned (delete "similarity_score"
                              (<["combined_score" := VNum combined_score]> doc))))
          all_docs)
       (λ combined_results,
  Returned
    (slice_to limit
       (sort_reverse (num_field "combined_score") combined_results)))))))).

Definition hybrid_search (self : KnowledgeBase) (query : string) (limit : Z)
    (text_weight vector_weight : R) : outcome (list Doc) :=
  if negb (enable_vector_search self) then full_text_search self query limit
  else
    try_except (fusion self query limit text_weight vector_weight)
               (λ e, full_text_search self query limit).

End UEH.

(* ===================================================================== *)
(** ** [cosine_similarity] and the loop of [vector_search] in double
    precision

    numpy computes on binary64 numbers: Rocq's primitive floats, whose
    operations round as IEEE 754 prescribes.  [UEH.cosine_similarity] above
    is the same formula in exact arithmetic. *)
(* ===================================================================== *)

Module Float64.
Import Py Mongo.
Local Open Scope float_scope.

(** [np.dot] of two one-dimensional arrays: the lengths must agree.  The
    products are added from the left, as a loop over the arrays adds them
    (for long arrays numpy leaves the order of the additions to its BLAS). *)
Fixpoint dot_from (acc : float) (a b : list float) : outcome float :=
  match a, b with
  | [], [] => Returned acc
  | x :: a', y :: b' => dot_from (acc + x * y) a' b'
  | _, _ => Raised (ValueError "shapes not aligned")
  end.

Definition np_dot (a b : list float) : outcome float := dot_from 0 a b.

(** [np.linalg.norm]: the square root of the dot product of the array with
    itself. *)
Definition norm (a : list float) : float :=
  PrimFloat.sqrt (fold_left (λ acc x, acc + x * x) a 0).

Definition cosine_similarity (vec1 vec2 : list float) : float :=
  match np_dot vec1 vec2 with
  | Returned dot_product =>
      let norm1 := norm vec1 in
      let norm2 := norm vec2 in
      if (norm1 =? 0) || (norm2 =? 0) then 0
      else dot_product / (norm1 * norm2)
  | Raised e => 0
  end.

(** A document the scan returned whose ['embedding'] is a list of doubles:
    its other fields, and the embedding. *)
Record Scanned : Type := { fields : Doc; embedding : list float }.

(** One turn of the loop of [vector_search]: the document as it is appended
    to [results], with the value put under ['similarity_score']. *)
Definition score_document (query_embedding : list float)
    (similarity_threshold : float) (doc : Scanned) : option (Doc * float) :=
  match embedding doc with
  | [] => None
  | _ :: _ =>
      let similarity := cosine_similarity query_embedding (embedding doc) in
      if similarity_threshold <=? similarity then
        Some (delete "embedding" (delete "_id" (fields doc)), similarity)
      else None
  end.

(** [results.sort(key=lambda x: x['similarity_score'], reverse=True)] *)
Fixpoint insert_desc {A} (key : A → float) (x : A) (l : list A) : list A :=
  match l with
  | [] => [x]
  | y :: l' =>
      if key x <? key y then y :: insert_desc key x l' else x :: y :: l'
  end.

Definition sort_reverse {A} (key : A → float) (l : list A) : list A :=
  foldr (insert_desc key) [] l.

(** [vector_search] from its loop on (lines 232 to 248), for the query
    embedding that was obtained and the documents that the scan returned. *)
Definition vector_search (query_embedding : list float) (limit : Z)
    (similarity_threshold : float) (documents : list Scanned)
  : list (Doc * float) :=
  slice_to limit
    (sort_reverse snd
       (omap (score_document query_embedding similarity_threshold) documents)).

End Float64.

(* ===================================================================== *)
(** ** src/uit_knowledge_base_mongodb.py: UITMongoKnowledgeBase *)
(* ===================================================================== *)

Module UIT.
Import Py Mongo.

Definition full_text_search (collection : Collection) (query : string)
    (limit : Z) : outcome (list Doc) :=
  try_except
    (bind (find_text collection query limit) (λ results,
       Returned (map (λ doc : Doc, delete "score" (delete "_id" doc)) results)))
    (λ e, Returned []).

End UIT.

(* ===================================================================== *)
(** ** src/google_search_agent_mongodb.py: the tool and the agent *)
(* ===================================================================== *)

Module Agent.
Import Py Mongo.

Definition nl : string := String (ascii_of_nat 10) EmptyString.

(** An entry of [QUERY_CACHE]: [{'result': ..., 'timestamp': ...}].  Times
    are microseconds, the resolution of [datetime]. *)
Record CacheEntry : Type := { result : string; timestamp : Z }.

Definition CACHE_TTL : Z := 3600.

Definition RESPONSE_CACHE_MAX_SIZE : nat := 100.

(** [hashlib.md5(query.lower().encode()).hexdigest()] *)
Definition cache_key_of_query `{!Unicode} (query : string) : string :=
  MD5.md5_hexdigest (MD5.encode (lower query)).

(** [datetime.now() - cached_data['timestamp'] < timedelta(seconds=CACHE_TTL)] *)
Definition fresh (now : Z) (cached_data : CacheEntry) : bool :=
  (now - timestamp cached_data <? CACHE_TTL * 1000000)%Z.

(** [item[field]] *)
Definition getitem (item : Doc) (field : string) : outcome pyval :=
  match item !! field with
  | Some v => Returned v
  | None => Raised (KeyError field)
  end.

(** [len(v)] *)
Definition py_len (v : pyval) : outcome nat :=
  match v with
  | VStr s => Returned (str_len s)
  | VVec l => Returned (length l)
  | VNone => Raised (TypeError "object of type 'NoneType' has no len()")
  | VNum _ => Raised (TypeError "object of type 'float' has no len()")
  end.

(** [content[:400] + "..."] *)
Definition shorten (content : pyval) : outcome pyval :=
  match content with
  | VStr s => Returned (VStr (str_slice_to 400 s ++ "..."))
  | VVec _ => Raised (TypeError "can only concatenate list (not 'str') to list")
  | VNone => Raised (TypeError "'NoneType' object is not subscriptable")
  | VNum _ => Raised (TypeError "'float' object is not subscriptable")
  end.

Section Tool.

Context `{unicode : !Unicode}.

(** [repr] of a float, which the model of numbers leaves open. *)
Variable float_repr : R → string.

(** What an f-string puts for [{v}]. *)
Definition py_str (v : pyval) : string :=
  match v with
  | VNone => "None"
  | VStr s => s
  | VNum x => float_repr x
  | VVec l => "[" ++ String.concat ", " (map float_repr l) ++ "]"
  end.

(** The body of the loop over [enumerate(results, 1)]: the text appended
    to [response] for [item]. *)
Definition format_item (i : nat) (item : Doc) : outcome string :=
  bind (getitem item "title") (λ title,
  bind (getitem item "url") (λ url,
  bind (getitem item "content") (λ content,
  bind (py_len content) (λ n,
  bind (if (400 <? n)%nat then shorten content else Returned content)
       (λ content,
  Returned (pretty i ++ ". " ++ py_str title ++ nl
            ++ "   URL: " ++ py_str url ++ nl
            ++ "   Nội dung: " ++ py_str content ++ nl ++ nl)))))).

Fixpoint format_from (i : nat) (response : string) (results : list Doc)
  : outcome string :=
  match results with
  | [] => Returned response
  | item :: rest =>
      bind (format_item i item) (λ piece,
        format_from (S i) (response ++ piece) rest)
  end.

Definition format_results (results : list Doc) : outcome string :=
  format_from 1 ("Thông tin từ cơ sở dữ liệu UIT:" ++ nl ++ nl) results.

(** The tool.  [uit_kb] is [None] when the knowledge base could not be
    opened; [now] and [later] are the two readings of the clock, at the
    lookup and at the write.  The result is the returned text and
    [QUERY_CACHE] as the call leaves it. *)
Definition search_uit_knowledge (uit_kb : option Collection)
    (QUERY_CACHE : gmap string CacheEntry) (now later : Z) (query : string)
  : outcome (string * gmap string CacheEntry) :=
  match uit_kb with
  | None =>
      Returned ("Knowledge base not available. Please search online.",
                QUERY_CACHE)
  | Some kb =>
      let cache_key := cache_key_of_query query in
      let search :=
        try_except
          (bind (UIT.full_text_search kb query 3) (λ results,
             match results with
             | [] =>
                 Returned
                   ("No information found in UIT knowledge base for: " ++ query
                    ++ ". Please search online for the latest information.",
                    QUERY_CACHE)
             | _ :: _ =>
                 bind (format_results results) (λ response,
                   Returned
                     (response,
                      <[cache_key := {| result := response;
                                        timestamp := later |}]> QUERY_CACHE))
             end))
          (λ e,
             Returned
               ("Error searching knowledge base: " ++ exn_str e
                ++ ". Please try online search.", QUERY_CACHE)) in
      match QUERY_CACHE !! cache_key with
      | Some cached_data =>
          if fresh now cached_data then
            Returned (result cached_data, QUERY_CACHE)
          else search
      | None => search
      end
  end.

(** A run of the process: the calls of the tool one after the other, each
    with the knowledge base and the clock readings of its time, starting
    from a given cache. *)
Fixpoint search_all (QUERY_CACHE : gmap string CacheEntry)
    (calls : list (option Collection * Z * Z * string))
  : gmap string CacheEntry :=
  match calls with
  | [] => QUERY_CACHE
  | (uit_kb, now, later, query) :: rest =>
      match search_uit_knowledge uit_kb QUERY_CACHE now later query with
      | Returned (_, cache) => search_all cache rest
      | Raised _ => search_all QUERY_CACHE rest
      end
  end.

End Tool.

(** What [self.agent(message, ...)] returns, as far as [chat] looks at it. *)
Inductive content_block : Type :=
  | TextBlock (text : string)      (* a dict with a 'text' entry *)
  | OtherBlock                     (* a dict without one *)
  | NotADict.                      (* anything without [.get] *)

Inductive agent_message : Type :=
  | WithContent (content : option (list content_block))
      (* a dict with 'content'; [None] when the content is not a list *)
  | OtherMessage (as_str : string).
      (* anything else, with its [str(msg)] *)

Record AgentResult : Type := {
  message_attr : option agent_message;  (* [None]: no attribute 'message' *)
  as_str : string                       (* [str(response)] *)
}.

(** The extraction of the text from the agent's result: a string, or
    Python's [None]. *)
Definition extract_text (response : AgentResult) : outcome (option string) :=
  match message_attr response with
  | Some (WithContent (Some (TextBlock text :: _))) => Returned (Some text)
  | Some (WithContent (Some (OtherBlock :: _))) =>
      Returned (Some (as_str response))
  | Some (WithContent (Some (NotADict :: _))) =>
      Raised (AttributeError "object has no attribute 'get'")
  | Some (WithContent (Some [])) => Returned None
  | Some (WithContent None) => Returned None
  | Some (OtherMessage s) => Returned (Some s)
  | None => Returned (Some (as_str response))
  end.

(** [GoogleSearchAgent.chat].  [agent] is the call [self.agent(message,
    invocation_state=...)]; the result is the returned text and
    [RESPONSE_CACHE] as the call leaves it. *)
Definition chat `{!Unicode} (agent : string → outcome AgentResult)
    (RESPONSE_CACHE : gmap string (option string)) (message : string)
  : outcome (option string * gmap string (option string)) :=
  try_except
    (let cache_key := strip (lower message) in
     match RESPONSE_CACHE !! cache_key with
     | Some cached => Returned (cached, RESPONSE_CACHE)
     | None =>
         bind (agent message) (λ response,
         bind (extract_text response) (λ result_text,
           if (size RESPONSE_CACHE <? RESPONSE_CACHE_MAX_SIZE)%nat then
             Returned (result_text, <[cache_key := result_text]> RESPONSE_CACHE)
           else Returned (result_text, RESPONSE_CACHE)))
     end)
    (λ e, Returned (Some ("Error: " ++ exn_str e), RESPONSE_CACHE)).

(** A run of the process: the messages handled one after the other,
    starting from a given cache. *)
Fixpoint chat_all `{!Unicode} (agent : string → outcome AgentResult)
    (RESPONSE_CACHE : gmap string (option string)) (messages : list string)
  : gmap string (option string) :=
  match messages with
  | [] => RESPONSE_CACHE
  | message :: rest =>
      match chat agent RESPONSE_CACHE message with
      | Returned (_, cache) => chat_all agent cache rest
      | Raised _ => chat_all agent RESPONSE_CACHE rest
      end
  end.

End Agent.

(* ===================================================================== *)
(** ** Notions the statements use *)
(* ===================================================================== *)

Module Spec.
Import Py Mongo UEH.

(** A list is in descending order of [key]. *)
Definition descending {A} (key : A → R) (l : list A) : Prop :=
  StronglySorted (λ x y, (key y <= key x)%R) l.

(** The documents [vector_search] scans, and what the loop keeps of them. *)
Definition scanned (c : Collection) : list Doc :=
  filter (λ doc : Doc, is_Some (doc !! "embedding")) (documents c).

(** The lexical component of the fused score of the document of key [k]:
    the reciprocal rank when a text result has this key, 0 otherwise. *)
Definition lexical_component (text_results : list Doc) (k : pyval) (t : R)
  : Prop :=
  (∀ i x, text_results !! i = Some x → doc_key x = k → t = (1 / INR (i + 1))%R)
  ∧ ((∀ x, x ∈ text_results → doc_key x ≠ k) → t = 0%R).

(** Its vector component: the similarity score that the vector result of
    this key carries (0 if it carries none), and 0 when no vector result has
    this key. *)
Definition vector_component (vector_results : list Doc) (k : pyval) (v : R)
  : Prop :=
  (∀ y, y ∈ vector_results → doc_key y = k →
        default (VNum 0) (y !! "similarity_score") = VNum v)
  ∧ ((∀ y, y ∈ vector_results → doc_key y ≠ k) → v = 0%R).

(** The lookup in [QUERY_CACHE] does not answer the query: no entry under
    its key, or one that has expired. *)
Definition cache_miss `{!Unicode} (QUERY_CACHE : gmap string Agent.CacheEntry)
    (now : Z) (query : string) : Prop :=
  ∀ entry, QUERY_CACHE !! Agent.cache_key_of_query query = Some entry →
           Agent.fresh now entry = false.

Definition scored (c : Collection) (query_embedding : list R) (threshold : R)
  : list Doc :=
  omap (score_document query_embedding threshold) (scanned c).

End Spec.

(* ===================================================================== *)
(** ** Small knowledge bases for the examples *)
(* ===================================================================== *)

Module Examples.
Import Py Mongo UEH Agent.
Local Open Scope R_scope.

Definition doc_a : Doc :=
  <["_id" := VStr "65a000000000000000000001"]>
  (<["content_id" := VStr "a"]>
  (<["url" := VStr "https://x/a"]>
  (<["title" := VStr "Phuong thuc tuyen sinh 2025"]>
  (<["embedding" := VVec [1; 0]]> ∅)))).

Definition doc_b : Doc :=
  <["_id" := VStr "65a000000000000000000002"]>
  (<["content_id" := VStr "b"]>
  (<["url" := VStr "https://x/b"]>
  (<["title" := VStr "Hoc phi"]>
  (<["embedding" := VVec [1; 0]]> ∅)))).

(** A document for which no embedding was generated. *)
Definition doc_plain : Doc :=
  <["_id" := VStr "65a000000000000000000003"]>
  (<["content_id" := VStr "p"]>
  (<["url" := VStr "https://x/p"]>
  (<["title" := VStr "Tuyen sinh"]> ∅))).

(** A text index under which every document matches with score 1. *)
Definition match_all : string → Doc → option R := λ _ _, Some 1.

Definition collection_of (docs : list Doc)
    (index : option (string → Doc → option R)) : Collection :=
  {| documents := docs; text_index := index;
     text_query_error := None; scan_error := None |}.

Definition kb_of (docs : list Doc) : KnowledgeBase :=
  {| collection := collection_of docs (Some match_all);
     enable_vector_search := true;
     invoke_model := λ _, Returned [1; 0] |}.

Definition kb_ab : KnowledgeBase := kb_of [doc_a; doc_b].

(** The text index is missing. *)
Definition kb_no_index : KnowledgeBase :=
  {| collection := collection_of [doc_plain] None;
     enable_vector_search := true;
     invoke_model := λ _, Returned [1; 0] |}.

(** The embedding service is down: every call of it raises. *)
Definition kb_embedding_down : KnowledgeBase :=
  {| collection := collection_of [doc_plain] (Some match_all);
     enable_vector_search := true;
     invoke_model := λ _, Raised (ServiceError "ThrottlingException") |}.

(** Bedrock could not be initialised: vector search is switched off. *)
Definition kb_disabled : KnowledgeBase :=
  {| collection := collection_of [doc_plain] (Some match_all);
     enable_vector_search := false;
     invoke_model := λ _, Raised (ServiceError "no credentials") |}.

(** A page whose embedding is orthogonal to the query embedding, in a
    collection whose scan fails while its text query works. *)
Definition doc_o : Doc :=
  <["_id" := VStr "65a000000000000000000006"]>
  (<["content_id" := VStr "o"]>
  (<["url" := VStr "https://x/o"]>
  (<["title" := VStr "Tuyen sinh sau dai hoc"]>
  (<["embedding" := VVec [0; 1]]> ∅)))).

Definition kb_scan_down : KnowledgeBase :=
  {| collection :=
       {| documents := [doc_o]; text_index := Some match_all;
          text_query_error := None;
          scan_error := Some (OperationFailure "operation exceeded time limit") |};
     enable_vector_search := true;
     invoke_model := λ _, Returned [1; 0] |}.



(** A page of the UIT knowledge base, and the collection holding it. *)
Definition doc_uit : Doc :=
  <["_id" := VStr "65b000000000000000000001"]>
  (<["title" := VStr "Tuyen sinh UIT 2025"]>
  (<["url" := VStr "https://uit/tuyen-sinh"]>
  (<["content" := VStr "UIT co 5 phuong thuc tuyen sinh."]> ∅))).

Definition uit_collection : Collection :=
  collection_of [doc_uit] (Some match_all).

(** What the tool formats from [doc_uit]. *)
Definition uit_response : string :=
  "Thông tin từ cơ sở dữ liệu UIT:" ++ nl ++ nl
  ++ "1. Tuyen sinh UIT 2025" ++ nl
  ++ "   URL: https://uit/tuyen-sinh" ++ nl
  ++ "   Nội dung: UIT co 5 phuong thuc tuyen sinh." ++ nl ++ nl.

(** A text index under which nothing matches. *)
Definition match_none : string → Doc → option R := λ _ _, None.

Definition repr_any : R → string := λ _, "0.0".

(** An agent that answers every message with the same text. *)
Definition answer : AgentResult :=
  {| message_attr := None; as_str := "UIT co 5 phuong thuc." |}.

Definition agent_const : string → outcome AgentResult := λ _, Returned answer.

(** A response cache holding 100 entries, under the keys "0" to "99". *)
Definition full_cache : gmap string (option string) :=
  list_to_map (map (λ i : nat, (pretty i, Some "cached")) (seq 0 100)).

(** A knowledge base with a page without embedding and a page with one:
    the text results, the vector result, and the two fused results. *)
Definition kb_pa : KnowledgeBase := kb_of [doc_plain; doc_a].

Definition text_plain : Doc := delete "_id" doc_plain.
Definition text_a : Doc := delete "embedding" (delete "_id" doc_a).
Definition vec_a : Doc := <["similarity_score" := VNum 1]> text_a.

Definition fused_a : Doc :=
  delete "similarity_score"
    (<["combined_score" := VNum (0.3 * (1 / INR (1 + 1)) + 0.7 * 1)]> vec_a).

Definition fused_p : Doc :=
  delete "similarity_score"
    (<["combined_score" := VNum (0.3 * (1 / INR (0 + 1)) + 0.7 * 0)]>
       text_plain).

End Examples.

(* ===================================================================== *)
(** ** MongoDB: equality queries and writes *)
(* ===================================================================== *)

Module MongoOps.
Import Py Mongo.

(** Does the value stored under a field answer the condition
    [{field: q}]?  [None] as [q] matches a null and a missing field; a
    number matches itself and an array that holds it; anything else
    matches what is equal to it. *)
Definition eq_match (q : pyval) (stored : option pyval) : bool :=
  match stored with
  | None => match q with VNone => true | _ => false end
  | Some v =>
      if pyval_eq_dec v q then true
      else match q, v with
           | VNum x, VVec l => if in_dec Req_dec_T x l then true else false
           | _, _ => false
           end
  end.

Definition matches (field : string) (q : pyval) (doc : Doc) : bool :=
  eq_match q (doc !! field).

Definition with_documents (c : Collection) (docs : list Doc) : Collection :=
  {| documents := docs; text_index := text_index c;
     text_query_error := text_query_error c; scan_error := scan_error c |}.

(** [collection.find(cond).limit(limit)], read to the end, for a condition
    the server evaluates document by document. *)
Definition find_where (c : Collection) (cond : Doc → bool) (limit : Z)
  : outcome (list Doc) :=
  match scan_error c with
  | Some e => Raised e
  | None => Returned (cursor_limit limit (List.filter cond (documents c)))
  end.

(** [collection.find_one({field: q})]: the first match in scan order. *)
Definition find_one (c : Collection) (field : string) (q : pyval)
  : outcome (option Doc) :=
  match scan_error c with
  | Some e => Raised e
  | None => Returned (List.find (matches field q) (documents c))
  end.

(** [collection.count_documents({})] *)
Definition count_all (c : Collection) : outcome nat :=
  match scan_error c with
  | Some e => Raised e
  | None => Returned (length (documents c))
  end.

(** The replacement of a matched document keeps its ['_id']; a replacement
    that brings another ['_id'] is refused. *)
Definition replacement_for (old replacement : Doc) : outcome Doc :=
  match replacement !! "_id", old !! "_id" with
  | Some i, Some j =>
      if pyval_eq_dec i j then Returned replacement
      else Raised (OperationFailure
                     "the (immutable) field '_id' was found to have been altered")
  | Some i, None => Returned replacement
  | None, Some j => Returned (<["_id" := j]> replacement)
  | None, None => Returned replacement
  end.

(** The first document that matches is replaced where it stands; [None]
    when no document matches. *)
Fixpoint replace_first (field : string) (q : pyval) (replacement : Doc)
    (docs : list Doc) : option (outcome (list Doc)) :=
  match docs with
  | [] => None
  | d :: rest =>
      if matches field q d then
        Some (bind (replacement_for d replacement) (λ d', Returned (d' :: rest)))
      else
        match replace_first field q replacement rest with
        | Some r => Some (bind r (λ rest', Returned (d :: rest')))
        | None => None
        end
  end.

(** The document an upsert inserts: the replacement, under its own ['_id']
    when it has one that is free, under a new one otherwise. *)
Definition inserted (fresh_id : pyval) (replacement : Doc) (docs : list Doc)
  : outcome Doc :=
  match replacement !! "_id" with
  | Some i =>
      if existsb (matches "_id" i) docs then
        Raised (OperationFailure "E11000 duplicate key error")
      else Returned replacement
  | None => Returned (<["_id" := fresh_id]> replacement)
  end.

(** [collection.replace_one({field: q}, replacement, upsert=True)].
    [server_error] is what the server or the connection does to this write
    (an error, if any); [fresh_id] is the ['_id'] a new document gets. *)
Definition replace_one_upsert (server_error : option exn) (fresh_id : pyval)
    (c : Collection) (field : string) (q : pyval) (replacement : Doc)
  : outcome Collection :=
  match server_error with
  | Some e => Raised e
  | None =>
      match replace_first field q replacement (documents c) with
      | Some r => bind r (λ docs, Returned (with_documents c docs))
      | None =>
          bind (inserted fresh_id replacement (documents c)) (λ d,
            Returned (with_documents c (documents c ++ [d])))
      end
  end.

(** The list without its first element that matches, and how many were
    removed. *)
Fixpoint remove_first (cond : Doc → bool) (docs : list Doc)
  : list Doc * nat :=
  match docs with
  | [] => ([], 0)
  | d :: rest =>
      if cond d then (rest, 1)
      else let '(rest', n) := remove_first cond rest in (d :: rest', n)
  end.

(** [collection.delete_one({field: q})]: the collection left and
    [deleted_count]. *)
Definition delete_one (server_error : option exn) (c : Collection)
    (field : string) (q : pyval) : outcome (Collection * nat) :=
  match server_error with
  | Some e => Raised e
  | None =>
      let '(docs, n) := remove_first (matches field q) (documents c) in
      Returned (with_documents c docs, n)
  end.

(** [collection.delete_many({})] *)
Definition delete_all (server_error : option exn) (c : Collection)
  : outcome Collection :=
  match server_error with
  | Some e => Raised e
  | None => Returned (with_documents c [])
  end.

End MongoOps.

(* ===================================================================== *)
(** ** src/ueh_knowledge_base_mongodb.py: the document methods

    [UITMongoKnowledgeBase] in src/uit_knowledge_base_mongodb.py has the
    same methods, with the same text.  They use [self.collection] only, so
    they are given the collection. *)
(* ===================================================================== *)

Module Documents.
Import Py Mongo MongoOps.

(** [str.split(sep)] for a separator of one character. *)
Fixpoint split_from (sep : ascii) (current : string) (s : string)
  : list string :=
  match s with
  | EmptyString => [Py.str_rev current]
  | String c s' =>
      if Ascii.eqb c sep then Py.str_rev current :: split_from sep EmptyString s'
      else split_from sep (String c current) s'
  end.

Definition split (sep : ascii) (s : string) : list string :=
  split_from sep EmptyString s.


(** [document['url'].encode()] followed by the digest. *)
Definition url_digest (url : pyval) : outcome pyval :=
  match url with
  | VStr u => Returned (VStr (MD5.md5_hexdigest (MD5.encode u)))
  | VNone =>
      Raised (AttributeError "'NoneType' object has no attribute 'encode'")
  | VNum _ => Raised (AttributeError "'float' object has no attribute 'encode'")
  | VVec _ => Raised (AttributeError "'list' object has no attribute 'encode'")
  end.

(** What a call of [add_document] leaves: what it returned or raised, the
    caller's dictionary as the call left it, and the collection. *)
Record added : Type := Added {
  returned : outcome pyval;
  document_after : Doc;
  collection_after : Collection
}.

(** [add_document].  [now_iso] is [datetime.now().isoformat()]. *)
Definition add_document (server_error : option exn) (fresh_id : pyval)
    (now_iso : string) (collection : Collection) (document : Doc) : added :=
  let with_id :=
    match document !! "content_id" with
    | Some _ => Returned document
    | None =>
        match document !! "url" with
        | None => Raised (KeyError "url")
        | Some url =>
            bind (url_digest url) (λ digest,
              Returned (<["content_id" := digest]> document))
        end
    end in
  match with_id with
  | Raised e => Added (Raised e) document collection
  | Returned document =>
      let document := <["updated_at" := VStr now_iso]> document in
      let content_id := default VNone (document !! "content_id") in
      match replace_one_upsert server_error fresh_id collection
              "content_id" content_id document with
      | Raised e => Added (Raised e) document collection
      | Returned collection' => Added (Returned content_id) document collection'
      end
  end.

Definition pop_id (doc : Doc) : Doc := delete "_id" doc.

Definition search_by_category (collection : Collection) (category : string)
    (limit : Z) : outcome (list Doc) :=
  bind (find_where collection (matches "category" (VStr category)) limit)
    (λ results, Returned (map pop_id results)).




Definition get_document_by_url (collection : Collection) (url : string)
  : outcome (option Doc) :=
  bind (find_one collection "url" (VStr url)) (λ doc,
    match doc with
    | Some doc =>
        if decide (doc = ∅) then Returned None else Returned (Some (pop_id doc))
    | None => Returned None
    end).

Definition get_all_documents (collection : Collection) (limit : Z)
  : outcome (list Doc) :=
  bind (find_where collection (λ _, true) limit)
    (λ results, Returned (map pop_id results)).

Definition count_documents (collection : Collection) : outcome nat :=
  count_all collection.

(** [delete_document]: what it returns, and the collection it leaves. *)
Definition delete_document (server_error : option exn)
    (collection : Collection) (content_id : string)
  : outcome bool * Collection :=
  match delete_one server_error collection "content_id" (VStr content_id) with
  | Returned (collection', deleted_count) =>
      (Returned (0 <? deleted_count)%nat, collection')
  | Raised e => (Raised e, collection)
  end.

Definition clear_all (server_error : option exn) (collection : Collection)
  : outcome unit * Collection :=
  match delete_all server_error collection with
  | Returned collection' => (Returned tt, collection')
  | Raised e => (Raised e, collection)
  end.

(** The knowledge base over another state of its collection. *)
Definition with_collection (self : UEH.KnowledgeBase) (c : Collection)
  : UEH.KnowledgeBase :=
  {| UEH.collection := c;
     UEH.enable_vector_search := UEH.enable_vector_search self;
     UEH.invoke_model := UEH.invoke_model self |}.

End Documents.

(* ===================================================================== *)
(** ** src/app.py: the webhook of the Zalo bot *)
(* ===================================================================== *)

Module App.
Import Py Agent.

#[local] Set Warnings "-register-all".

(** A parsed JSON value.  An object is given by its entries, one per key. *)
Inductive json : Type :=
  | JNull
  | JBool (b : bool)
  | JInt (z : Z)
  | JFloat (x : R)
  | JStr (s : string)
  | JList (l : list json)
  | JObj (entries : list (string * json)).

Definition type_name (v : json) : string :=
  match v with
  | JNull => "NoneType"
  | JBool _ => "bool"
  | JInt _ => "int"
  | JFloat _ => "float"
  | JStr _ => "str"
  | JList _ => "list"
  | JObj _ => "dict"
  end.

Definition json_truthy (v : json) : bool :=
  match v with
  | JNull => false
  | JBool b => b
  | JInt z => negb (z =? 0)%Z
  | JFloat x => if Req_dec_T x 0 then false else true
  | JStr s => negb (String.eqb s EmptyString)
  | JList l => match l with [] => false | _ => true end
  | JObj l => match l with [] => false | _ => true end
  end.

Fixpoint entry (key : string) (entries : list (string * json)) : option json :=
  match entries with
  | [] => None
  | (k, v) :: rest => if String.eqb k key then Some v else entry key rest
  end.

(** [v.get(key, default)]: only a dict has [get]. *)
Definition get (v : json) (key : string) (default : json) : outcome json :=
  match v with
  | JObj entries =>
      Returned (match entry key entries with Some x => x | None => default end)
  | _ =>
      Raised (AttributeError
                ("'" ++ type_name v ++ "' object has no attribute 'get'"))
  end.

(** [text.strip()]: only a string has [strip]. *)
Definition text_strip `{!Unicode} (text : json) : outcome string :=
  match text with
  | JStr s => Returned (strip s)
  | _ =>
      Raised (AttributeError
                ("'" ++ type_name text ++ "' object has no attribute 'strip'"))
  end.

(** The module's configuration, read from the environment at start. *)
Record Config : Type := {
  ZALO_SECRET : string;
  ZALO_ACCESS_TOKEN : string
}.

(** A call of [requests.post] by [send_zalo_message]. *)
Record Post : Type := {
  post_url : string;
  chat_id : json;
  text : string
}.

(** What a view returns: the entries of the JSON body and the status. *)
Definition response : Type := list (string * string) * nat.

Definition ok_response : response := ([("status", "ok")], 200).

Definition verify_zalo_signature (cfg : Config) (secret_token : string) : bool :=
  if String.eqb (ZALO_SECRET cfg) EmptyString then true
  else String.eqb secret_token (ZALO_SECRET cfg).

Definition max_length : nat := 2000.

(** [range(0, stop, step)] *)
Definition range_step (stop step : nat) : list nat :=
  map (λ k, k * step) (seq 0 ((stop + step - 1) / step)).

(** [[message[i:i+max_length] for i in range(0, len(message), max_length)]]
    for a long message, the message itself otherwise. *)
Definition chunks_of (message : string) : list string :=
  if (max_length <? str_len message)%nat then
    map (λ i, str_slice i (i + max_length) message)
        (range_step (str_len message) max_length)
  else [message].

(** [send_zalo_message]: the posts it makes, in order.  What the server
    answers is printed and changes nothing; a post that raises is caught
    and the next chunk is sent. *)
Definition send_zalo_message (cfg : Config) (user_id : json) (message : string)
  : list Post :=
  let url := "https://bot-api.zapps.me/" ++ ZALO_ACCESS_TOKEN cfg
             ++ "/sendMessage" in
  let chunks := chunks_of message in
  imap (λ i chunk,
          let chunk :=
            if (1 <? length chunks)%nat then
              "[" ++ pretty (i + 1) ++ "/" ++ pretty (length chunks) ++ "]"
                  ++ nl ++ chunk
            else chunk in
          {| post_url := url; chat_id := user_id; text := chunk |})
       chunks.

(** [from_user.get('id') or sender.get('id')] after the three lookups
    before it. *)
Definition sender_id (payload : json) : outcome (json * json) :=
  bind (get payload "message" (JObj [])) (λ message,
  bind (get message "from" (JObj [])) (λ from_user,
  bind (get payload "sender" (JObj [])) (λ sender,
  bind (get from_user "id" JNull) (λ from_id,
  bind (if json_truthy from_id then Returned from_id
        else get sender "id" JNull) (λ user_id,
  Returned (message, user_id)))))).

(** [chat = message.get('chat', {})], then the fallback on its id. *)
Definition chat_fallback (message user_id : json) : outcome json :=
  bind (get message "chat" (JObj [])) (λ chat,
    if json_truthy user_id then Returned user_id else get chat "id" JNull).

Definition apology : string :=
  "Xin lỗi, tôi gặp lỗi khi xử lý tin nhắn của bạn. Vui lòng thử lại sau.".

(** The [except] branch of [handle_text_message], entered with the value
    [user_id] has at that point. *)
Definition text_failure (cfg : Config) (user_id : json) (e : exn)
  : response * list Post :=
  (([("status", "error"); ("message", exn_str e)], 500),
   if json_truthy user_id then send_zalo_message cfg user_id apology else []).

(** [handle_text_message]: the response, [RESPONSE_CACHE] as the call
    leaves it, and the posts made.  [agent] is the agent of the module's
    [GoogleSearchAgent]. *)
Definition handle_text_message `{!Unicode} (cfg : Config)
    (agent : string → outcome AgentResult)
    (RESPONSE_CACHE : gmap string (option string)) (payload : json)
  : response * gmap string (option string) * list Post :=
  let failed user_id e cache :=
    let '(r, posts) := text_failure cfg user_id e in (r, cache, posts) in
  match sender_id payload with
  | Raised e => failed JNull e RESPONSE_CACHE
  | Returned (message, user_id) =>
      match chat_fallback message user_id with
      | Raised e => failed user_id e RESPONSE_CACHE
      | Returned user_id =>
          match bind (get message "text" (JStr EmptyString)) (λ text,
                  bind (text_strip text) (λ stripped,
                    Returned (text, stripped))) with
          | Raised e => failed user_id e RESPONSE_CACHE
          | Returned (JStr text, stripped) =>
              if String.eqb stripped EmptyString then
                (ok_response, RESPONSE_CACHE, [])
              else
                match chat agent RESPONSE_CACHE text with
                | Returned (Some answer, cache) =>
                    (ok_response, cache, send_zalo_message cfg user_id answer)
                | Returned (None, cache) =>
                    failed user_id
                      (TypeError "object of type 'NoneType' has no len()")
                      cache
                | Raised e => failed user_id e RESPONSE_CACHE
                end
          | Returned (_, _) => (ok_response, RESPONSE_CACHE, [])
          end
      end
  end.

(** [handle_image_message] and [handle_link_message], which differ by the
    text they answer with. *)
Definition handle_other_message (cfg : Config) (answer : string)
    (payload : json) : outcome (response * list Post) :=
  bind (sender_id payload) (λ '(message, user_id),
  bind (if json_truthy user_id then Returned user_id
        else bind (get message "chat" (JObj [])) (λ chat,
               get chat "id" JNull)) (λ user_id,
  Returned (ok_response, send_zalo_message cfg user_id answer))).

Definition image_answer : string :=
  "Xin lỗi, hiện tại tôi chỉ hỗ trợ trả lời câu hỏi bằng văn bản. Vui lòng gửi câu hỏi của bạn dưới dạng text.".

Definition link_answer : string :=
  "Xin lỗi, hiện tại tôi chỉ hỗ trợ trả lời câu hỏi bằng văn bản. Vui lòng mô tả câu hỏi của bạn.".

Definition handle_image_message (cfg : Config) (payload : json)
  : outcome (response * list Post) :=
  handle_other_message cfg image_answer payload.

Definition handle_link_message (cfg : Config) (payload : json)
  : outcome (response * list Post) :=
  handle_other_message cfg link_answer payload.

Definition is_event (event_name : json) (name : string) : bool :=
  match event_name with
  | JStr s => String.eqb s name
  | _ => false
  end.

(** [webhook_handler].  [secret_token] is the header
    [X-Bot-Api-Secret-Token] ([''] when absent) and [body] what
    [request.get_json()] gives. *)
Definition webhook_handler `{!Unicode} (cfg : Config)
    (agent : string → outcome AgentResult)
    (RESPONSE_CACHE : gmap string (option string))
    (secret_token : string) (body : outcome json)
  : response * gmap string (option string) * list Post :=
  let failed (e : exn) : response * gmap string (option string) * list Post :=
    (([("error", exn_str e)], 500), RESPONSE_CACHE, []) in
  if negb (verify_zalo_signature cfg secret_token) then
    (([("error", "Invalid signature")], 403), RESPONSE_CACHE, [])
  else
    match bind body (λ payload,
            bind (get payload "event_name" JNull) (λ event_name,
              Returned (payload, event_name))) with
    | Raised e => failed e
    | Returned (payload, event_name) =>
        if is_event event_name "message.text.received"
           || is_event event_name "user_send_text" then
          handle_text_message cfg agent RESPONSE_CACHE payload
        else if is_event event_name "message.image.received"
                || is_event event_name "user_send_image" then
          match handle_image_message cfg payload with
          | Returned (r, posts) => (r, RESPONSE_CACHE, posts)
          | Raised e => failed e
          end
        else if is_event event_name "message.link.received"
                || is_event event_name "user_send_link" then
          match handle_link_message cfg payload with
          | Returned (r, posts) => (r, RESPONSE_CACHE, posts)
          | Raised e => failed e
          end
        else (ok_response, RESPONSE_CACHE, [])
    end.

End App.

(* ===================================================================== *)
(** ** Further notions and examples the statements use *)
(* ===================================================================== *)

Module More.
Import Py Mongo UEH Agent Examples.
Local Open Scope R_scope.

#[local] Existing Instance ascii_text.

(** A knowledge base like [kb_ab] whose embedding service refuses every
    text of more than [max_chars] characters. *)
Definition kb_short_only : KnowledgeBase :=
  {| collection := collection kb_ab;
     enable_vector_search := true;
     invoke_model := λ t,
       if (max_chars <? Z.of_nat (str_len t))%Z
       then Raised (ServiceError "ValidationException")
       else Returned [1; 0] |}.

(** A text of 40000 characters, more than [max_chars]. *)
Definition long_text : string :=
  string_of_list_ascii (replicate (Z.to_nat 40000) "a"%char).

(** A text of 1500 characters of three bytes each. *)
Definition viet_text : string :=
  String.concat EmptyString (replicate 1500 "ạ").

(** The values stored under ['content_id'], in scan order. *)
Definition content_ids (docs : list Doc) : list (option pyval) :=
  map (λ doc : Doc, doc !! "content_id") docs.

(** A page as a crawler hands it to [add_document]. *)
Definition page : Doc :=
  <["url" := VStr "https://x/n"]> (<["title" := VStr "Nganh hoc"]> ∅).

Definition page_id : string := "793eae2365e5749bff7628c5e82fc425".

(** A revision of the stored [doc_a], sent under its ['content_id']. *)
Definition doc_a2 : Doc :=
  <["content_id" := VStr "a"]>
  (<["url" := VStr "https://x/a"]>
  (<["title" := VStr "Phuong thuc tuyen sinh 2026"]> ∅)).

(** A lower-case hexadecimal digit. *)
Definition is_hex_digit (c : ascii) : bool :=
  existsb (Ascii.eqb c) (list_ascii_of_string "0123456789abcdef").

(** Pages with a category and keywords, and a collection holding them. *)
Definition doc_c1 : Doc :=
  <["_id" := VStr "65c000000000000000000001"]>
  (<["content_id" := VStr "c1"]>
  (<["url" := VStr "https://x/c1"]>
  (<["category" := VStr "tuyen-sinh"]>
  (<["keywords" := VStr "hoc phi, hoc bong"]> ∅)))).

Definition doc_c2 : Doc :=
  <["_id" := VStr "65c000000000000000000002"]>
  (<["content_id" := VStr "c2"]>
  (<["url" := VStr "https://x/c2"]>
  (<["category" := VStr "dao-tao"]>
  (<["keywords" := VStr "chuong trinh"]> ∅)))).

Definition doc_c3 : Doc :=
  <["_id" := VStr "65c000000000000000000003"]>
  (<["content_id" := VStr "c3"]>
  (<["url" := VStr "https://x/c3"]>
  (<["category" := VStr "tuyen-sinh"]>
  (<["keywords" := VStr "xet tuyen"]> ∅)))).

Definition categorised : Collection :=
  collection_of [doc_c1; doc_c2; doc_c3] (Some match_all).



(** An agent whose model cannot be reached. *)
Definition agent_down : string → outcome AgentResult :=
  λ _, Raised (ServiceError "ThrottlingException").

(** An agent whose result has a message with an empty content list. *)
Definition agent_empty : string → outcome AgentResult :=
  λ _, Returned {| message_attr := Some (WithContent (Some []));
                   as_str := "AgentResult" |}.

(** A query cache holding, for "UIT", an entry written at time 0. *)
Definition old_cache : gmap string CacheEntry :=
  {[ cache_key_of_query "UIT" := {| result := "old"; timestamp := 0 |} ]}.

(** A configuration of the webhook with a secret. *)
Definition cfg_secret : App.Config :=
  {| App.ZALO_SECRET := "s3cret"; App.ZALO_ACCESS_TOKEN := "bot1:token" |}.

(** The URL every message is posted to. *)
Definition send_url (cfg : App.Config) : string :=
  "https://bot-api.zapps.me/" ++ App.ZALO_ACCESS_TOKEN cfg ++ "/sendMessage".

(** The payload of a text message in the new format: the sender under
    ['message']['from']['id']. *)
Definition text_event (user_id : App.json) (text : string) : App.json :=
  App.JObj
    [("event_name", App.JStr "message.text.received");
     ("message",
      App.JObj [("from", App.JObj [("id", user_id)]);
                ("text", App.JStr text)])].

End More.

(* ===================================================================== *)
(** * Properties *)
(* ===================================================================== *)

Import Py Mongo.

(** ** MD5 and the string helpers on known values *)

Example md5_empty :
  MD5.md5_hexdigest (MD5.encode EmptyString) = "d41d8cd98f00b204e9800998ecf8427e".
Proof. vm_compute. reflexivity. Qed.

Example md5_abc :
  MD5.md5_hexdigest (MD5.encode "abc") = "900150983cd24fb0d6963f7d28e17f72".
Proof. vm_compute. reflexivity. Qed.

Example md5_two_blocks :
  MD5.md5_hexdigest
    (MD5.encode
       "aaaaaaaaaaaaaaaaaaaaaaaaaaaaaaaaaaaaaaaaaaaaaaaaaaaaaaaaaaaaaaaaaaaaaa")
  = "0f5c6c4e740bfcc08c3c26ccb2673d46".
Proof. vm_compute. reflexivity. Qed.

Example strip_lower_example :
  ascii_strip (ascii_lower "  Hello World  ") = "hello world".
Proof. vm_compute. reflexivity. Qed.

(** Lengths and slices count characters, not bytes. *)
Example str_len_example :
  String.length "Đại học" = 12 ∧ str_len "Đại học" = 7
  ∧ str_slice 0 3 "Đại học" = "Đại" ∧ str_slice 4 7 "Đại học" = "học".
Proof. repeat split; vm_compute; reflexivity. Qed.

Example slice_to_examples :
  slice_to 2 [10; 20; 30]%Z = [10; 20]%Z
  ∧ slice_to 5 [10; 20; 30]%Z = [10; 20; 30]%Z
  ∧ slice_to (-1) [10; 20; 30]%Z = [10; 20]%Z.
Proof. repeat split. Qed.

Example cursor_limit_examples :
  cursor_limit 2 [10; 20; 30]%Z = [10; 20]%Z
  ∧ cursor_limit 0 [10; 20; 30]%Z = [10; 20; 30]%Z
  ∧ cursor_limit (-2) [10; 20; 30]%Z = [10; 20]%Z.
Proof. repeat split. Qed.

(** A key assigned twice keeps its place and takes the last value. *)
Example dict_comprehension_example :
  dict_comprehension [(VStr "a", 1%nat); (VStr "b", 2%nat); (VStr "a", 3%nat)]
  = Returned [(VStr "a", 3%nat); (VStr "b", 2%nat)]
  ∧ dict_comprehension [(VStr "a", 1%nat); (VVec [], 2%nat)]
    = Raised (TypeError "unhashable type: 'list'").
Proof. split; vm_compute; reflexivity. Qed.

(** Decide the comparisons of real constants a computation meets. *)
Ltac decide_reals :=
  repeat (match goal with
          | |- context [Rlt_dec ?a ?b] => destruct (Rlt_dec a b); try lra
          | |- context [Rle_dec ?a ?b] => destruct (Rle_dec a b); try lra
          | |- context [Req_dec_T ?a ?b] => destruct (Req_dec_T a b); try lra
          end; simpl).

(** The sort is descending and keeps equal keys in their order. *)
Example sort_reverse_example :
  sort_reverse fst [(1, "a"); (2, "b"); (3, "c"); (2, "d")]%R
  = [(3, "c"); (2, "b"); (2, "d"); (1, "a")]%R.
Proof. unfold sort_reverse. simpl. decide_reals. reflexivity. Qed.

(** ** Cosine similarity in exact arithmetic *)

Section CosineFacts.
Import UEH.
Local Open Scope R_scope.

Lemma np_dot_comm (a b : list R) : np_dot a b = np_dot b a.
Proof.
  revert b. induction a as [|x a IH]; intros [|y b]; simpl; try reflexivity.
  rewrite IH. destruct (np_dot b a); simpl; [|reflexivity].
  f_equal. ring.
Qed.

Lemma sum_squares_nonneg (a : list R) : 0 <= sum_squares a.
Proof.
  induction a as [|x a IH]; simpl.
  - lra.
  - change (0 <= x * x + sum_squares a). nra.
Qed.


Lemma norm_sqr (a : list R) : norm a * norm a = sum_squares a.
Proof. apply sqrt_sqrt, sum_squares_nonneg. Qed.



Lemma cosine_similarity_comm (a b : list R) :
  cosine_similarity a b = cosine_similarity b a.
Proof.
  unfold cosine_similarity. rewrite (np_dot_comm a b).
  destruct (np_dot b a) as [s|]; [|reflexivity].
  destruct (Req_dec_T (norm a) 0), (Req_dec_T (norm b) 0); try reflexivity.
  f_equal. ring.
Qed.


Lemma cosine_similarity_zero_norm (a b : list R) :
  norm a = 0 ∨ norm b = 0 → cosine_similarity a b = 0.
Proof.
  intros H. unfold cosine_similarity.
  destruct (np_dot a b); [|reflexivity].
  destruct (Req_dec_T (norm a) 0); [reflexivity|].
  destruct (Req_dec_T (norm b) 0); [reflexivity|].
  tauto.
Qed.

Lemma np_dot_scaled (k : R) (a : list R) :
  np_dot a (map (Rmult k) a) = Returned (k * sum_squares a).
Proof.
  induction a as [|x a IH]; simpl.
  - f_equal. ring.
  - rewrite IH. simpl. f_equal.
    change (foldr (λ x s, x * x + s) 0 a) with (sum_squares a). ring.
Qed.

Lemma sum_squares_scaled (k : R) (a : list R) :
  sum_squares (map (Rmult k) a) = k * k * sum_squares a.
Proof.
  induction a as [|x a IH]; simpl.
  - ring.
  - change (foldr (λ x s, x * x + s) 0 (map (Rmult k) a))
      with (sum_squares (map (Rmult k) a)).
    change (foldr (λ x s, x * x + s) 0 a) with (sum_squares a).
    rewrite IH. ring.
Qed.

Lemma norm_scaled (k : R) (a : list R) :
  0 <= k → norm (map (Rmult k) a) = k * norm a.
Proof.
  intros Hk. unfold norm. rewrite sum_squares_scaled.
  rewrite sqrt_mult_alt by nra. rewrite sqrt_square by assumption. reflexivity.
Qed.

(** A vector and a positive multiple of it have similarity exactly 1. *)
Lemma cosine_similarity_scaled (k : R) (a : list R) :
  0 < k → norm a ≠ 0 → cosine_similarity a (map (Rmult k) a) = 1.
Proof.
  intros Hk Ha. unfold cosine_similarity.
  rewrite np_dot_scaled, norm_scaled by lra.
  destruct (Req_dec_T (norm a) 0); [contradiction|].
  destruct (Req_dec_T (k * norm a) 0) as [H0|_].
  - apply Rmult_integral in H0 as [|]; [lra|contradiction].
  - rewrite <- norm_sqr. field. split; [assumption|lra].
Qed.

Lemma map_Rmult_1 (a : list R) : map (Rmult 1) a = a.
Proof.
  induction a as [|x a IH]; simpl; [reflexivity|].
  rewrite IH. f_equal. ring.
Qed.

Lemma cosine_similarity_self (a : list R) :
  norm a ≠ 0 → cosine_similarity a a = 1.
Proof.
  intros Ha. rewrite <- (map_Rmult_1 a) at 2.
  apply cosine_similarity_scaled; [lra|assumption].
Qed.

Example cosine_similarity_example :
  cosine_similarity [3; 4] [4; 3] = 24 / 25
  ∧ cosine_similarity [3; 4] [4; 3; 0] = 0
  ∧ cosine_similarity [3; 4] [0; 0] = 0.
Proof.
  assert (H5 : ∀ x y, x * x + (y * y + 0) = 25 → norm [x; y] = 5).
  { intros x y H. unfold norm, sum_squares. simpl. rewrite H.
    replace 25 with (5 * 5) by lra. apply sqrt_square. lra. }
  assert (H0 : norm [0; 0] = 0).
  { unfold norm, sum_squares. simpl.
    replace (0 * 0 + (0 * 0 + 0)) with 0 by lra. apply sqrt_0. }
  unfold cosine_similarity. simpl. rewrite !H5, H0 by lra.
  decide_reals. all: repeat split; lra.
Qed.

End CosineFacts.

(** ** Cosine similarity and the sort in double precision *)

Section Float64Facts.
Import Float64.
Local Open Scope float_scope.






Section Sort.
Context {A : Type} (key : A → float).





End Sort.



End Float64Facts.

(** ** Sorting and slicing *)

Section SortFacts.
Import Spec.
Context {A : Type} (key : A → R).
Local Open Scope R_scope.

Lemma insert_desc_perm (x : A) (l : list A) :
  Permutation (insert_desc key x l) (x :: l).
Proof.
  induction l as [|y l IH]; simpl; [reflexivity|].
  destruct (Rlt_dec (key x) (key y)); [|reflexivity].
  rewrite IH. apply perm_swap.
Qed.

Lemma sort_reverse_perm (l : list A) : Permutation (sort_reverse key l) l.
Proof.
  induction l as [|x l IH]; simpl; [reflexivity|].
  rewrite insert_desc_perm. by constructor.
Qed.

Lemma insert_desc_descending (x : A) (l : list A) :
  descending key l → descending key (insert_desc key x l).
Proof.
  unfold descending. induction l as [|y l IH]; simpl; intros Hs.
  - repeat constructor.
  - apply StronglySorted_inv in Hs as [Hl Hy].
    destruct (Rlt_dec (key x) (key y)) as [Hlt|Hge].
    + constructor; [by apply IH|].
      eapply Permutation_Forall; [symmetry; apply insert_desc_perm|].
      constructor; [lra|assumption].
    + constructor; [by constructor|].
      constructor; [lra|].
      eapply Forall_impl; [exact Hy|]. simpl. intros z Hz. lra.
Qed.

Lemma sort_reverse_descending (l : list A) : descending key (sort_reverse key l).
Proof.
  induction l as [|x l IH]; simpl; [constructor|].
  by apply insert_desc_descending.
Qed.

Lemma descending_take (n : nat) (l : list A) :
  descending key l → descending key (take n l).
Proof.
  unfold descending. intros Hs. revert n.
  induction Hs as [|x l Hs IH Hx]; intros [|n]; simpl; try constructor.
  - apply IH.
  - rewrite Forall_forall in Hx |- *. intros y Hy. apply Hx.
    eapply subseteq_take, Hy.
Qed.

Lemma descending_slice_to (n : Z) (l : list A) :
  descending key l → descending key (slice_to n l).
Proof. unfold slice_to. destruct (0 <=? n)%Z; apply descending_take. Qed.

Lemma slice_to_length (n : Z) (l : list A) :
  (0 <= n)%Z → (Z.of_nat (length (slice_to n l)) <= n)%Z.
Proof.
  intros Hn. unfold slice_to.
  destruct (Z.leb_spec 0 n); [|lia]. rewrite length_take. lia.
Qed.

Lemma slice_to_subseteq (n : Z) (l : list A) : slice_to n l ⊆ l.
Proof. unfold slice_to. destruct (0 <=? n)%Z; apply subseteq_take. Qed.

Lemma cursor_limit_subseteq (n : Z) (l : list A) : cursor_limit n l ⊆ l.
Proof.
  unfold cursor_limit. destruct (n =? 0)%Z; [done|apply subseteq_take].
Qed.

(** An element whose key is strictly above everything before it and at
    least everything after it comes first: ties go to the earlier one. *)
Lemma insert_desc_top (x : A) (l : list A) :
  Forall (λ y, key y <= key x) l → insert_desc key x l = x :: l.
Proof.
  destruct l as [|y l]; simpl; [done|]. intros H.
  apply Forall_cons in H as [Hy _].
  destruct (Rlt_dec (key x) (key y)); [lra|done].
Qed.

(** Sorting a list that is in order already leaves it as it is. *)
Lemma sort_reverse_sorted_id (l : list A) :
  descending key l → sort_reverse key l = l.
Proof.
  unfold descending. induction 1 as [|x l Hs IH Hx]; simpl; [done|].
  rewrite IH. apply insert_desc_top.
  eapply Forall_impl; [exact Hx|]. simpl. intros; lra.
Qed.

End SortFacts.

(** ** The searches of the knowledge base *)

Section SearchFacts.
Import Spec UEH.
Local Open Scope R_scope.

Implicit Types (self : KnowledgeBase) (doc stored d : Doc) (query : string).

Lemma find_text_elem (c : Collection) query (limit : Z) (results : list Doc) d :
  find_text c query limit = Returned results → d ∈ results →
  ∃ stored s, stored ∈ documents c ∧ d = <["score" := VNum s]> stored.
Proof.
  unfold find_text. destruct (text_query_error c); [discriminate|].
  destruct (text_index c) as [score|]; [|discriminate].
  intros [= <-] Hd. apply cursor_limit_subseteq in Hd.
  rewrite sort_reverse_perm in Hd.
  apply list_elem_of_omap in Hd as (stored & Hin & Hs).
  destruct (score query stored) as [s|]; [|discriminate].
  injection Hs as <-. eauto.
Qed.

Lemma full_text_search_total self query (limit : Z) :
  full_text_search self query limit
  = Returned match find_text (collection self) query limit with
             | Returned results => map strip_text_result results
             | Raised _ => []
             end.
Proof.
  unfold full_text_search.
  by destruct (find_text (collection self) query limit).
Qed.

Lemma full_text_search_elem self query (limit : Z) (docs : list Doc) d :
  full_text_search self query limit = Returned docs → d ∈ docs →
  ∃ stored s, stored ∈ documents (collection self)
              ∧ d = strip_text_result (<["score" := VNum s]> stored).
Proof.
  rewrite full_text_search_total. intros [= <-].
  destruct (find_text (collection self) query limit) as [results|] eqn:Hf.
  - intros Hd. apply list_elem_of_fmap in Hd as (d' & -> & Hd').
    destruct (find_text_elem _ _ _ _ _ Hf Hd') as (stored & s & Hin & ->).
    eauto.
  - intros Hd. by apply elem_of_nil in Hd.
Qed.

Lemma num_field_insert (field : string) (x : R) d :
  num_field field (<[field := VNum x]> d) = x.
Proof. unfold num_field. by rewrite lookup_insert_eq. Qed.

Lemma strip_text_result_id d : strip_text_result d !! "_id" = None.
Proof. unfold strip_text_result. by simplify_map_eq. Qed.

Lemma strip_text_result_embedding d : strip_text_result d !! "embedding" = None.
Proof. unfold strip_text_result. by simplify_map_eq. Qed.

Lemma doc_key_strip_text_result stored (s : R) :
  doc_key (strip_text_result (<["score" := VNum s]> stored)) = doc_key stored.
Proof. unfold doc_key, strip_text_result. by simplify_map_eq. Qed.

Lemma generate_embedding_nonempty self query (qe : list R) :
  generate_embedding self query = Some qe → qe ≠ [].
Proof.
  unfold generate_embedding. destruct (negb _); [discriminate|].
  destruct (invoke_model self _) as [[|x e]|]; try discriminate.
  by intros [= <-].
Qed.

Lemma vector_search_vector_path self query (limit : Z) (threshold : R)
    (qe : list R) :
  enable_vector_search self = true →
  generate_embedding self query = Some qe →
  scan_error (collection self) = None →
  vector_search self query limit threshold
  = Returned (slice_to limit
                (sort_reverse (num_field "similarity_score")
                   (scored (collection self) qe threshold))).
Proof.
  intros Hen Hemb Hscan. unfold vector_search. rewrite Hen, Hemb. simpl.
  destruct qe as [|x qe].
  { by apply generate_embedding_nonempty in Hemb. }
  unfold find_exists. rewrite Hscan. reflexivity.
Qed.

Lemma score_document_Some (qe : list R) (threshold : R) doc d :
  score_document qe threshold doc = Some d →
  ∃ stored_emb,
    doc !! "embedding" = Some stored_emb ∧ truthy stored_emb = true
    ∧ threshold <= similarity_to qe stored_emb
    ∧ d = <["similarity_score" := VNum (similarity_to qe stored_emb)]>
            (delete "embedding" (delete "_id" doc)).
Proof.
  unfold score_document. destruct (doc !! "embedding") as [e|]; [|discriminate].
  destruct (truthy e) eqn:Ht; [|discriminate].
  destruct (Rle_dec threshold (similarity_to qe e)); [|discriminate].
  intros [= <-]. eauto.
Qed.

Lemma scored_elem (c : Collection) (qe : list R) (threshold : R) d :
  d ∈ scored c qe threshold →
  ∃ stored stored_emb,
    stored ∈ documents c
    ∧ stored !! "embedding" = Some stored_emb ∧ truthy stored_emb = true
    ∧ threshold <= similarity_to qe stored_emb
    ∧ d = <["similarity_score" := VNum (similarity_to qe stored_emb)]>
            (delete "embedding" (delete "_id" stored)).
Proof.
  unfold scored, scanned. intros Hd.
  apply list_elem_of_omap in Hd as (stored & Hin & Hs).
  apply list_elem_of_filter in Hin as [_ Hin].
  apply score_document_Some in Hs as (e & ? & ? & ? & ?). eauto 10.
Qed.

Lemma scored_doc_fields stored (x : R) :
  let d := <["similarity_score" := VNum x]>
             (delete "embedding" (delete "_id" stored)) in
  d !! "_id" = None ∧ d !! "embedding" = None
  ∧ d !! "similarity_score" = Some (VNum x)
  ∧ num_field "similarity_score" d = x
  ∧ doc_key d = doc_key stored.
Proof.
  unfold num_field, doc_key. by simplify_map_eq.
Qed.

End SearchFacts.

Section VectorSearchFacts.
Import Spec UEH.
Local Open Scope R_scope.

Implicit Types (self : KnowledgeBase) (doc stored d : Doc) (query : string).

(** Either the vector path ran to its end, or the answer is that of
    [full_text_search]. *)
Lemma vector_search_cases self query (limit : Z) (threshold : R) :
  vector_search self query limit threshold = full_text_search self query limit
  ∨ ∃ qe, generate_embedding self query = Some qe
          ∧ scan_error (collection self) = None
          ∧ vector_search self query limit threshold
            = Returned (slice_to limit
                          (sort_reverse (num_field "similarity_score")
                             (scored (collection self) qe threshold))).
Proof.
  destruct (enable_vector_search self) eqn:Hen.
  2: { left. unfold vector_search. by rewrite Hen. }
  destruct (generate_embedding self query) as [qe|] eqn:Hemb.
  2: { left. unfold vector_search. rewrite Hen, Hemb. simpl.
       by rewrite full_text_search_total. }
  destruct (scan_error (collection self)) as [e|] eqn:Hscan.
  - left. unfold vector_search. rewrite Hen, Hemb. simpl.
    destruct qe; [by rewrite full_text_search_total|].
    unfold find_exists. rewrite Hscan. reflexivity.
  - right. exists qe. split; [done|]. split; [done|].
    by apply vector_search_vector_path.
Qed.

Lemma generate_embedding_enabled self query (qe : list R) :
  generate_embedding self query = Some qe → enable_vector_search self = true.
Proof.
  unfold generate_embedding. by destruct (enable_vector_search self).
Qed.

Lemma vector_search_elem self query (limit : Z) (threshold : R) (qe : list R) d :
  d ∈ slice_to limit
        (sort_reverse (num_field "similarity_score")
           (scored (collection self) qe threshold)) →
  d ∈ scored (collection self) qe threshold.
Proof.
  intros Hd. apply slice_to_subseteq in Hd. by rewrite sort_reverse_perm in Hd.
Qed.

End VectorSearchFacts.

(** ** Claims on the searches of [UEHMongoKnowledgeBase] *)

Section SearchClaims.
Import Spec UEH Examples.
Local Open Scope R_scope.

Implicit Types (self : KnowledgeBase) (doc stored d : Doc) (query : string).

Lemma norm_example : norm [1; 0] ≠ 0.
Proof.
  intros H. pose proof (norm_sqr [1; 0]) as Hs. rewrite H in Hs.
  unfold sum_squares in Hs. simpl in Hs. lra.
Qed.

Lemma generate_embedding_example (docs : list Doc) query :
  (Z.of_nat (str_len query) <= max_chars)%Z →
  generate_embedding (kb_of docs) query = Some [1; 0].
Proof.
  intros Hlen. unfold generate_embedding. simpl.
  by destruct (max_chars <? Z.of_nat (str_len query))%Z.
Qed.

(** C4, amended: [full_text_search] never raises.  It returns the empty
    list when no document matches the query, and it returns the empty list
    as well when the text query fails, be it for a missing text index or for
    an error of the server: the failure is caught, not passed to the caller. *)
Theorem full_text_search_never_raises self query (limit : Z) :
  (∃ docs, full_text_search self query limit = Returned docs)
  ∧ (∀ score,
       text_query_error (collection self) = None →
       text_index (collection self) = Some score →
       (∀ doc, doc ∈ documents (collection self) → score query doc = None) →
       full_text_search self query limit = Returned [])
  ∧ (text_index (collection self) = None
     ∨ is_Some (text_query_error (collection self)) →
     full_text_search self query limit = Returned []).
Proof.
  split; [rewrite full_text_search_total; eauto|]. split.
  - intros score Herr Hidx Hnone. rewrite full_text_search_total.
    unfold find_text. rewrite Herr, Hidx. f_equal.
    assert (Hm : omap (λ doc : Doc,
                         match score query doc with
                         | Some s => Some (<["score" := VNum s]> doc)
                         | None => None
                         end) (documents (collection self)) = []).
    { induction (documents (collection self)) as [|x l IH]; [done|].
      simpl. rewrite (Hnone x) by apply list_elem_of_here.
      apply IH. intros doc Hdoc. apply Hnone. by apply list_elem_of_further. }
    rewrite Hm. simpl. unfold cursor_limit.
    by destruct (limit =? 0)%Z; [|rewrite take_nil].
  - intros H. rewrite full_text_search_total. unfold find_text.
    destruct (text_query_error (collection self)); [done|].
    destruct H as [->|[e He]]; done.
Qed.

Lemma full_text_search_never_raises_witness :
  full_text_search kb_no_index "tuyen sinh" 10 = Returned [].
Proof.
  apply (full_text_search_never_raises kb_no_index "tuyen sinh" 10).
  left. reflexivity.
Defined.

(** C4 as stated fails: with the text index missing the call does not fail
    with an error, it returns the empty list like a query without match. *)
Lemma full_text_search_index_unavailable :
  text_index (collection kb_no_index) = None
  ∧ full_text_search kb_no_index "tuyen sinh" 10 = Returned []
  ∧ ∀ e, full_text_search kb_no_index "tuyen sinh" 10 ≠ Raised e.
Proof. repeat split. intros e. discriminate. Qed.

(** C2 as stated fails: with vector search switched off, and also with the
    embedding service down, [vector_search] answers with the text matches,
    here a document that has no embedding. *)
Lemma vector_search_returns_unembedded :
  doc_plain ∈ documents (collection kb_disabled)
  ∧ doc_plain !! "embedding" = None
  ∧ vector_search kb_disabled "tuyen sinh" 10 0.5
    = Returned [delete "_id" doc_plain]
  ∧ vector_search kb_embedding_down "tuyen sinh" 10 0.5
    = Returned [delete "_id" doc_plain].
Proof.
  split; [apply list_elem_of_here|]. split; [reflexivity|].
  split; vm_compute; reflexivity.
Qed.

(** C2, amended: when vector search is enabled, a query embedding is
    obtained and the scan of the collection does not raise, every document
    [vector_search] returns comes from a stored document whose ['embedding']
    is present, not null and not empty.  When vector search is switched off,
    when no query embedding is obtained and when the scan raises,
    [vector_search] returns what [full_text_search] returns, which can hold
    documents without embedding: [kb_disabled] returns one. *)
Theorem vector_search_only_embedded self query (limit : Z) (threshold : R) :
  (∀ qe : list R,
     generate_embedding self query = Some qe →
     scan_error (collection self) = None →
     ∃ results,
       vector_search self query limit threshold = Returned results
       ∧ ∀ d, d ∈ results →
           ∃ stored stored_emb,
             stored ∈ documents (collection self)
             ∧ stored !! "embedding" = Some stored_emb
             ∧ stored_emb ≠ VNone ∧ stored_emb ≠ VVec []
             ∧ d = <["similarity_score" :=
                       VNum (similarity_to qe stored_emb)]>
                     (delete "embedding" (delete "_id" stored)))
  ∧ (enable_vector_search self = false
     ∨ generate_embedding self query = None
     ∨ is_Some (scan_error (collection self)) →
     vector_search self query limit threshold
     = full_text_search self query limit)
  ∧ (doc_plain ∈ documents (collection kb_disabled)
     ∧ doc_plain !! "embedding" = None
     ∧ full_text_search kb_disabled "tuyen sinh" 10
       = Returned [delete "_id" doc_plain]).
Proof.
  split; [|split].
  - intros qe Hemb Hscan.
    pose proof (generate_embedding_enabled _ _ _ Hemb) as Hen.
    eexists. split.
    { by apply vector_search_vector_path. }
    intros d Hd. apply vector_search_elem in Hd; [|exact query].
    apply scored_elem in Hd as (stored & e & Hin & He & Ht & _ & ->).
    exists stored, e. repeat split; try done; by intros ->.
  - intros Hfall.
    destruct (vector_search_cases self query limit threshold)
      as [H|(qe & Hemb & Hscan & _)]; [exact H|].
    destruct Hfall as [Hoff|[Hnone|[e He]]].
    + apply generate_embedding_enabled in Hemb. congruence.
    + congruence.
    + congruence.
  - split; [apply list_elem_of_here|]. split; [reflexivity|].
    vm_compute. reflexivity.
Qed.

Lemma vector_search_only_embedded_witness :
  (∃ results,
     vector_search kb_ab "tuyen sinh" 10 (1 / 2) = Returned results
     ∧ ∀ d, d ∈ results →
         ∃ stored stored_emb,
           stored ∈ documents (collection kb_ab)
           ∧ stored !! "embedding" = Some stored_emb
           ∧ stored_emb ≠ VNone ∧ stored_emb ≠ VVec []
           ∧ d = <["similarity_score" :=
                     VNum (similarity_to [1; 0] stored_emb)]>
                   (delete "embedding" (delete "_id" stored)))
  ∧ vector_search kb_scan_down "tuyen sinh" 10 (1 / 2)
    = full_text_search kb_scan_down "tuyen sinh" 10
  ∧ vector_search kb_embedding_down "tuyen sinh" 10 (1 / 2)
    = full_text_search kb_embedding_down "tuyen sinh" 10.
Proof.
  split; [|split].
  - destruct (vector_search_only_embedded kb_ab "tuyen sinh" 10 (1 / 2))
      as (Hvec & _ & _).
    apply (Hvec [1; 0]).
    + apply generate_embedding_example. vm_compute. discriminate.
    + reflexivity.
  - destruct (vector_search_only_embedded kb_scan_down "tuyen sinh" 10 (1 / 2))
      as (_ & Hfall & _).
    apply Hfall. right. right. eexists. reflexivity.
  - destruct (vector_search_only_embedded kb_embedding_down "tuyen sinh" 10
                (1 / 2)) as (_ & Hfall & _).
    apply Hfall. right. left. reflexivity.
Defined.

(** The similarity of two orthogonal vectors. *)
Lemma cosine_similarity_orthogonal : cosine_similarity [1; 0] [0; 1] = 0.
Proof.
  unfold cosine_similarity. simpl.
  destruct (Req_dec_T (norm [1; 0]) 0); [done|].
  destruct (Req_dec_T (norm [0; 1]) 0); [done|].
  unfold Rdiv. replace (1 * 0 + (0 * 1 + 0)) with 0 by lra. apply Rmult_0_l.
Qed.

(** The documents of [kb_ab] that the loop keeps at threshold 0.5. *)
Lemma scored_ab :
  scored (collection kb_ab) [1; 0] 0.5
  = [<["similarity_score" := VNum 1]> (delete "embedding" (delete "_id" doc_a));
     <["similarity_score" := VNum 1]> (delete "embedding" (delete "_id" doc_b))].
Proof.
  assert (Hcos : cosine_similarity [1; 0] [1; 0] = 1)
    by apply cosine_similarity_self, norm_example.
  unfold scored, scanned.
  replace (filter (λ doc : Doc, is_Some (doc !! "embedding"))
             (documents (collection kb_ab)))
    with [doc_a; doc_b] by (vm_compute; reflexivity).
  simpl omap. unfold score_document.
  replace (doc_a !! "embedding") with (Some (VVec [1; 0])) by reflexivity.
  replace (doc_b !! "embedding") with (Some (VVec [1; 0])) by reflexivity.
  simpl. rewrite Hcos. destruct (Rle_dec 0.5 1); [|lra]. reflexivity.
Qed.

(** C6 as stated fails.  The query embedding is obtained and the scan of
    the collection raises: [vector_search] answers with the text match, a
    document whose similarity to the query embedding is 0, at the threshold
    0.99.  And with the limit -1 the result has one document, more than the
    limit. *)
Lemma vector_search_fallback_below_threshold :
  generate_embedding kb_scan_down "tuyen sinh" = Some [1; 0]
  ∧ doc_o !! "embedding" = Some (VVec [0; 1])
  ∧ similarity_to [1; 0] (VVec [0; 1]) = 0
  ∧ vector_search kb_scan_down "tuyen sinh" 10 0.99
    = Returned [delete "embedding" (delete "_id" doc_o)]
  ∧ ∃ results,
      vector_search kb_ab "tuyen sinh" (-1) 0.5 = Returned results
      ∧ length results = 1%nat.
Proof.
  split; [reflexivity|]. split; [reflexivity|].
  split; [apply cosine_similarity_orthogonal|]. split.
  - vm_compute. reflexivity.
  - exists (slice_to (-1)
              (sort_reverse (num_field "similarity_score")
                 (scored (collection kb_ab) [1; 0] 0.5))).
    split; [apply (vector_search_vector_path kb_ab _ _ _ [1; 0]); reflexivity|].
    rewrite scored_ab. unfold slice_to.
    replace (0 <=? -1)%Z with false by reflexivity.
    rewrite length_take, (Permutation_length (sort_reverse_perm _ _)).
    reflexivity.
Qed.



End SearchClaims.

(** ** Claims on the arithmetic of the vector search *)

Section ArithmeticClaims.
Import UEH Examples.

#[local] Set Warnings "-inexact-float".

(** C8 as stated fails on the doubles the code computes with.  The
    similarity of [[0.1, 0.7]] and [[0.3, 2.1]] is 1.0000000000000002, above
    1.  The squares of the components of [[1e-200, 0]] underflow to 0, so
    the norm computed is 0 and the similarity of this vector to itself is
    0.0, not within 1e-6 of 1.0. *)
Lemma cosine_similarity_leaves_bound :
  Float64.cosine_similarity [0.1; 0.7]%float [0.3; 2.1]%float
  = 1.0000000000000002%float
  ∧ (1 <? 1.0000000000000002)%float = true
  ∧ Float64.cosine_similarity [1e-200; 0]%float [1e-200; 0]%float = 0%float
  ∧ (PrimFloat.abs
       (Float64.cosine_similarity [1e-200; 0] [1e-200; 0] - 1) <=? 1e-6)%float
    = false.
Proof. repeat split; vm_compute; reflexivity. Qed.






End ArithmeticClaims.

(** ** Ordered dictionaries and loops *)

Section DictFacts.
Context {V : Type}.
Implicit Types (d acc : pydict V) (kvs : list (pyval * V)) (k : pyval) (v : V).

Lemma dict_get_set k k' v d :
  dict_get k (dict_set k' v d)
  = if pyval_eq_dec k' k then Some v else dict_get k d.
Proof.
  induction d as [|[k0 v0] d IH]; simpl; [done|].
  destruct (pyval_eq_dec k0 k') as [->|Hne]; simpl.
  - by destruct (pyval_eq_dec k' k).
  - rewrite IH. destruct (pyval_eq_dec k0 k) as [->|]; [|done].
    by destruct (pyval_eq_dec k' k) as [->|].
Qed.

Lemma dict_set_elem k v d (kv : pyval * V) :
  kv ∈ dict_set k v d → kv ∈ d ∨ kv = (k, v).
Proof.
  induction d as [|[k0 v0] d IH]; simpl.
  - intros H%list_elem_of_singleton. by right.
  - destruct (pyval_eq_dec k0 k) as [->|Hne]; intros H.
    + apply elem_of_cons in H as [H|H]; [subst kv; by right|].
      left. by apply list_elem_of_further.
    + apply elem_of_cons in H as [H|H]; [subst kv; left; apply list_elem_of_here|].
      destruct (IH H) as [?|?]; [left; by apply list_elem_of_further|by right].
Qed.

Lemma dict_comprehension_from_elem acc kvs d (kv : pyval * V) :
  dict_comprehension_from acc kvs = Returned d → kv ∈ d → kv ∈ acc ∨ kv ∈ kvs.
Proof.
  revert acc. induction kvs as [|[k0 v0] kvs IH]; simpl; intros acc.
  - intros [= <-]. by left.
  - destruct (hashable k0); [|discriminate]. intros Hd Hkv.
    destruct (IH _ Hd Hkv) as [H|H].
    + apply dict_set_elem in H as [H|H]; [by left|].
      subst kv. right. apply list_elem_of_here.
    + right. by apply list_elem_of_further.
Qed.

Lemma dict_comprehension_from_other acc kvs d k :
  dict_comprehension_from acc kvs = Returned d → k ∉ kvs.*1 →
  dict_get k d = dict_get k acc.
Proof.
  revert acc. induction kvs as [|[k0 v0] kvs IH]; simpl; intros acc.
  - by intros [= <-].
  - destruct (hashable k0); [|discriminate]. intros Hd Hk.
    apply not_elem_of_cons in Hk as [Hne Hk].
    rewrite (IH _ Hd Hk), dict_get_set.
    by destruct (pyval_eq_dec k0 k) as [->|].
Qed.

Lemma dict_comprehension_from_get acc kvs d k v :
  dict_comprehension_from acc kvs = Returned d → NoDup kvs.*1 →
  (k, v) ∈ kvs → dict_get k d = Some v.
Proof.
  revert acc. induction kvs as [|[k0 v0] kvs IH]; simpl; intros acc.
  - intros _ _ H. by apply elem_of_nil in H.
  - destruct (hashable k0); [|discriminate]. intros Hd Hnd Hkv.
    apply NoDup_cons in Hnd as [Hk0 Hnd].
    apply elem_of_cons in Hkv as [ [= -> ->] | Hkv].
    + rewrite (dict_comprehension_from_other _ _ _ _ Hd Hk0), dict_get_set.
      by destruct (pyval_eq_dec k0 k0).
    + by apply (IH _ Hd Hnd Hkv).
Qed.

Lemma for_each_elem {B} (f : V → outcome B) (l : list V) (ys : list B) (y : B) :
  for_each f l = Returned ys → y ∈ ys → ∃ x, x ∈ l ∧ f x = Returned y.
Proof.
  revert ys. induction l as [|x l IH]; simpl; intros ys.
  - intros [= <-] H. by apply elem_of_nil in H.
  - destruct (f x) as [y0|] eqn:Hfx; simpl; [|discriminate].
    destruct (for_each f l) as [ys'|]; simpl; [|discriminate].
    intros [= <-] Hy. apply elem_of_cons in Hy as [->|Hy].
    + exists x. split; [apply list_elem_of_here|done].
    + destruct (IH _ eq_refl Hy) as (x' & ? & ?).
      exists x'. split; [by apply list_elem_of_further|done].
Qed.

End DictFacts.

(** ** Hybrid search *)

Section HybridFacts.
Import Spec UEH.
Local Open Scope R_scope.

Implicit Types (self : KnowledgeBase) (doc stored d : Doc) (query : string).

Lemma doc_key_strip d : doc_key (strip_text_result d) = doc_key d.
Proof. unfold doc_key, strip_text_result. by simplify_map_eq. Qed.

Lemma doc_key_score d (v : pyval) : doc_key (<["score" := v]> d) = doc_key d.
Proof. unfold doc_key. by simplify_map_eq. Qed.

Lemma omap_key_sublist {A B K} (f : A → option B) (g : B → K) (h : A → K)
    (l : list A) :
  (∀ x y, f x = Some y → g y = h x) →
  (g <$> omap f l) `sublist_of` (h <$> l).
Proof.
  intros Hkey. induction l as [|x l IH]; simpl; [constructor|].
  destruct (f x) as [y|] eqn:Hfx; simpl.
  - rewrite (Hkey x y Hfx). by constructor.
  - by constructor.
Qed.

Lemma cursor_limit_sublist {A} (n : Z) (l : list A) :
  cursor_limit n l `sublist_of` l.
Proof.
  unfold cursor_limit. destruct (n =? 0)%Z; [done|apply sublist_take].
Qed.

Lemma slice_to_sublist {A} (n : Z) (l : list A) : slice_to n l `sublist_of` l.
Proof. unfold slice_to. destruct (0 <=? n)%Z; apply sublist_take. Qed.

Lemma full_text_search_keys self query (limit : Z) (docs : list Doc) :
  NoDup (doc_key <$> documents (collection self)) →
  full_text_search self query limit = Returned docs →
  NoDup (doc_key <$> docs).
Proof.
  intros Hnd. rewrite full_text_search_total. intros [= <-].
  unfold find_text. destruct (text_query_error (collection self));
    [constructor|].
  destruct (text_index (collection self)) as [score|]; [|constructor].
  rewrite <- list_fmap_compose.
  rewrite (list_fmap_ext (doc_key ∘ strip_text_result) doc_key)
    by (intros; apply doc_key_strip).
  eapply sublist_NoDup; [|apply fmap_sublist, cursor_limit_sublist].
  rewrite sort_reverse_perm.
  eapply sublist_NoDup; [exact Hnd|].
  apply omap_key_sublist. intros x y Hy.
  destruct (score query x); [|discriminate]. injection Hy as <-.
  apply doc_key_score.
Qed.

Lemma vector_path_keys (c : Collection) (n : Z) (qe : list R) (threshold : R) :
  NoDup (doc_key <$> documents c) →
  NoDup (doc_key <$> slice_to n
                       (sort_reverse (num_field "similarity_score")
                          (scored c qe threshold))).
Proof.
  intros Hnd.
  eapply sublist_NoDup; [|apply fmap_sublist, slice_to_sublist].
  rewrite sort_reverse_perm. unfold scored, scanned.
  eapply sublist_NoDup; [|apply omap_key_sublist with (h := doc_key)].
  - eapply sublist_NoDup; [exact Hnd|]. apply fmap_sublist, sublist_filter.
  - intros x y Hy. apply score_document_Some in Hy as (e & _ & _ & _ & ->).
    apply scored_doc_fields.
Qed.

(** What a run of the body of [hybrid_search] that raises nothing has
    computed. *)
Lemma fusion_inv self query (limit : Z) (tw vw : R) (l : list Doc) :
  fusion self query limit tw vw = Returned l →
  ∃ (T V : list Doc) (text_scores : pydict R) (vector_scores : pydict pyval)
    (combined_results : list Doc),
    full_text_search self query (limit * 2) = Returned T
    ∧ vector_search self query (limit * 2) 0.3 = Returned V
    ∧ dict_comprehension
        (imap (λ i doc, (doc_key doc, 1 / INR (i + 1))) T)
      = Returned text_scores
    ∧ dict_comprehension
        (map (λ doc : Doc,
                (doc_key doc, default (VNum 0) (doc !! "similarity_score"))) V)
      = Returned vector_scores
    ∧ l = slice_to limit
            (sort_reverse (num_field "combined_score") combined_results)
    ∧ ∀ d, d ∈ combined_results →
        ∃ doc (v : R),
          doc ∈ (T ++ V)%list
          ∧ default (VNum 0) (dict_get (doc_key doc) vector_scores) = VNum v
          ∧ d = delete "similarity_score"
                  (<["combined_score" :=
                       VNum (tw * default 0 (dict_get (doc_key doc) text_scores)
                             + vw * v)]> doc).
Proof.
  unfold fusion.
  destruct (full_text_search self query (limit * 2)) as [T|] eqn:HT;
    simpl; [|discriminate].
  destruct (dict_comprehension (imap _ T)) as [text_scores|] eqn:Hts;
    simpl; [|discriminate].
  destruct (vector_search self query (limit * 2) 0.3) as [V|] eqn:HV;
    simpl; [|discriminate].
  destruct (dict_comprehension (map _ V)) as [vector_scores|] eqn:Hvs;
    simpl; [|discriminate].
  destruct (dict_comprehension (map _ (T ++ V)%list)) as [all_docs|] eqn:Hall;
    simpl; [|discriminate].
  destruct (for_each _ all_docs) as [combined_results|] eqn:Hcomb;
    simpl; [|discriminate].
  intros [= <-].
  exists T, V, text_scores, vector_scores, combined_results.
  repeat (split; [done|]).
  intros d Hd.
  destruct (for_each_elem _ _ _ _ Hcomb Hd) as ([k doc] & Hin & Hf).
  destruct (dict_comprehension_from_elem _ _ _ _ Hall Hin) as [Hnil|Hkv].
  { by apply elem_of_nil in Hnil. }
  apply list_elem_of_fmap in Hkv as (doc' & [= -> ->] & Hdoc).
  simpl in Hf. unfold combine in Hf.
  destruct (default (VNum 0) (dict_get (doc_key doc') vector_scores))
    as [| |v|] eqn:Hv; simpl in Hf; try discriminate.
  injection Hf as <-. exists doc', v. by repeat split.
Qed.

Lemma vector_search_fields self query (limit : Z) (threshold : R)
    (docs : list Doc) d :
  vector_search self query limit threshold = Returned docs → d ∈ docs →
  d !! "_id" = None ∧ d !! "embedding" = None.
Proof.
  destruct (vector_search_cases self query limit threshold)
    as [->|(qe & _ & _ & ->)].
  - intros Hfts Hd.
    destruct (full_text_search_elem _ _ _ _ _ Hfts Hd) as (stored & s & _ & ->).
    split; [apply strip_text_result_id|apply strip_text_result_embedding].
  - intros [= <-] Hd. apply vector_search_elem in Hd; [|exact query].
    apply scored_elem in Hd as (stored & e & _ & _ & _ & _ & ->).
    split; apply scored_doc_fields.
Qed.

End HybridFacts.

Section HybridClaims.
Import Spec UEH Examples.
Local Open Scope R_scope.

Implicit Types (self : KnowledgeBase) (doc stored d : Doc) (query : string).

Lemma doc_key_fused doc (x : R) :
  doc_key (delete "similarity_score" (<["combined_score" := VNum x]> doc))
  = doc_key doc.
Proof. unfold doc_key. by simplify_map_eq. Qed.

Lemma fused_fields doc (x : R) :
  let d := delete "similarity_score" (<["combined_score" := VNum x]> doc) in
  d !! "_id" = doc !! "_id" ∧ d !! "embedding" = doc !! "embedding"
  ∧ d !! "similarity_score" = None ∧ d !! "combined_score" = Some (VNum x).
Proof. by simplify_map_eq. Qed.

Lemma hybrid_search_fusion_path self query (limit : Z) (tw vw : R)
    (l : list Doc) :
  enable_vector_search self = true →
  fusion self query limit tw vw = Returned l →
  hybrid_search self query limit tw vw = Returned l.
Proof. intros Hen Hf. unfold hybrid_search. by rewrite Hen, Hf. Qed.

Lemma fusion_elem self query (limit : Z) (tw vw : R) (l : list Doc) d :
  fusion self query limit tw vw = Returned l → d ∈ l →
  ∃ doc (x : R),
    d = delete "similarity_score" (<["combined_score" := VNum x]> doc)
    ∧ doc !! "_id" = None ∧ doc !! "embedding" = None.
Proof.
  intros Hf Hd.
  destruct (fusion_inv _ _ _ _ _ _ Hf)
    as (T & V & ts & vs & cr & HT & HV & _ & _ & -> & Hcr).
  apply slice_to_subseteq in Hd. rewrite sort_reverse_perm in Hd.
  destruct (Hcr d Hd) as (doc & v & Hdoc & _ & ->).
  eexists doc, _. split; [done|].
  apply elem_of_app in Hdoc as [Hdoc|Hdoc].
  - destruct (full_text_search_elem _ _ _ _ _ HT Hdoc) as (stored & s & _ & ->).
    split; [apply strip_text_result_id|apply strip_text_result_embedding].
  - by eapply vector_search_fields.
Qed.

(** C10: the documents returned by [full_text_search], by [vector_search]
    and by [hybrid_search] have no ['_id'] and no ['embedding'] entry; those
    that [hybrid_search] returns from its fusion have no ['similarity_score']
    entry either, and carry a ['combined_score']. *)
Theorem search_results_hide_internal_fields self query (limit : Z)
    (threshold tw vw : R) (docs : list Doc) d :
  d ∈ docs →
  (full_text_search self query limit = Returned docs →
   d !! "_id" = None ∧ d !! "embedding" = None)
  ∧ (vector_search self query limit threshold = Returned docs →
     d !! "_id" = None ∧ d !! "embedding" = None)
  ∧ (hybrid_search self query limit tw vw = Returned docs →
     d !! "_id" = None ∧ d !! "embedding" = None)
  ∧ (enable_vector_search self = true →
     fusion self query limit tw vw = Returned docs →
     hybrid_search self query limit tw vw = Returned docs
     ∧ d !! "similarity_score" = None ∧ is_Some (d !! "combined_score")).
Proof.
  intros Hd.
  assert (Hfts : ∀ limit docs, d ∈ docs →
            full_text_search self query limit = Returned docs →
            d !! "_id" = None ∧ d !! "embedding" = None).
  { intros limit' docs' Hd' H.
    destruct (full_text_search_elem _ _ _ _ _ H Hd') as (stored & s & _ & ->).
    split; [apply strip_text_result_id|apply strip_text_result_embedding]. }
  split; [by apply Hfts|].
  split; [intros H; by eapply vector_search_fields|].
  split.
  - unfold hybrid_search. destruct (enable_vector_search self); [|by apply Hfts].
    destruct (fusion self query limit tw vw) as [l|] eqn:Hf; simpl;
      [|by apply Hfts].
    intros [= ->].
    destruct (fusion_elem _ _ _ _ _ _ _ Hf Hd) as (doc & x & -> & Hid & Hemb).
    destruct (fused_fields doc x) as (-> & -> & _). done.
  - intros Hen Hf. split; [by apply hybrid_search_fusion_path|].
    destruct (fusion_elem _ _ _ _ _ _ _ Hf Hd) as (doc & x & -> & _ & _).
    destruct (fused_fields doc x) as (_ & _ & -> & ->). eauto.
Qed.

End HybridClaims.

Section FusionClaim.
Import Spec UEH Examples.
Local Open Scope R_scope.

Implicit Types (self : KnowledgeBase) (doc stored d : Doc) (query : string).

Lemma text_scores_keys (T : list Doc) :
  (imap (λ i doc, (doc_key doc, 1 / INR (i + 1))) T).*1 = doc_key <$> T.
Proof.
  rewrite fmap_imap. apply (imap_const doc_key).
Qed.

Lemma vector_scores_keys (V : list Doc) :
  (map (λ doc : Doc,
          (doc_key doc, default (VNum 0) (doc !! "similarity_score"))) V).*1
  = doc_key <$> V.
Proof.
  induction V as [|y V IH]; simpl; [done|]. f_equal. exact IH.
Qed.

Lemma text_scores_spec (T : list Doc) (text_scores : pydict R) (k : pyval) :
  NoDup (doc_key <$> T) →
  dict_comprehension (imap (λ i doc, (doc_key doc, 1 / INR (i + 1))) T)
  = Returned text_scores →
  lexical_component T k (default 0 (dict_get k text_scores)).
Proof.
  intros Hnd Hts. unfold dict_comprehension in Hts. split.
  - intros i x Hi Hk.
    rewrite (dict_comprehension_from_get _ _ _ k (1 / INR (i + 1)) Hts); [done| |].
    + by rewrite text_scores_keys.
    + rewrite <- Hk.
      apply (elem_of_lookup_imap_2
               (λ i doc, (doc_key doc, 1 / INR (i + 1))) T x i Hi).
  - intros Hnone.
    rewrite (dict_comprehension_from_other _ _ _ k Hts); [done|].
    rewrite text_scores_keys. intros (x & -> & Hx)%list_elem_of_fmap.
    by apply (Hnone x).
Qed.

Lemma vector_scores_spec (V : list Doc) (vector_scores : pydict pyval)
    (k : pyval) (v : R) :
  NoDup (doc_key <$> V) →
  dict_comprehension
    (map (λ doc : Doc,
            (doc_key doc, default (VNum 0) (doc !! "similarity_score"))) V)
  = Returned vector_scores →
  default (VNum 0) (dict_get k vector_scores) = VNum v →
  vector_component V k v.
Proof.
  intros Hnd Hvs Hv. unfold dict_comprehension in Hvs. split.
  - intros y Hy Hk.
    rewrite (dict_comprehension_from_get _ _ _ k
               (default (VNum 0) (y !! "similarity_score")) Hvs) in Hv.
    + exact Hv.
    + by rewrite vector_scores_keys.
    + apply list_elem_of_fmap. exists y. by rewrite Hk.
  - intros Hnone.
    rewrite (dict_comprehension_from_other _ _ _ k Hvs) in Hv.
    + simpl in Hv. by injection Hv as <-.
    + rewrite vector_scores_keys. intros (y & -> & Hy)%list_elem_of_fmap.
      by apply (Hnone y).
Qed.

Lemma vector_search_keys self query (limit : Z) (threshold : R)
    (V : list Doc) :
  NoDup (doc_key <$> documents (collection self)) →
  vector_search self query limit threshold = Returned V →
  NoDup (doc_key <$> V).
Proof.
  intros Hnd.
  destruct (vector_search_cases self query limit threshold)
    as [->|(qe & _ & _ & ->)].
  - by apply full_text_search_keys.
  - intros [= <-]. by apply vector_path_keys.
Qed.

(** C1: let the stored documents have pairwise distinct keys, vector search
    be enabled, and the body of [hybrid_search] run without exception.  With [T] the text results and [V] the
    vector results, every returned document has
    [combined_score = text_weight * t + vector_weight * v], where [t] is
    [1/(i+1)] if the document is at position [i] of [T] and 0 if it is not in
    [T], and [v] is its similarity score in [V] and 0 if it is not in [V]; the
    returned list is in descending order of [combined_score] and, for a limit
    that is not negative, has at most [limit] elements.  When a query embedding is obtained and the scan does
    not raise, the similarity score of a document of [V] is its cosine
    similarity to the query embedding.  With weights 0.3 and 0.7, a returned
    document that is first in [T] and absent from [V] has score 0.3. *)
Theorem hybrid_search_fusion_scores self query (limit : Z)
    (text_weight vector_weight : R) (l : list Doc) :
  NoDup (doc_key <$> documents (collection self)) →
  enable_vector_search self = true →
  fusion self query limit text_weight vector_weight = Returned l →
  ∃ T V : list Doc,
    full_text_search self query (limit * 2) = Returned T
    ∧ vector_search self query (limit * 2) 0.3 = Returned V
    ∧ hybrid_search self query limit text_weight vector_weight = Returned l
    ∧ (∀ d, d ∈ l →
         ∃ t v : R,
           lexical_component T (doc_key d) t
           ∧ vector_component V (doc_key d) v
           ∧ d !! "combined_score"
             = Some (VNum (text_weight * t + vector_weight * v)))
    ∧ descending (num_field "combined_score") l
    ∧ ((0 <= limit)%Z → (Z.of_nat (length l) <= limit)%Z)
    ∧ (∀ qe, generate_embedding self query = Some qe →
             scan_error (collection self) = None →
             ∀ y, y ∈ V →
               ∃ stored stored_emb,
                 stored ∈ documents (collection self)
                 ∧ stored !! "embedding" = Some stored_emb
                 ∧ doc_key y = doc_key stored
                 ∧ y !! "similarity_score"
                   = Some (VNum (similarity_to qe stored_emb)))
    ∧ (text_weight = 0.3 → vector_weight = 0.7 →
       ∀ d x, d ∈ l → T !! 0%nat = Some x → doc_key x = doc_key d →
              (∀ y, y ∈ V → doc_key y ≠ doc_key d) →
              d !! "combined_score" = Some (VNum 0.3)).
Proof.
  intros Hnd Hen Hf.
  destruct (fusion_inv _ _ _ _ _ _ Hf)
    as (T & V & ts & vs & cr & HT & HV & Hts & Hvs & -> & Hcr).
  pose proof (full_text_search_keys _ _ _ _ Hnd HT) as HndT.
  pose proof (vector_search_keys _ _ _ _ _ Hnd HV) as HndV.
  assert (Hscore : ∀ d,
            d ∈ slice_to limit (sort_reverse (num_field "combined_score") cr) →
            ∃ t v : R,
              lexical_component T (doc_key d) t
              ∧ vector_component V (doc_key d) v
              ∧ d !! "combined_score"
                = Some (VNum (text_weight * t + vector_weight * v))).
  { intros d Hd. apply slice_to_subseteq in Hd.
    rewrite sort_reverse_perm in Hd.
    destruct (Hcr d Hd) as (doc & v & _ & Hv & ->).
    rewrite doc_key_fused.
    exists (default 0 (dict_get (doc_key doc) ts)), v.
    split; [by apply text_scores_spec|].
    split; [by apply (vector_scores_spec V vs)|]. apply fused_fields. }
  exists T, V. split; [done|]. split; [done|].
  split; [by apply hybrid_search_fusion_path|].
  split; [done|].
  split; [apply descending_slice_to, sort_reverse_descending|].
  split; [apply slice_to_length|]. split.
  - intros qe Hemb Hscan y Hy.
    rewrite (vector_search_vector_path _ _ _ _ qe Hen Hemb Hscan) in HV.
    injection HV as <-.
    apply vector_search_elem in Hy; [|exact query].
    apply scored_elem in Hy as (stored & e & Hin & He & _ & _ & ->).
    exists stored, e.
    destruct (scored_doc_fields stored (similarity_to qe e))
      as (_ & _ & Hsim & _ & Hkey).
    by repeat split.
  - intros -> -> d x Hd Hx Hkey Habsent.
    destruct (Hscore d Hd) as (t & v & [Ht _] & [_ Hv0] & ->).
    rewrite (Ht 0%nat x Hx Hkey), (Hv0 Habsent). do 2 f_equal. simpl. lra.
Qed.

(** The searches on [kb_pa]: both pages match the text query, with equal
    scores, so they come in scan order; only [doc_a] has an embedding. *)
Example full_text_search_pa :
  full_text_search kb_pa "tuyen sinh" (10 * 2) = Returned [text_plain; text_a].
Proof.
  rewrite full_text_search_total.
  change (find_text (collection kb_pa) "tuyen sinh" (10 * 2))
    with (Returned
            (cursor_limit (10 * 2)
               (sort_reverse (num_field "score")
                  [<["score" := VNum 1]> doc_plain;
                   <["score" := VNum 1]> doc_a]))).
  rewrite sort_reverse_sorted_id.
  - vm_compute. reflexivity.
  - constructor; [constructor; constructor|].
    constructor; [|constructor]. rewrite !num_field_insert. lra.
Qed.

Example vector_search_pa :
  vector_search kb_pa "tuyen sinh" (10 * 2) 0.3 = Returned [vec_a].
Proof.
  assert (Hcos : cosine_similarity [1; 0] [1; 0] = 1)
    by apply cosine_similarity_self, norm_example.
  rewrite (vector_search_vector_path _ _ _ _ [1; 0]) by reflexivity.
  unfold scored, scanned.
  replace (filter (λ doc : Doc, is_Some (doc !! "embedding"))
             (documents (collection kb_pa)))
    with [doc_a] by (vm_compute; reflexivity).
  simpl omap. unfold score_document.
  replace (doc_a !! "embedding") with (Some (VVec [1; 0])) by reflexivity.
  simpl. rewrite Hcos. destruct (Rle_dec 0.3 1); [|lra].
  reflexivity.
Qed.

(** The page with an embedding is second in the text results and has
    similarity 1: it scores 0.3/2 + 0.7 and comes first.  The page without
    embedding is first in the text results and absent from the vector
    results: it scores 0.3. *)
Example fusion_pa :
  fusion kb_pa "tuyen sinh" 10 0.3 0.7 = Returned [fused_a; fused_p].
Proof.
  unfold fusion. rewrite full_text_search_pa, vector_search_pa.
  unfold bind at 1.
  replace (dict_comprehension
             (imap (λ (i : nat) (doc : Doc), (doc_key doc, 1 / INR (i + 1)))
                [text_plain; text_a]))
    with (Returned [(VStr "https://x/p", 1 / INR (0 + 1));
                    (VStr "https://x/a", 1 / INR (1 + 1))])
    by (vm_compute; reflexivity).
  unfold bind at 1. unfold bind at 1.
  replace (dict_comprehension
             (map (λ doc : Doc,
                     (doc_key doc, default (VNum 0) (doc !! "similarity_score")))
                  [vec_a]))
    with (Returned [(VStr "https://x/a", VNum 1)]) by (vm_compute; reflexivity).
  unfold bind at 1.
  replace (dict_comprehension
             (map (λ doc : Doc, (doc_key doc, doc))
                  ([text_plain; text_a] ++ [vec_a])%list))
    with (Returned [(VStr "https://x/p", text_plain);
                    (VStr "https://x/a", vec_a)])
    by (vm_compute; reflexivity).
  unfold bind at 1.
  match goal with
  | |- bind ?loop _ = _ =>
      replace loop with (Returned [fused_p; fused_a])
        by (vm_compute; reflexivity)
  end.
  unfold bind at 1. f_equal.
  unfold sort_reverse. simpl foldr.
  destruct (Rlt_dec _ _) as [_|Hn]; [reflexivity|].
  exfalso. apply Hn. unfold num_field, fused_p, fused_a.
  rewrite !lookup_delete_ne, !lookup_insert_eq by done.
  replace (INR (1 + 1)) with 2 by (simpl; lra).
  replace (INR (0 + 1)) with 1 by (simpl; lra). lra.
Qed.

Lemma hybrid_search_fusion_scores_witness :
  hybrid_search kb_pa "tuyen sinh" 10 0.3 0.7 = Returned [fused_a; fused_p]
  ∧ fused_p !! "combined_score" = Some (VNum 0.3).
Proof.
  destruct (hybrid_search_fusion_scores kb_pa "tuyen sinh" 10 0.3 0.7
              [fused_a; fused_p])
    as (T & V & HT & HV & Hh & _ & _ & _ & _ & Hrank0).
  - change (NoDup [VStr "https://x/p"; VStr "https://x/a"]).
    constructor; [|constructor; [|constructor]].
    + intros H%list_elem_of_singleton. discriminate H.
    + intros H. by apply elem_of_nil in H.
  - reflexivity.
  - apply fusion_pa.
  - split; [exact Hh|].
    rewrite full_text_search_pa in HT. injection HT as <-.
    rewrite vector_search_pa in HV. injection HV as <-.
    apply (Hrank0 eq_refl eq_refl fused_p text_plain).
    + apply list_elem_of_further, list_elem_of_here.
    + reflexivity.
    + reflexivity.
    + intros y Hy%list_elem_of_singleton. subst y. discriminate.
Defined.

(** [doc_a] is stored with an ['_id'] and an ['embedding'], matches the text
    query and is scored by the vector search: what each of the three
    searches returns for it has neither field, and what [hybrid_search]
    returns has no ['similarity_score'] but a ['combined_score']. *)
Lemma search_results_hide_internal_fields_witness :
  doc_a ∈ documents (collection kb_pa)
  ∧ is_Some (doc_a !! "_id") ∧ is_Some (doc_a !! "embedding")
  ∧ full_text_search kb_pa "tuyen sinh" (10 * 2) = Returned [text_plain; text_a]
  ∧ text_a !! "_id" = None ∧ text_a !! "embedding" = None
  ∧ vector_search kb_pa "tuyen sinh" (10 * 2) 0.3 = Returned [vec_a]
  ∧ vec_a !! "_id" = None ∧ vec_a !! "embedding" = None
  ∧ is_Some (vec_a !! "similarity_score")
  ∧ hybrid_search kb_pa "tuyen sinh" 10 0.3 0.7 = Returned [fused_a; fused_p]
  ∧ fused_a !! "_id" = None ∧ fused_a !! "embedding" = None
  ∧ fused_a !! "similarity_score" = None
  ∧ is_Some (fused_a !! "combined_score").
Proof.
  destruct (search_results_hide_internal_fields kb_pa "tuyen sinh" (10 * 2)
              0.3 0.3 0.7 [text_plain; text_a] text_a)
    as (Htext & _).
  { apply list_elem_of_further, list_elem_of_here. }
  destruct (search_results_hide_internal_fields kb_pa "tuyen sinh" (10 * 2)
              0.3 0.3 0.7 [vec_a] vec_a)
    as (_ & Hvec & _).
  { apply list_elem_of_here. }
  destruct (search_results_hide_internal_fields kb_pa "tuyen sinh" 10
              0.3 0.3 0.7 [fused_a; fused_p] fused_a)
    as (_ & _ & Hhyb & Hfus).
  { apply list_elem_of_here. }
  destruct (Hfus eq_refl fusion_pa) as (Hh & Hsim & Hcomb).
  destruct (Htext full_text_search_pa) as [Ht1 Ht2].
  destruct (Hvec vector_search_pa) as [Hv1 Hv2].
  destruct (Hhyb Hh) as [Hf1 Hf2].
  split; [apply list_elem_of_further, list_elem_of_here|].
  split; [by eexists|]. split; [by eexists|].
  split; [exact full_text_search_pa|]. split; [exact Ht1|]. split; [exact Ht2|].
  split; [exact vector_search_pa|]. split; [exact Hv1|]. split; [exact Hv2|].
  split; [by eexists|].
  split; [exact Hh|]. split; [exact Hf1|]. split; [exact Hf2|].
  split; [exact Hsim|exact Hcomb].
Defined.

End FusionClaim.

(** ** The response cache of [GoogleSearchAgent.chat] *)

Section ResponseCache.
Import Agent Examples.

Context `{unicode : !Unicode}.

Implicit Types (agent : string → outcome AgentResult)
  (cache : gmap string (option string)) (message : string).

(** What a call of [chat] does to the cache: nothing, or one insertion of a
    new key, made only below the capacity. *)
Lemma chat_cases agent cache message :
  ∃ (r : option string) (cache' : gmap string (option string)),
    chat agent cache message = Returned (r, cache')
    ∧ (cache' = cache
       ∨ (size cache < RESPONSE_CACHE_MAX_SIZE
          ∧ cache !! strip (lower message) = None
          ∧ cache' = <[strip (lower message) := r]> cache)).
Proof.
  unfold chat.
  destruct (cache !! strip (lower message)) as [cached|] eqn:Hlk; simpl.
  { eauto. }
  destruct (agent message) as [response|e]; simpl; [|eauto].
  destruct (extract_text response) as [result_text|e]; simpl; [|eauto].
  destruct (Nat.ltb_spec (size cache) RESPONSE_CACHE_MAX_SIZE); simpl.
  - eexists _, _. split; [done|]. right. done.
  - eauto.
Qed.

Lemma chat_size agent cache message (r : option string)
    (cache' : gmap string (option string)) :
  chat agent cache message = Returned (r, cache') →
  size cache <= RESPONSE_CACHE_MAX_SIZE →
  size cache' <= RESPONSE_CACHE_MAX_SIZE.
Proof.
  intros Hc Hsize.
  destruct (chat_cases agent cache message) as (r0 & c0 & Hc0 & Hcase).
  rewrite Hc in Hc0. injection Hc0 as <- <-.
  destruct Hcase as [->|(Hlt & Hnone & ->)]; [done|].
  rewrite map_size_insert_None by done. lia.
Qed.

Lemma chat_all_size agent cache (messages : list string) :
  size cache <= RESPONSE_CACHE_MAX_SIZE →
  size (chat_all agent cache messages) <= RESPONSE_CACHE_MAX_SIZE.
Proof.
  revert cache. induction messages as [|message rest IH]; simpl; intros cache H.
  - done.
  - destruct (chat agent cache message) as [[r cache']|e] eqn:Hc.
    + apply IH. by eapply chat_size.
    + by apply IH.
Qed.

(** C3: the response cache never holds more than
    [RESPONSE_CACHE_MAX_SIZE = 100] entries, in any run of calls of [chat]
    handled one after the other from the empty cache.  A call changes the
    cache only by inserting, and only when the size is strictly below the
    capacity.  At capacity, the answer to a message that is not cached is
    still computed and returned, and the cache is left as it was. *)
Theorem response_cache_bounded agent :
  RESPONSE_CACHE_MAX_SIZE = 100
  ∧ (∀ messages : list string,
       size (chat_all agent ∅ messages) <= RESPONSE_CACHE_MAX_SIZE)
  ∧ (∀ cache message,
       ∃ (r : option string) (cache' : gmap string (option string)),
         chat agent cache message = Returned (r, cache')
         ∧ (size cache <= RESPONSE_CACHE_MAX_SIZE →
            size cache' <= RESPONSE_CACHE_MAX_SIZE)
         ∧ (cache' ≠ cache →
            size cache < RESPONSE_CACHE_MAX_SIZE
            ∧ cache' = <[strip (lower message) := r]> cache))
  ∧ (∀ cache message (response : AgentResult) (result_text : option string),
       size cache = RESPONSE_CACHE_MAX_SIZE →
       cache !! strip (lower message) = None →
       agent message = Returned response →
       extract_text response = Returned result_text →
       chat agent cache message = Returned (result_text, cache)).
Proof.
  split; [reflexivity|]. split; [|split].
  - intros messages. apply chat_all_size. rewrite map_size_empty. lia.
  - intros cache message.
    destruct (chat_cases agent cache message) as (r & cache' & Hc & Hcase).
    exists r, cache'. split; [done|]. split.
    + by eapply chat_size.
    + intros Hne. destruct Hcase as [?|(? & _ & ?)]; done.
  - intros cache message response result_text Hsize Hmiss Hagent Htext.
    unfold chat. rewrite Hmiss, Hagent. simpl. rewrite Htext. simpl.
    rewrite Hsize, Nat.ltb_irrefl. done.
Qed.

End ResponseCache.

Section ResponseCacheExamples.
Import Agent Examples.

#[local] Existing Instance ascii_text.

Lemma response_cache_bounded_witness :
  chat agent_const full_cache "What is NEW at UIT?"
  = Returned (Some "UIT co 5 phuong thuc.", full_cache)
  ∧ size full_cache = 100.
Proof.
  assert (Hsize : size full_cache = 100) by (vm_compute; reflexivity).
  split; [|exact Hsize].
  destruct (response_cache_bounded agent_const) as (_ & _ & _ & Hfull).
  apply (Hfull full_cache "What is NEW at UIT?" answer).
  - exact Hsize.
  - vm_compute. reflexivity.
  - reflexivity.
  - reflexivity.
Defined.

End ResponseCacheExamples.

(** ** The query cache of [search_uit_knowledge] *)

Section QueryCache.
Import Spec Agent Examples.

Context `{unicode : !Unicode}.

Variable float_repr : R → string.

Implicit Types (cache : gmap string CacheEntry) (query : string)
  (kb : Collection).

Lemma append_nonempty (s1 s2 : string) : s1 ≠ EmptyString → s1 ++ s2 ≠ EmptyString.
Proof. destruct s1; [done|]. intros _. discriminate. Qed.

Lemma format_from_nonempty (i : nat) (response : string) (results : list Doc)
    (text : string) :
  format_from float_repr i response results = Returned text →
  response ≠ EmptyString → text ≠ EmptyString.
Proof.
  revert i response. induction results as [|item rest IH]; simpl; intros i response.
  - by intros [= <-].
  - destruct (format_item float_repr i item) as [piece|]; simpl; [|discriminate].
    intros H Hne. eapply IH; [exact H|]. by apply append_nonempty.
Qed.

Lemma format_results_nonempty (results : list Doc) (text : string) :
  format_results float_repr results = Returned text → text ≠ EmptyString.
Proof.
  intros H. eapply format_from_nonempty; [exact H|]. discriminate.
Qed.

Lemma uit_full_text_search_total kb query (limit : Z) :
  ∃ results, UIT.full_text_search kb query limit = Returned results.
Proof.
  unfold UIT.full_text_search. destruct (find_text kb query limit); simpl; eauto.
Qed.

(** A lookup that finds an entry in its time to live answers from it. *)
Lemma search_uit_knowledge_hit kb cache (now later : Z) query
    (entry : CacheEntry) :
  cache !! cache_key_of_query query = Some entry →
  fresh now entry = true →
  search_uit_knowledge float_repr (Some kb) cache now later query
  = Returned (result entry, cache).
Proof. intros Hlk Hfresh. unfold search_uit_knowledge. by rewrite Hlk, Hfresh. Qed.

(** A lookup that misses runs the search. *)
Lemma search_uit_knowledge_miss kb cache (now later : Z) query :
  cache_miss cache now query →
  search_uit_knowledge float_repr (Some kb) cache now later query
  = match UIT.full_text_search kb query 3 with
    | Returned [] =>
        Returned
          ("No information found in UIT knowledge base for: " ++ query
           ++ ". Please search online for the latest information.", cache)
    | Returned results =>
        match format_results float_repr results with
        | Returned response =>
            Returned
              (response,
               <[cache_key_of_query query :=
                   {| result := response; timestamp := later |}]> cache)
        | Raised e =>
            Returned
              ("Error searching knowledge base: " ++ exn_str e
               ++ ". Please try online search.", cache)
        end
    | Raised e =>
        Returned
          ("Error searching knowledge base: " ++ exn_str e
           ++ ". Please try online search.", cache)
    end.
Proof.
  intros Hmiss. unfold search_uit_knowledge.
  assert (Hbody : ∀ X : outcome (string * gmap string CacheEntry),
            match cache !! cache_key_of_query query with
            | Some cached_data =>
                if fresh now cached_data
                then Returned (result cached_data, cache) else X
            | None => X
            end = X).
  { intros X. destruct (cache !! cache_key_of_query query) as [entry|] eqn:Hlk;
      [|done]. by rewrite (Hmiss entry). }
  rewrite Hbody.
  destruct (UIT.full_text_search kb query 3) as [[|item rest]|e]; simpl; try done.
  by destruct (format_results float_repr (item :: rest)).
Qed.

Lemma search_uit_knowledge_cases (uit_kb : option Collection) cache
    (now later : Z) query :
  ∃ (text : string) (cache' : gmap string CacheEntry),
    search_uit_knowledge float_repr uit_kb cache now later query
    = Returned (text, cache')
    ∧ (cache' = cache
       ∨ ∃ kb (results : list Doc),
           uit_kb = Some kb
           ∧ UIT.full_text_search kb query 3 = Returned results
           ∧ results ≠ []
           ∧ format_results float_repr results = Returned text
           ∧ text ≠ EmptyString
           ∧ cache' = <[cache_key_of_query query :=
                          {| result := text; timestamp := later |}]> cache).
Proof.
  destruct uit_kb as [kb|]; [|simpl; eauto].
  destruct (cache !! cache_key_of_query query) as [entry|] eqn:Hlk.
  - destruct (fresh now entry) eqn:Hfresh.
    + rewrite (search_uit_knowledge_hit _ _ _ _ _ entry) by done. eauto.
    + rewrite search_uit_knowledge_miss
        by (intros e He; rewrite Hlk in He; by injection He as <-).
      destruct (UIT.full_text_search kb query 3) as [[|item rest]|e] eqn:Hs;
        [eauto| |eauto].
      destruct (format_results float_repr (item :: rest)) as [text|e] eqn:Hf;
        [|eauto].
      eexists _, _. split; [done|]. right. exists kb, (item :: rest).
      repeat split; try done. by eapply format_results_nonempty.
  - rewrite search_uit_knowledge_miss
      by (intros e He; rewrite Hlk in He; discriminate).
    destruct (UIT.full_text_search kb query 3) as [[|item rest]|e] eqn:Hs;
      [eauto| |eauto].
    destruct (format_results float_repr (item :: rest)) as [text|e] eqn:Hf;
      [|eauto].
    eexists _, _. split; [done|]. right. exists kb, (item :: rest).
    repeat split; try done. by eapply format_results_nonempty.
Qed.

Lemma search_all_payloads cache
    (calls : list (option Collection * Z * Z * string)) :
  (∀ k entry, cache !! k = Some entry → result entry ≠ EmptyString) →
  ∀ k entry, search_all float_repr cache calls !! k = Some entry →
             result entry ≠ EmptyString.
Proof.
  revert cache.
  induction calls as [|[[[uit_kb now] later] query] rest IH]; simpl;
    intros cache Hinv; [done|].
  destruct (search_uit_knowledge_cases uit_kb cache now later query)
    as (text & cache' & -> & Hcase).
  apply IH. destruct Hcase as [->|(kb & results & _ & _ & _ & _ & Hne & ->)];
    [done|].
  intros k entry Hk. apply lookup_insert_Some in Hk as [[_ <-]|[_ Hk]].
  - done.
  - by eapply Hinv.
Qed.

(** C9: [search_uit_knowledge] changes [QUERY_CACHE] only by writing, under
    the key of the query, the text formatted from a search that returned at
    least one document.  When the search returns nothing the
    "No information found" message is returned and the cache is left as it
    was; when the search or the formatting raises the error message is
    returned and the cache is left as it was.  So every entry stored in a run from the empty cache
    holds a payload that is not empty. *)
Theorem query_cache_written_only_with_results :
  (∀ (uit_kb : option Collection) cache (now later : Z) query,
     ∃ (text : string) (cache' : gmap string CacheEntry),
       search_uit_knowledge float_repr uit_kb cache now later query
       = Returned (text, cache')
       ∧ (cache' = cache
          ∨ ∃ kb (results : list Doc),
              uit_kb = Some kb
              ∧ UIT.full_text_search kb query 3 = Returned results
              ∧ results ≠ []
              ∧ format_results float_repr results = Returned text
              ∧ text ≠ EmptyString
              ∧ cache' = <[cache_key_of_query query :=
                             {| result := text; timestamp := later |}]> cache))
  ∧ (∀ kb cache (now later : Z) query,
       cache_miss cache now query →
       UIT.full_text_search kb query 3 = Returned [] →
       search_uit_knowledge float_repr (Some kb) cache now later query
       = Returned
           ("No information found in UIT knowledge base for: " ++ query
            ++ ". Please search online for the latest information.", cache))
  ∧ (∀ kb cache (now later : Z) query (results : list Doc) (e : exn),
       cache_miss cache now query →
       UIT.full_text_search kb query 3 = Returned results →
       format_results float_repr results = Raised e →
       search_uit_knowledge float_repr (Some kb) cache now later query
       = Returned
           ("Error searching knowledge base: " ++ exn_str e
            ++ ". Please try online search.", cache))
  ∧ (∀ kb cache (now later : Z) query (e : exn),
       cache_miss cache now query →
       UIT.full_text_search kb query 3 = Raised e →
       search_uit_knowledge float_repr (Some kb) cache now later query
       = Returned
           ("Error searching knowledge base: " ++ exn_str e
            ++ ". Please try online search.", cache))
  ∧ (∀ (calls : list (option Collection * Z * Z * string)) k entry,
       search_all float_repr ∅ calls !! k = Some entry →
       result entry ≠ EmptyString).
Proof.
  split; [apply search_uit_knowledge_cases|]. split; [|split; [|split]].
  - intros kb cache now later query Hmiss Hs.
    rewrite search_uit_knowledge_miss by done. by rewrite Hs.
  - intros kb cache now later query results e Hmiss Hs Hf.
    rewrite search_uit_knowledge_miss by done. rewrite Hs.
    destruct results as [|item rest]; [discriminate|]. by rewrite Hf.
  - intros kb cache now later query e Hmiss Hs.
    rewrite search_uit_knowledge_miss by done. by rewrite Hs.
  - intros calls. apply search_all_payloads. intros k entry Hk.
    by rewrite lookup_empty in Hk.
Qed.

(** C5, amended: the key of the query cache is the MD5 digest of the
    lower-cased query, with its whitespace kept.  Two queries that are equal
    after lower-casing have the same key; when the first is searched, finds
    documents and is cached, the second, looked up within the time to live,
    is answered with the entry the first wrote, and the cache is not
    touched. *)
Theorem query_cache_shared_after_lowercase kb cache
    (now1 later1 now2 later2 : Z) (q1 q2 : string) (results : list Doc)
    (response : string) :
  lower q1 = lower q2 →
  cache_miss cache now1 q1 →
  UIT.full_text_search kb q1 3 = Returned results → results ≠ [] →
  format_results float_repr results = Returned response →
  (now2 - later1 < CACHE_TTL * 1000000)%Z →
  let cache1 :=
    <[cache_key_of_query q1 := {| result := response; timestamp := later1 |}]>
      cache in
  cache_key_of_query q1 = cache_key_of_query q2
  ∧ search_uit_knowledge float_repr (Some kb) cache now1 later1 q1
    = Returned (response, cache1)
  ∧ search_uit_knowledge float_repr (Some kb) cache1 now2 later2 q2
    = Returned (response, cache1).
Proof.
  intros Hlower Hmiss Hs Hne Hf Httl cache1.
  assert (Hkey : cache_key_of_query q1 = cache_key_of_query q2)
    by (unfold cache_key_of_query; by rewrite Hlower).
  split; [done|]. split.
  - rewrite search_uit_knowledge_miss by done. rewrite Hs.
    destruct results as [|item rest]; [done|]. by rewrite Hf.
  - apply (search_uit_knowledge_hit kb cache1 now2 later2 q2
             {| result := response; timestamp := later1 |}).
    + rewrite <- Hkey. apply lookup_insert_eq.
    + unfold fresh. simpl. by apply Z.ltb_lt.
Qed.

End QueryCache.

Section QueryCacheExamples.
Import Spec Agent Examples.

#[local] Existing Instance ascii_text.

(** C5 as stated fails: the two queries are equal after lower-casing and
    trimming, but the trailing space is part of what is hashed, so their
    keys differ. *)
Lemma query_cache_key_keeps_whitespace :
  strip (lower "uit") = strip (lower "uit ")
  ∧ cache_key_of_query "uit" = "91b40cd81fb2a51014aa79bcac852a5b"
  ∧ cache_key_of_query "uit " = "dd61c713ce6c87240adf0ad37322c6ba"
  ∧ cache_key_of_query "uit" ≠ cache_key_of_query "uit ".
Proof.
  assert (H1 : cache_key_of_query "uit" = "91b40cd81fb2a51014aa79bcac852a5b")
    by (vm_compute; reflexivity).
  assert (H2 : cache_key_of_query "uit " = "dd61c713ce6c87240adf0ad37322c6ba")
    by (vm_compute; reflexivity).
  split; [vm_compute; reflexivity|]. split; [done|]. split; [done|].
  rewrite H1, H2. discriminate.
Qed.

Lemma query_cache_shared_after_lowercase_witness :
  let cache1 : gmap string CacheEntry :=
    {[ cache_key_of_query "UIT" :=
         {| result := uit_response; timestamp := 10 |} ]} in
  cache_key_of_query "UIT" = cache_key_of_query "uit"
  ∧ search_uit_knowledge repr_any (Some uit_collection) ∅ 0 10 "UIT"
    = Returned (uit_response, cache1)
  ∧ search_uit_knowledge repr_any (Some uit_collection) cache1 20 30 "uit"
    = Returned (uit_response, cache1).
Proof.
  apply (query_cache_shared_after_lowercase repr_any uit_collection ∅
           0 10 20 30 "UIT" "uit" [delete "_id" doc_uit] uit_response).
  - vm_compute. reflexivity.
  - intros entry H. by rewrite lookup_empty in H.
  - vm_compute. reflexivity.
  - discriminate.
  - vm_compute. reflexivity.
  - vm_compute. reflexivity.
Defined.

Lemma query_cache_written_only_with_results_witness :
  search_uit_knowledge repr_any
    (Some (collection_of [doc_uit] (Some match_none))) ∅ 0 10 "hoc phi"
  = Returned
      ("No information found in UIT knowledge base for: hoc phi"
       ++ ". Please search online for the latest information.", ∅).
Proof.
  apply (query_cache_written_only_with_results repr_any).
  - intros entry H. by rewrite lookup_empty in H.
  - vm_compute. reflexivity.
Defined.

End QueryCacheExamples.

(* ===================================================================== *)
(** * Further properties of the code around the claims *)
(* ===================================================================== *)

(** ** Characters, lengths and slices of strings *)

Section Characters.

Lemma string_app_nil_r (s : string) : s ++ EmptyString = s.
Proof.
  induction s as [|c s IH]; [done|].
  change (String c (s ++ EmptyString) = String c s). by rewrite IH.
Qed.

Lemma string_app_assoc (a b c : string) : (a ++ b) ++ c = a ++ (b ++ c).
Proof.
  induction a as [|x a IH]; [done|].
  change (String x ((a ++ b) ++ c) = String x (a ++ (b ++ c))). by rewrite IH.
Qed.

Lemma concat_empty_cons (x : string) (xs : list string) :
  String.concat EmptyString (x :: xs) = x ++ String.concat EmptyString xs.
Proof. destruct xs as [|y ys]; simpl; [by rewrite string_app_nil_r|done]. Qed.

Lemma concat_empty_app (xs ys : list string) :
  String.concat EmptyString (xs ++ ys)%list
  = String.concat EmptyString xs ++ String.concat EmptyString ys.
Proof.
  induction xs as [|x xs IH]; [done|].
  change ((x :: xs) ++ ys)%list with (x :: (xs ++ ys))%list.
  rewrite !concat_empty_cons, IH. by rewrite string_app_assoc.
Qed.

Lemma chars_head (c : ascii) (s : string) :
  ∃ t rest, chars (String c s) = String c t :: rest.
Proof.
  simpl. destruct (continues s); [|eauto].
  destruct (chars s) as [|g rest]; eauto.
Qed.

(** The characters make up the text. *)
Lemma chars_concat (s : string) : String.concat EmptyString (chars s) = s.
Proof.
  induction s as [|c s IH]; [done|]. simpl.
  destruct (continues s) eqn:Hc.
  - destruct s as [|b s']; [done|].
    destruct (chars_head b s') as (t & rest & Hch). rewrite Hch in IH |- *.
    rewrite concat_empty_cons in IH |- *.
    change (String c (String b t ++ String.concat EmptyString rest)
            = String c (String b s')). by rewrite IH.
  - rewrite concat_empty_cons.
    change (String c (String.concat EmptyString (chars s)) = String c s).
    by rewrite IH.
Qed.

(** Each is a character, and each but the first starts a character. *)
Lemma chars_wf (s : string) :
  Forall is_char (chars s)
  ∧ Forall (λ g, continues g = false) (tail (chars s)).
Proof.
  induction s as [|c s [IH1 IH2]]; [by split|]. simpl.
  destruct (continues s) eqn:Hc.
  - destruct s as [|b s']; [done|].
    destruct (chars_head b s') as (t & rest & Hch). rewrite Hch in IH1, IH2 |- *.
    apply Forall_cons in IH1 as [Hg Hrest]. simpl in *.
    split; [|done]. apply Forall_cons. split; [|done].
    simpl. by rewrite Hc, Hg.
  - split; [by apply Forall_cons|]. simpl.
    destruct s as [|b s']; [done|].
    destruct (chars_head b s') as (t & rest & Hch). rewrite Hch in IH2 |- *.
    apply Forall_cons. split; [exact Hc|exact IH2].
Qed.

Lemma chars_app_char (g rest : string) :
  is_char g → continues rest = false → chars (g ++ rest) = g :: chars rest.
Proof.
  destruct g as [|c t]; [done|]. cbn [is_char]. revert c.
  induction t as [|b t IH]; intros c Hok Hrest.
  - change (String c EmptyString ++ rest) with (String c rest).
    cbn [chars]. by rewrite Hrest.
  - cbn [all_continue] in Hok. apply andb_true_iff in Hok as [Hb Ht].
    change (String c (String b t) ++ rest) with (String c (String b t ++ rest)).
    cbn [chars]. rewrite (IH b Ht Hrest).
    change (String b t ++ rest) with (String b (t ++ rest)).
    cbn [continues]. by rewrite Hb.
Qed.

Lemma chars_of_concat (l : list string) :
  Forall is_char l → Forall (λ g, continues g = false) (tail l) →
  chars (String.concat EmptyString l) = l.
Proof.
  induction l as [|g l IH]; [done|]. intros Hok Htail.
  apply Forall_cons in Hok as [Hg Hl]. simpl in Htail.
  rewrite concat_empty_cons, chars_app_char; [|done|].
  - f_equal. apply IH; [done|]. destruct l; [done|].
    by apply Forall_cons in Htail as [_ ?].
  - destruct l as [|g' l']; [done|].
    apply Forall_cons in Htail as [Hg' _]. apply Forall_cons in Hl as [Hok' _].
    rewrite concat_empty_cons. destruct g' as [|c t]; [done|]. exact Hg'.
Qed.

Lemma tail_drop {A} (i : nat) (l : list A) : tail (drop i l) = drop (S i) l.
Proof.
  revert l. induction i as [|i IH]; intros [|x l]; simpl; auto.
Qed.

(** A slice holds the characters it was cut from. *)
Lemma chars_str_slice (i j : nat) (s : string) :
  chars (str_slice i j s) = take (j - i) (drop i (chars s)).
Proof.
  destruct (chars_wf s) as [Hok Htail]. unfold str_slice.
  apply chars_of_concat.
  - by apply Forall_take, Forall_drop.
  - destruct (j - i) as [|n]; [done|].
    destruct (drop i (chars s)) as [|g l] eqn:Hd; [done|]. simpl.
    apply Forall_take.
    assert (Hl : l = drop (S i) (chars s)).
    { by rewrite <- tail_drop, Hd. }
    rewrite Hl. destruct (chars s) as [|g0 l0]; [done|]. simpl in *.
    by apply Forall_drop.
Qed.

Lemma str_len_slice (i j : nat) (s : string) :
  str_len (str_slice i j s) = Nat.min (j - i) (str_len s - i).
Proof.
  unfold str_len. by rewrite chars_str_slice, length_take, length_drop.
Qed.

Lemma str_slice_to_all (n : nat) (s : string) :
  str_len s <= n → str_slice_to n s = s.
Proof.
  intros H. unfold str_slice_to, str_slice. rewrite Nat.sub_0_r, drop_0.
  rewrite take_ge by exact H. apply chars_concat.
Qed.

Lemma str_len_slice_to (n : nat) (s : string) : str_len (str_slice_to n s) <= n.
Proof. unfold str_slice_to. rewrite str_len_slice. lia. Qed.

Lemma str_len_empty (s : string) : str_len s = 0 ↔ s = EmptyString.
Proof.
  split; [|by intros ->]. destruct s as [|c s]; [done|].
  destruct (chars_head c s) as (t & rest & H). unfold str_len. by rewrite H.
Qed.

End Characters.

(** ** The vector search *)

Section MoreVectorSearch.
Import Spec UEH Examples More.
Local Open Scope R_scope.

Implicit Types (self : KnowledgeBase) (doc stored d : Doc) (query : string).

Lemma hybrid_search_cases self query (limit : Z) (tw vw : R) :
  hybrid_search self query limit tw vw = full_text_search self query limit
  ∨ (enable_vector_search self = true
     ∧ ∃ l, fusion self query limit tw vw = Returned l
            ∧ hybrid_search self query limit tw vw = Returned l).
Proof.
  unfold hybrid_search. destruct (enable_vector_search self); [|by left].
  destruct (fusion self query limit tw vw) as [l|e] eqn:Hf; simpl.
  - right. eauto.
  - by left.
Qed.

(** X2: whatever the store and the embedding service do, errors included,
    [vector_search] and [hybrid_search] return a list and raise nothing;
    with vector search switched off both are [full_text_search]. *)
Theorem searches_never_raise self query (limit : Z) (threshold tw vw : R) :
  (∃ docs, vector_search self query limit threshold = Returned docs)
  ∧ (∃ docs, hybrid_search self query limit tw vw = Returned docs)
  ∧ (enable_vector_search self = false →
     vector_search self query limit threshold
     = full_text_search self query limit
     ∧ hybrid_search self query limit tw vw
       = full_text_search self query limit).
Proof.
  split; [|split].
  - destruct (vector_search_cases self query limit threshold)
      as [->|(qe & _ & _ & ->)]; [|eauto].
    rewrite full_text_search_total. eauto.
  - destruct (hybrid_search_cases self query limit tw vw)
      as [->|(_ & l & _ & ->)]; [|eauto].
    rewrite full_text_search_total. eauto.
  - intros Hen. unfold vector_search, hybrid_search. by rewrite Hen.
Qed.

Lemma searches_never_raise_witness :
  vector_search kb_disabled "tuyen sinh" 10 0.5
  = full_text_search kb_disabled "tuyen sinh" 10
  ∧ hybrid_search kb_disabled "tuyen sinh" 10 0.3 0.7
    = full_text_search kb_disabled "tuyen sinh" 10.
Proof.
  apply (searches_never_raise kb_disabled "tuyen sinh" 10 0.5 0.3 0.7).
  reflexivity.
Defined.

(** X4: on the vector path, the results for a limit are the first ones of
    the results for any larger limit: asking for more documents only adds
    documents after those already returned. *)
Theorem vector_search_limit_prefix self query (n m : Z) (threshold : R)
    (qe : list R) :
  generate_embedding self query = Some qe →
  scan_error (collection self) = None →
  (0 <= n <= m)%Z →
  ∃ results_n results_m,
    vector_search self query n threshold = Returned results_n
    ∧ vector_search self query m threshold = Returned results_m
    ∧ results_n = take (Z.to_nat n) results_m.
Proof.
  intros Hemb Hscan [Hn Hm].
  pose proof (generate_embedding_enabled _ _ _ Hemb) as Hen.
  rewrite !(vector_search_vector_path _ _ _ _ qe Hen Hemb Hscan).
  eexists _, _. split; [done|]. split; [done|].
  unfold slice_to.
  destruct (Z.leb_spec 0 n); [|lia]. destruct (Z.leb_spec 0 m); [|lia].
  rewrite take_take. f_equal. lia.
Qed.

Lemma vector_search_limit_prefix_witness :
  ∃ results_n results_m,
    vector_search kb_ab "hoc phi" 1 (1 / 2) = Returned results_n
    ∧ vector_search kb_ab "hoc phi" 2 (1 / 2) = Returned results_m
    ∧ results_n = take (Z.to_nat 1) results_m.
Proof.
  apply (vector_search_limit_prefix kb_ab "hoc phi" 1 2 (1 / 2) [1; 0]).
  - apply generate_embedding_example. vm_compute. discriminate.
  - reflexivity.
  - lia.
Defined.

(** The text [generate_embedding] sends to the service. *)
Lemma generate_embedding_truncates self (text : string) :
  generate_embedding self text
  = generate_embedding self (str_slice_to (Z.to_nat max_chars) text).
Proof.
  unfold generate_embedding.
  destruct (negb (enable_vector_search self)); [done|].
  pose proof (str_len_slice_to (Z.to_nat max_chars) text) as Hle.
  assert (0 <= max_chars)%Z by (unfold max_chars; lia).
  destruct (Z.ltb_spec max_chars
              (Z.of_nat (str_len (str_slice_to (Z.to_nat max_chars) text))));
    [lia|].
  destruct (Z.ltb_spec max_chars (Z.of_nat (str_len text))); [done|].
  rewrite str_slice_to_all by lia. done.
Qed.

(** X5: [generate_embedding] looks at the first [max_chars] = 32768
    characters of the text only: two texts that agree on them get the same
    answer; the service is never sent a longer text, so what it would
    answer to one does not matter; and the answer is never an empty
    vector. *)
Theorem generate_embedding_budget self (text : string) :
  max_chars = 32768%Z
  ∧ (∀ text',
       str_slice_to (Z.to_nat max_chars) text
       = str_slice_to (Z.to_nat max_chars) text' →
       generate_embedding self text = generate_embedding self text')
  ∧ (∀ self',
       enable_vector_search self' = enable_vector_search self →
       (∀ t, (Z.of_nat (str_len t) <= max_chars)%Z →
             invoke_model self' t = invoke_model self t) →
       generate_embedding self' text = generate_embedding self text)
  ∧ generate_embedding self text ≠ Some [].
Proof.
  split; [reflexivity|]. split; [|split].
  - intros text' Heq.
    rewrite (generate_embedding_truncates self text),
      (generate_embedding_truncates self text'). by rewrite Heq.
  - intros self' Hen Hsame.
    rewrite (generate_embedding_truncates self text),
      (generate_embedding_truncates self' text).
    unfold generate_embedding. rewrite Hen.
    destruct (negb (enable_vector_search self)); [done|].
    pose proof (str_len_slice_to (Z.to_nat max_chars) text) as Hle.
    assert (0 <= max_chars)%Z by (unfold max_chars; lia).
    destruct (Z.ltb_spec max_chars
                (Z.of_nat (str_len (str_slice_to (Z.to_nat max_chars) text))));
      [lia|].
    rewrite Hsame by lia. done.
  - intros H. by apply generate_embedding_nonempty in H.
Qed.

(** A text of 40000 characters is cut before it is sent: the service that
    refuses every text of more than 32768 characters answers it. *)
Lemma generate_embedding_budget_witness :
  (max_chars < Z.of_nat (str_len long_text))%Z
  ∧ invoke_model kb_short_only long_text
    = Raised (ServiceError "ValidationException")
  ∧ generate_embedding kb_short_only long_text
    = generate_embedding kb_ab long_text
  ∧ generate_embedding kb_ab long_text = Some [1; 0].
Proof.
  split; [vm_compute; reflexivity|]. split; [vm_compute; reflexivity|]. split.
  - apply (generate_embedding_budget kb_ab long_text).
    + reflexivity.
    + intros t Ht. simpl.
      destruct (Z.ltb_spec max_chars (Z.of_nat (str_len t))); [lia|done].
  - unfold generate_embedding. simpl.
    by destruct (max_chars <? Z.of_nat (str_len long_text))%Z.
Defined.

End MoreVectorSearch.

(** ** The union of the candidates in the hybrid search *)

Section MoreDict.
Context {V : Type}.
Implicit Types (d acc : pydict V) (kvs : list (pyval * V)) (k : pyval) (v : V).

Lemma dict_set_keys_elem k v d k0 :
  k0 ∈ (dict_set k v d).*1 ↔ k0 ∈ d.*1 ∨ k0 = k.
Proof.
  induction d as [|[k1 v1] d IH]; simpl.
  - rewrite list_elem_of_singleton. split; [by right|].
    intros [H|H]; [by apply elem_of_nil in H|done].
  - destruct (pyval_eq_dec k1 k) as [->|Hne]; simpl.
    + rewrite elem_of_cons. tauto.
    + rewrite !elem_of_cons, IH. tauto.
Qed.

Lemma dict_set_keys_NoDup k v d : NoDup d.*1 → NoDup (dict_set k v d).*1.
Proof.
  induction d as [|[k1 v1] d IH]; simpl; intros Hnd.
  - apply NoDup_singleton.
  - apply NoDup_cons in Hnd as [Hk1 Hnd].
    destruct (pyval_eq_dec k1 k) as [->|Hne]; simpl.
    + by apply NoDup_cons.
    + apply NoDup_cons. split; [|by apply IH].
      rewrite dict_set_keys_elem. intros [?|?]; done.
Qed.

Lemma dict_comprehension_from_keys acc kvs d :
  dict_comprehension_from acc kvs = Returned d →
  (NoDup acc.*1 → NoDup d.*1)
  ∧ ∀ k, k ∈ d.*1 ↔ k ∈ acc.*1 ∨ k ∈ kvs.*1.
Proof.
  revert acc. induction kvs as [|[k0 v0] kvs IH]; simpl; intros acc.
  - intros [= <-]. split; [done|]. intros k. split; [by left|].
    intros [?|H]; [done|]. by apply elem_of_nil in H.
  - destruct (hashable k0); [|discriminate]. intros Hd.
    destruct (IH _ Hd) as [Hnd Hkeys]. split.
    + intros Hacc. by apply Hnd, dict_set_keys_NoDup.
    + intros k. rewrite Hkeys, dict_set_keys_elem, elem_of_cons. tauto.
Qed.

Lemma for_each_keys {B} (f : pyval * V → outcome B) (g : B → pyval)
    (l : list (pyval * V)) (ys : list B) :
  for_each f l = Returned ys →
  (∀ kv y, kv ∈ l → f kv = Returned y → g y = kv.1) →
  g <$> ys = l.*1.
Proof.
  revert ys. induction l as [|x l IH]; simpl; intros ys.
  - by intros [= <-].
  - destruct (f x) as [y0|] eqn:Hfx; simpl; [|discriminate].
    destruct (for_each f l) as [ys'|]; simpl; [|discriminate].
    intros [= <-] Hg. simpl. f_equal.
    + apply Hg; [apply list_elem_of_here|done].
    + apply IH; [done|]. intros kv y Hkv. apply Hg.
      by apply list_elem_of_further.
Qed.

End MoreDict.

Section MoreHybrid.
Import Spec UEH Examples More.
Local Open Scope R_scope.

Implicit Types (self : KnowledgeBase) (doc stored d : Doc) (query : string).

(** The keys of the fused documents are the distinct keys of the text and
    vector results, before the sort and the cut. *)
Lemma fusion_keys self query (limit : Z) (tw vw : R) (l T V : list Doc) :
  full_text_search self query (limit * 2) = Returned T →
  vector_search self query (limit * 2) 0.3 = Returned V →
  fusion self query limit tw vw = Returned l →
  ∃ combined_results : list Doc,
    l = slice_to limit
          (sort_reverse (num_field "combined_score") combined_results)
    ∧ NoDup (doc_key <$> combined_results)
    ∧ ∀ k, k ∈ doc_key <$> combined_results
           ↔ k ∈ doc_key <$> (T ++ V)%list.
Proof.
  intros HT HV. unfold fusion. rewrite HT, HV. unfold bind at 1.
  destruct (dict_comprehension (imap _ T)) as [text_scores|] eqn:Hts;
    simpl; [|discriminate].
  destruct (dict_comprehension (map _ V)) as [vector_scores|] eqn:Hvs;
    simpl; [|discriminate].
  destruct (dict_comprehension (map _ (T ++ V)%list)) as [all_docs|] eqn:Hall;
    simpl; [|discriminate].
  destruct (for_each _ all_docs) as [combined_results|] eqn:Hcomb;
    simpl; [|discriminate].
  intros [= <-]. exists combined_results. split; [done|].
  assert (Hkeys : doc_key <$> combined_results = all_docs.*1).
  { apply (for_each_keys _ doc_key _ _ Hcomb). intros [k doc] y Hin Hf.
    destruct (dict_comprehension_from_elem _ _ _ _ Hall Hin) as [Hnil|Hkv].
    { by apply elem_of_nil in Hnil. }
    apply list_elem_of_fmap in Hkv as (doc' & [= -> ->] & _).
    simpl in Hf. unfold combine in Hf.
    destruct (default (VNum 0) (dict_get (doc_key doc') vector_scores));
      simpl in Hf; try discriminate.
    injection Hf as <-. apply doc_key_fused. }
  rewrite Hkeys.
  destruct (dict_comprehension_from_keys _ _ _ Hall) as [Hnd Hmem].
  split; [apply Hnd; constructor|].
  intros k. rewrite Hmem.
  replace ((map (λ doc0 : Doc, (doc_key doc0, doc0)) (T ++ V)%list).*1)
    with (doc_key <$> (T ++ V)%list).
  - split; [intros [H|H]; [by apply elem_of_nil in H|done]|by right].
  - generalize (T ++ V)%list. intros L.
    induction L as [|x L IH]; simpl; [done|]. f_equal. exact IH.
Qed.

(** X6: the result of a fusion holds each key once, so a document found
    by both searches appears once; every returned key is the key of a text
    or of a vector result; and when the limit is at least the number of
    text and vector results, each of them has its key in the result. *)
Theorem hybrid_search_unites_candidates self query (limit : Z) (tw vw : R)
    (l T V : list Doc) :
  full_text_search self query (limit * 2) = Returned T →
  vector_search self query (limit * 2) 0.3 = Returned V →
  fusion self query limit tw vw = Returned l →
  NoDup (doc_key <$> l)
  ∧ (∀ d, d ∈ l → ∃ x, x ∈ (T ++ V)%list ∧ doc_key x = doc_key d)
  ∧ ((Z.of_nat (length T + length V) <= limit)%Z →
     ∀ x, x ∈ (T ++ V)%list → ∃ d, d ∈ l ∧ doc_key d = doc_key x).
Proof.
  intros HT HV Hf.
  destruct (fusion_keys _ _ _ _ _ _ _ _ HT HV Hf) as (cr & -> & Hnd & Hmem).
  split; [|split].
  - eapply sublist_NoDup; [|apply fmap_sublist, slice_to_sublist].
    by rewrite sort_reverse_perm.
  - intros d Hd. apply slice_to_subseteq in Hd.
    rewrite sort_reverse_perm in Hd.
    assert (Hk : doc_key d ∈ doc_key <$> cr)
      by (apply list_elem_of_fmap; eauto).
    apply Hmem, list_elem_of_fmap in Hk as (x & ? & ?). eauto.
  - intros Hlimit x Hx.
    assert (Hk : doc_key x ∈ doc_key <$> cr)
      by (apply Hmem, list_elem_of_fmap; eauto).
    apply list_elem_of_fmap in Hk as (d & Hkd & Hd).
    exists d. split; [|done].
    assert (Hlen : (length cr <= length (T ++ V)%list)%nat).
    { rewrite <- (length_fmap doc_key cr), <- (length_fmap doc_key (T ++ V)%list).
      apply submseteq_length, NoDup_submseteq; [done|].
      intros k Hk. by apply Hmem. }
    rewrite length_app in Hlen.
    unfold slice_to. destruct (Z.leb_spec 0 limit); [|lia].
    rewrite take_ge
      by (rewrite (Permutation_length (sort_reverse_perm _ _)); lia).
    by rewrite sort_reverse_perm.
Qed.

Lemma hybrid_search_unites_candidates_witness :
  NoDup (doc_key <$> [fused_a; fused_p])
  ∧ ∀ x, x ∈ ([text_plain; text_a] ++ [vec_a])%list →
         ∃ d, d ∈ [fused_a; fused_p] ∧ doc_key d = doc_key x.
Proof.
  destruct (hybrid_search_unites_candidates kb_pa "tuyen sinh" 10 0.3 0.7
              [fused_a; fused_p] [text_plain; text_a] [vec_a])
    as (Hnd & _ & Hall).
  - apply full_text_search_pa.
  - apply vector_search_pa.
  - apply fusion_pa.
  - split; [exact Hnd|]. apply Hall. simpl. lia.
Defined.

(** X7: with a limit of at least 1, the fusion returns an empty list only
    when the text search and the vector search both returned nothing. *)
Theorem hybrid_search_empty_iff self query (limit : Z) (tw vw : R)
    (l T V : list Doc) :
  (1 <= limit)%Z →
  full_text_search self query (limit * 2) = Returned T →
  vector_search self query (limit * 2) 0.3 = Returned V →
  fusion self query limit tw vw = Returned l →
  l = [] ↔ T = [] ∧ V = [].
Proof.
  intros Hlimit HT HV Hf.
  destruct (fusion_keys _ _ _ _ _ _ _ _ HT HV Hf) as (cr & -> & Hnd & Hmem).
  assert (Hcut : slice_to limit (sort_reverse (num_field "combined_score") cr)
                 = [] ↔ cr = []).
  { unfold slice_to. destruct (Z.leb_spec 0 limit); [|lia].
    destruct (Z.to_nat limit) as [|n] eqn:Hn; [lia|].
    destruct cr as [|x cr]; [done|]. split; [|done].
    intros Hnil. apply (f_equal length) in Hnil.
    rewrite length_take, (Permutation_length (sort_reverse_perm _ _)) in Hnil.
    simpl in Hnil. lia. }
  rewrite Hcut. split.
  - intros ->. destruct (T ++ V)%list as [|x L] eqn:HL.
    + by apply app_eq_nil in HL.
    + exfalso. assert (Hk : doc_key x ∈ doc_key <$> (x :: L))
        by apply list_elem_of_here.
      apply Hmem in Hk. by apply elem_of_nil in Hk.
  - intros [-> ->]. destruct cr as [|x cr]; [done|]. exfalso.
    assert (Hk : doc_key x ∈ doc_key <$> (x :: cr)) by apply list_elem_of_here.
    apply Hmem in Hk. by apply elem_of_nil in Hk.
Qed.

Lemma hybrid_search_empty_iff_witness :
  [fused_a; fused_p] = [] ↔ [text_plain; text_a] = [] ∧ [vec_a] = [].
Proof.
  apply (hybrid_search_empty_iff kb_pa "tuyen sinh" 10 0.3 0.7).
  - lia.
  - apply full_text_search_pa.
  - apply vector_search_pa.
  - apply fusion_pa.
Defined.

End MoreHybrid.

(** ** The digests used as cache keys and as content identifiers *)

Section DigestFormat.
Import MD5 More.
Local Open Scope Z_scope.

Context `{unicode : !Unicode}.

Lemma hex_length (bs : list Z) : String.length (hex bs) = (2 * length bs)%nat.
Proof. induction bs as [|b bs IH]; simpl; [done|]. rewrite IH. lia. Qed.

Lemma le_bytes_length (n : nat) (x : Z) : length (le_bytes n x) = n.
Proof. unfold le_bytes. by rewrite length_map, length_seq. Qed.

Lemma le_bytes_range (n : nat) (x : Z) :
  Forall (λ b, 0 <= b < 256) (le_bytes n x).
Proof.
  unfold le_bytes. apply Forall_map, Forall_forall. intros i _. simpl.
  apply Z.mod_pos_bound. lia.
Qed.

Lemma digest_length (msg : list Z) : length (digest msg) = 16%nat.
Proof. unfold digest. by rewrite !length_app, !le_bytes_length. Qed.

Lemma digest_range (msg : list Z) : Forall (λ b, 0 <= b < 256) (digest msg).
Proof. unfold digest. repeat apply Forall_app_2; apply le_bytes_range. Qed.

Lemma hex_digit_is_hex (n : Z) : 0 <= n < 16 → is_hex_digit (hex_digit n) = true.
Proof.
  intros H.
  assert (Hn : n = 0 ∨ n = 1 ∨ n = 2 ∨ n = 3 ∨ n = 4 ∨ n = 5 ∨ n = 6 ∨ n = 7
               ∨ n = 8 ∨ n = 9 ∨ n = 10 ∨ n = 11 ∨ n = 12 ∨ n = 13 ∨ n = 14
               ∨ n = 15) by lia.
  repeat (destruct Hn as [->|Hn]; [vm_compute; reflexivity|]).
  subst n. vm_compute. reflexivity.
Qed.

Lemma hex_is_hex (bs : list Z) :
  Forall (λ b, 0 <= b < 256) bs →
  forallb is_hex_digit (list_ascii_of_string (hex bs)) = true.
Proof.
  induction 1 as [|b bs Hb _ IH]; [done|].
  cbn [hex list_ascii_of_string forallb].
  rewrite IH, !hex_digit_is_hex; [done| |].
  - apply Z.mod_pos_bound. lia.
  - split; [apply Z.div_pos; lia|apply Z.div_lt_upper_bound; lia].
Qed.

Lemma md5_hexdigest_length (bs : list Z) :
  String.length (md5_hexdigest bs) = 32%nat.
Proof. unfold md5_hexdigest. by rewrite hex_length, digest_length. Qed.

(** X8: whatever is hashed, the digest is written with 32 lower-case
    hexadecimal digits; so is every key of the query cache, and every
    identifier [add_document] generates from a URL. *)
Theorem md5_hexdigest_format :
  (∀ bs : list Z,
     String.length (md5_hexdigest bs) = 32%nat
     ∧ forallb is_hex_digit (list_ascii_of_string (md5_hexdigest bs)) = true)
  ∧ (∀ query : string,
       String.length (Agent.cache_key_of_query query) = 32%nat)
  ∧ (∀ url : string,
       ∃ digest, Documents.url_digest (VStr url) = Returned (VStr digest)
                 ∧ String.length digest = 32%nat).
Proof.
  split; [|split].
  - intros bs. split; [apply md5_hexdigest_length|].
    apply hex_is_hex, digest_range.
  - intros query. apply md5_hexdigest_length.
  - intros url. eexists. split; [reflexivity|]. apply md5_hexdigest_length.
Qed.

End DigestFormat.

(** ** The document store: [add_document], the look-ups and the deletions *)

Section Store.
Import UEH MongoOps Documents Examples More.
Local Open Scope list_scope.

Implicit Types (c collection : Collection) (d doc document old new : Doc)
  (docs pre post : list Doc) (q id : pyval) (field : string).

Lemma eq_match_refl q : eq_match q (Some q) = true.
Proof. unfold eq_match. by destruct (pyval_eq_dec q q). Qed.

Lemma eq_match_str (s : string) (stored : option pyval) :
  eq_match (VStr s) stored = true ↔ stored = Some (VStr s).
Proof.
  unfold eq_match. destruct stored as [v|]; [|split; discriminate].
  destruct (pyval_eq_dec v (VStr s)) as [->|Hne]; [done|].
  split; [discriminate|]. intros [= ->]. done.
Qed.

Lemma matches_str field (s : string) doc :
  matches field (VStr s) doc = true ↔ doc !! field = Some (VStr s).
Proof. apply eq_match_str. Qed.

Lemma matches_str_false field (s : string) doc :
  matches field (VStr s) doc = false ↔ doc !! field ≠ Some (VStr s).
Proof.
  rewrite <- matches_str. destruct (matches field (VStr s) doc); split; done.
Qed.

Lemma with_documents_id c : with_documents c (documents c) = c.
Proof. by destruct c. Qed.

Lemma first_match_split (cond : Doc → bool) docs :
  Forall (λ d, cond d = false) docs
  ∨ ∃ pre old post, docs = pre ++ old :: post
      ∧ Forall (λ d, cond d = false) pre ∧ cond old = true.
Proof.
  induction docs as [|d docs IH]; [left; constructor|].
  destruct (cond d) eqn:Hd.
  - right. exists [], d, docs. repeat split; [constructor|done].
  - destruct IH as [H|(pre & old & post & -> & Hpre & Hold)].
    + left. by constructor.
    + right. exists (d :: pre), old, post. repeat split; [by constructor|done].
Qed.

Lemma replace_first_none field q (r : Doc) docs :
  Forall (λ d, matches field q d = false) docs →
  replace_first field q r docs = None.
Proof. induction 1 as [|d docs Hd _ IH]; simpl; [done|]. by rewrite Hd, IH. Qed.

Lemma replace_first_at field q (r : Doc) pre old post :
  Forall (λ d, matches field q d = false) pre → matches field q old = true →
  replace_first field q r (pre ++ old :: post)
  = Some (bind (replacement_for old r) (λ d', Returned (pre ++ d' :: post))).
Proof.
  intros Hpre Hold. induction Hpre as [|d pre Hd _ IH]; simpl.
  - by rewrite Hold.
  - rewrite Hd, IH. by destruct (replacement_for old r).
Qed.

Lemma remove_first_none (cond : Doc → bool) docs :
  Forall (λ d, cond d = false) docs → remove_first cond docs = (docs, 0).
Proof. induction 1 as [|d docs Hd _ IH]; simpl; [done|]. by rewrite Hd, IH. Qed.

Lemma remove_first_at (cond : Doc → bool) pre old post :
  Forall (λ d, cond d = false) pre → cond old = true →
  remove_first cond (pre ++ old :: post) = (pre ++ post, 1).
Proof.
  intros Hpre Hold. induction Hpre as [|d pre Hd _ IH]; simpl.
  - by rewrite Hold.
  - by rewrite Hd, IH.
Qed.

Lemma find_first_none (cond : Doc → bool) docs :
  Forall (λ d, cond d = false) docs → List.find cond docs = None.
Proof. induction 1 as [|d docs Hd _ IH]; simpl; [done|]. by rewrite Hd. Qed.

Lemma find_first_at (cond : Doc → bool) pre old post :
  Forall (λ d, cond d = false) pre → cond old = true →
  List.find cond (pre ++ old :: post) = Some old.
Proof.
  intros Hpre Hold. induction Hpre as [|d pre Hd _ IH]; simpl.
  - by rewrite Hold.
  - by rewrite Hd.
Qed.

Lemma pop_id_lookup (a b : Doc) field :
  pop_id a = pop_id b → field ≠ "_id" → a !! field = b !! field.
Proof.
  unfold pop_id. intros H Hne.
  rewrite <- (lookup_delete_ne a "_id" field), <- (lookup_delete_ne b "_id" field)
    by done.
  by rewrite H.
Qed.

Lemma replacement_for_pop old (r : Doc) new :
  replacement_for old r = Returned new → pop_id new = pop_id r.
Proof.
  unfold replacement_for, pop_id.
  destruct (r !! "_id") as [i|], (old !! "_id") as [j|].
  - destruct (pyval_eq_dec i j); [by intros [= <-]|discriminate].
  - by intros [= <-].
  - intros [= <-]. apply delete_insert_eq.
  - by intros [= <-].
Qed.

Lemma inserted_pop (fresh_id : pyval) (r : Doc) docs new :
  inserted fresh_id r docs = Returned new → pop_id new = pop_id r.
Proof.
  unfold inserted, pop_id. destruct (r !! "_id") as [i|].
  - destruct (existsb (matches "_id" i) docs); [discriminate|by intros [= <-]].
  - intros [= <-]. apply delete_insert_eq.
Qed.

(** Replacing what a replacement left gives what replacing the original
    gives: the ['_id'] under which a document is stored does not move. *)
Lemma replacement_for_again old (r r' : Doc) new :
  replacement_for old r = Returned new → r' !! "_id" = r !! "_id" →
  replacement_for new r' = replacement_for old r'.
Proof.
  unfold replacement_for. intros H ->.
  destruct (r !! "_id") as [i|] eqn:Hi, (old !! "_id") as [j|] eqn:Hj.
  - destruct (pyval_eq_dec i j) as [->|]; [|discriminate].
    injection H as <-. rewrite Hi. by destruct (pyval_eq_dec j j).
  - injection H as <-. rewrite Hi. by destruct (pyval_eq_dec i i).
  - injection H as <-. by rewrite lookup_insert_eq.
  - injection H as <-. by rewrite Hi.
Qed.

Lemma inserted_again (fresh_id : pyval) (r r' : Doc) docs new :
  inserted fresh_id r docs = Returned new → r' !! "_id" = r !! "_id" →
  replacement_for new r' = inserted fresh_id r' docs.
Proof.
  unfold replacement_for, inserted. intros H ->.
  destruct (r !! "_id") as [i|] eqn:Hi.
  - destruct (existsb (matches "_id" i) docs); [discriminate|].
    injection H as <-. rewrite Hi. by destruct (pyval_eq_dec i i).
  - injection H as <-. by rewrite lookup_insert_eq.
Qed.

(** What a successful upsert leaves: the first document that matches is
    replaced where it stands, or, when none matches, the new document goes
    last. *)
Lemma replace_one_upsert_Returned (fresh_id : pyval) c field q (r : Doc)
    (c' : Collection) :
  replace_one_upsert None fresh_id c field q r = Returned c' →
  ∃ pre post new,
    pop_id new = pop_id r
    ∧ Forall (λ d, matches field q d = false) pre
    ∧ c' = with_documents c (pre ++ new :: post)
    ∧ ((∃ old, documents c = pre ++ old :: post
               ∧ matches field q old = true
               ∧ replacement_for old r = Returned new)
       ∨ (documents c = pre ∧ post = []
          ∧ inserted fresh_id r (documents c) = Returned new)).
Proof.
  unfold replace_one_upsert.
  destruct (first_match_split (matches field q) (documents c))
    as [Hnone|(pre & old & post & Hdocs & Hpre & Hold)].
  - rewrite replace_first_none by done.
    destruct (inserted fresh_id r (documents c)) as [new|e] eqn:Hins;
      simpl; [|discriminate].
    intros [= <-]. exists (documents c), [], new.
    split; [by eapply inserted_pop|]. split; [done|]. split; [done|].
    right. done.
  - rewrite Hdocs, replace_first_at by done.
    destruct (replacement_for old r) as [new|e] eqn:Hrep; simpl; [|discriminate].
    intros [= <-]. exists pre, post, new.
    split; [by eapply replacement_for_pop|]. split; [done|]. split; [done|].
    left. exists old. done.
Qed.

(** The ways a call of [add_document] ends. *)
Lemma add_document_cases (server_error : option exn) (fresh_id : pyval)
    (now_iso : string) collection document :
  let r := add_document server_error fresh_id now_iso collection document in
  (∃ e, returned r = Raised e ∧ collection_after r = collection)
  ∨ (∃ id, server_error = None
           ∧ returned r = Returned id
           ∧ (document !! "content_id" = Some id
              ∨ (document !! "content_id" = None
                 ∧ ∃ u, document !! "url" = Some (VStr u)
                        ∧ id = VStr (MD5.md5_hexdigest (MD5.encode u))))
           ∧ document_after r
             = <["updated_at" := VStr now_iso]> (<["content_id" := id]> document)
           ∧ replace_one_upsert None fresh_id collection "content_id" id
               (document_after r)
             = Returned (collection_after r)).
Proof.
  unfold add_document.
  destruct (document !! "content_id") as [cid|] eqn:Hcid.
  - rewrite lookup_insert_ne, Hcid by done. simpl.
    destruct (replace_one_upsert server_error fresh_id collection "content_id"
                cid (<["updated_at" := VStr now_iso]> document))
      as [c'|e] eqn:Hup; simpl; [|left; eauto].
    destruct server_error as [e|]; [discriminate|].
    right. exists cid. rewrite (insert_id document "content_id" cid) by done.
    split; [done|]. split; [done|]. split; [by left|]. split; done.
  - destruct (document !! "url") as [url|] eqn:Hurl; simpl; [|left; eauto].
    destruct url as [|u|x|l]; simpl;
      [by left; eauto| |by left; eauto|by left; eauto].
    rewrite lookup_insert_ne, lookup_insert_eq by done. simpl.
    destruct (replace_one_upsert server_error fresh_id collection "content_id"
                (VStr (MD5.md5_hexdigest (MD5.encode u)))
                (<["updated_at" := VStr now_iso]>
                   (<["content_id" := VStr (MD5.md5_hexdigest (MD5.encode u))]>
                      document)))
      as [c'|e] eqn:Hup; simpl; [|left; eauto].
    destruct server_error as [e|]; [discriminate|].
    right. eexists. split; [done|]. split; [done|].
    split; [right; split; [done|]; eauto|]. split; done.
Qed.

Lemma document_after_content_id (now_iso : string) id document :
  (<["updated_at" := VStr now_iso]> (<["content_id" := id]> document))
    !! "content_id" = Some id.
Proof. by rewrite lookup_insert_ne, lookup_insert_eq. Qed.


(** [add_document] once the identifier is known. *)
Lemma add_document_with_id (server_error : option exn) (fresh_id : pyval)
    (now_iso : string) collection document id :
  document !! "content_id" = Some id
  ∨ (document !! "content_id" = None
     ∧ ∃ u, document !! "url" = Some (VStr u)
            ∧ id = VStr (MD5.md5_hexdigest (MD5.encode u))) →
  let document' :=
    <["updated_at" := VStr now_iso]> (<["content_id" := id]> document) in
  add_document server_error fresh_id now_iso collection document
  = match replace_one_upsert server_error fresh_id collection "content_id" id
            document' with
    | Raised e => Added (Raised e) document' collection
    | Returned collection' => Added (Returned id) document' collection'
    end.
Proof.
  intros [Hcid|(Hcid & u & Hurl & ->)] document'; subst document';
    unfold add_document; rewrite Hcid.
  - rewrite (insert_id document "content_id" id) by done.
    rewrite lookup_insert_ne, Hcid by done. done.
  - rewrite Hurl. simpl. rewrite lookup_insert_ne, lookup_insert_eq by done.
    done.
Qed.

(** An upsert of the same document after a successful one replaces what the
    first one stored, and inserts nothing. *)
Lemma replace_one_upsert_again (fresh_id fresh_id' : pyval) c field q
    (r r' : Doc) (c1 : Collection) :
  replace_one_upsert None fresh_id c field q r = Returned c1 →
  field ≠ "_id" → eq_match q (r !! field) = true →
  r' !! "_id" = r !! "_id" →
  ∃ c2, replace_one_upsert None fresh_id' c1 field q r' = Returned c2
        ∧ replace_one_upsert None fresh_id c field q r' = Returned c2
        ∧ length (documents c2) = length (documents c1)
        ∧ (r' = r → c2 = c1).
Proof.
  intros Hup Hfield Hmatch Hid.
  destruct (replace_one_upsert_Returned _ _ _ _ _ _ Hup)
    as (pre & post & new & Hpop & Hpre & -> & Hcase).
  assert (Hnew : matches field q new = true).
  { unfold matches. by rewrite (pop_id_lookup new r field). }
  unfold replace_one_upsert at 1. cbn [documents with_documents].
  rewrite replace_first_at by done.
  destruct Hcase as [(old & Hdocs & Hold & Hrep)|(Hdocs & -> & Hins)].
  - rewrite (replacement_for_again old r r' new) by done.
    unfold replace_one_upsert. rewrite Hdocs, replace_first_at by done.
    assert (Hsame : replacement_for old r' = Returned
              (match r' !! "_id", old !! "_id" with
               | None, Some j => <["_id" := j]> r'
               | _, _ => r'
               end)).
    { revert Hrep. unfold replacement_for. rewrite Hid.
      destruct (r !! "_id") as [i|], (old !! "_id") as [j|]; try done.
      by destruct (pyval_eq_dec i j). }
    rewrite Hsame. simpl. eexists. split; [done|]. split; [done|].
    split; [cbn [documents with_documents]; by rewrite !length_app|].
    intros ->. rewrite Hrep in Hsame. by injection Hsame as <-.
  - rewrite (inserted_again fresh_id r r' (documents c) new) by done.
    unfold replace_one_upsert. rewrite replace_first_none by (by rewrite Hdocs).
    assert (Hsame : ∃ new', inserted fresh_id r' (documents c) = Returned new').
    { revert Hins. unfold inserted. rewrite Hid.
      destruct (r !! "_id") as [i|]; [|eauto].
      destruct (existsb (matches "_id" i) (documents c)); [done|eauto]. }
    destruct Hsame as (new' & Hsame). rewrite Hsame. simpl.
    rewrite Hdocs. eexists. split; [done|]. split; [done|].
    split; [cbn [documents with_documents]; by rewrite !length_app|].
    intros ->. rewrite Hins in Hsame. by injection Hsame as <-.
Qed.

(** X9: the identifier [add_document] returns is the document's own
    ['content_id'] when it has one, and the MD5 digest of its URL otherwise;
    the caller's dictionary leaves with that identifier and the time of the
    call, and the collection then holds it (under an ['_id']).  A call that
    raises leaves the collection as it was; without ['content_id'] and
    without ['url'] it raises [KeyError] before anything is touched; when
    the write fails the caller's dictionary has been changed all the same. *)
Theorem add_document_identifier (server_error : option exn) (fresh_id : pyval)
    (now_iso : string) collection document :
  let r := add_document server_error fresh_id now_iso collection document in
  (∀ id, returned r = Returned id →
     (document !! "content_id" = Some id
      ∨ (document !! "content_id" = None
         ∧ ∃ u, document !! "url" = Some (VStr u)
                ∧ id = VStr (MD5.md5_hexdigest (MD5.encode u))))
     ∧ document_after r
       = <["updated_at" := VStr now_iso]> (<["content_id" := id]> document)
     ∧ ∃ stored, stored ∈ documents (collection_after r)
                 ∧ pop_id stored = pop_id (document_after r))
  ∧ (∀ e, returned r = Raised e → collection_after r = collection)
  ∧ (document !! "content_id" = None → document !! "url" = None →
     returned r = Raised (KeyError "url") ∧ document_after r = document)
  ∧ (∀ e id, server_error = Some e → document !! "content_id" = Some id →
       returned r = Raised e
       ∧ document_after r = <["updated_at" := VStr now_iso]> document).
Proof.
  intros r. split; [|split; [|split]].
  - intros id Hret.
    destruct (add_document_cases server_error fresh_id now_iso collection
                document) as [(e & He & _)|(id' & _ & Hret' & Hid & Hdoc & Hup)];
      fold r in He || fold r in Hret', Hdoc, Hup.
    { rewrite He in Hret. discriminate. }
    rewrite Hret' in Hret. injection Hret as ->.
    split; [done|]. split; [done|].
    destruct (replace_one_upsert_Returned _ _ _ _ _ _ Hup)
      as (pre & post & new & Hpop & _ & Hc & _).
    exists new. split; [|done]. rewrite Hc. cbn [documents with_documents].
    apply elem_of_app. right. left.
  - intros e He.
    destruct (add_document_cases server_error fresh_id now_iso collection
                document) as [(e' & _ & Hc)|(id' & _ & Hret' & _)];
      [done|].
    fold r in Hret'. rewrite Hret' in He. discriminate.
  - intros Hcid Hurl. subst r. unfold add_document. by rewrite Hcid, Hurl.
  - intros e id -> Hcid. subst r. unfold add_document. rewrite Hcid.
    by rewrite lookup_insert_ne, Hcid by done.
Qed.

Lemma add_document_identifier_witness :
  returned (add_document None (VStr "65a000000000000000000004") "2025-01-01T00:00:00"
              (collection kb_ab) page)
  = Returned (VStr page_id)
  ∧ document_after (add_document None (VStr "65a000000000000000000004")
                      "2025-01-01T00:00:00" (collection kb_ab) page)
    = <["updated_at" := VStr "2025-01-01T00:00:00"]>
        (<["content_id" := VStr page_id]> page).
Proof.
  assert (Hret : returned (add_document None (VStr "65a000000000000000000004")
                             "2025-01-01T00:00:00" (collection kb_ab) page)
                 = Returned (VStr page_id)) by (vm_compute; reflexivity).
  split; [exact Hret|].
  destruct (add_document_identifier None (VStr "65a000000000000000000004")
              "2025-01-01T00:00:00" (collection kb_ab) page) as (H & _).
  destruct (H (VStr page_id) Hret) as (_ & Hdoc & _). exact Hdoc.
Defined.

(** X10: a successful [add_document] changes one place of the collection:
    the first stored document with the identifier is replaced where it
    stands and keeps its ['_id'], or, when there is none, the document goes
    last; what is stored is the caller's dictionary as the call left it.
    The number of documents grows by one exactly when the identifier was
    new. *)
Theorem add_document_upsert (fresh_id : pyval) (now_iso : string) collection
    document id :
  let r := add_document None fresh_id now_iso collection document in
  returned r = Returned id →
  ∃ pre post new,
    documents (collection_after r) = pre ++ new :: post
    ∧ pop_id new = pop_id (document_after r)
    ∧ Forall (λ d, matches "content_id" id d = false) pre
    ∧ ((∃ old, documents collection = pre ++ old :: post
               ∧ matches "content_id" id old = true
               ∧ (is_Some (old !! "_id") → new !! "_id" = old !! "_id")
               ∧ length (documents (collection_after r))
                 = length (documents collection))
       ∨ (documents collection = pre ∧ post = []
          ∧ length (documents (collection_after r))
            = S (length (documents collection)))).
Proof.
  intros r Hret.
  destruct (add_document_cases None fresh_id now_iso collection document)
    as [(e & He & _)|(id' & _ & Hret' & Hid & Hdoc & Hup)];
    fold r in He || fold r in Hret', Hdoc, Hup.
  { rewrite He in Hret. discriminate. }
  rewrite Hret' in Hret. injection Hret as ->.
  destruct (replace_one_upsert_Returned _ _ _ _ _ _ Hup)
    as (pre & post & new & Hpop & Hpre & Hc & Hcase).
  exists pre, post, new. rewrite Hc. cbn [documents with_documents].
  split; [done|]. split; [done|]. split; [done|].
  destruct Hcase as [(old & Hdocs & Hold & Hrep)|(Hdocs & -> & Hins)].
  - left. exists old. split; [done|]. split; [done|]. split.
    + intros [j Hj]. revert Hrep. unfold replacement_for. rewrite Hj.
      destruct (document_after r !! "_id") as [i|] eqn:Hi.
      * destruct (pyval_eq_dec i j) as [->|]; [|discriminate].
        intros [= <-]. done.
      * intros [= <-]. by rewrite lookup_insert_eq.
    + rewrite Hdocs, !length_app. done.
  - right. split; [done|]. split; [done|].
    rewrite Hdocs, length_app. simpl. lia.
Qed.

Lemma add_document_upsert_witness :
  ∃ pre post new,
    documents (collection_after
                 (add_document None (VStr "65a000000000000000000004")
                    "2025-01-01T00:00:00" (collection kb_ab) doc_a2))
    = pre ++ new :: post
    ∧ pop_id new
      = pop_id (document_after
                  (add_document None (VStr "65a000000000000000000004")
                     "2025-01-01T00:00:00" (collection kb_ab) doc_a2)).
Proof.
  destruct (add_document_upsert (VStr "65a000000000000000000004")
              "2025-01-01T00:00:00" (collection kb_ab) doc_a2 (VStr "a"))
    as (pre & post & new & Hdocs & Hpop & _).
  - vm_compute. reflexivity.
  - exists pre, post, new. split; [exact Hdocs|exact Hpop].
Defined.


(** X11: when the stored documents have pairwise different values under
    ['content_id'] they still have after [add_document], whether it
    succeeds or raises, provided the identifier of the document is a
    string (a generated one always is). *)
Theorem add_document_keeps_ids_unique (server_error : option exn)
    (fresh_id : pyval) (now_iso : string) collection document :
  NoDup (content_ids (documents collection)) →
  (∀ v, document !! "content_id" = Some v → ∃ s : string, v = VStr s) →
  NoDup (content_ids
           (documents
              (collection_after
                 (add_document server_error fresh_id now_iso collection
                    document)))).
Proof.
  intros Hnodup Hstr.
  destruct (add_document_cases server_error fresh_id now_iso collection
              document) as [(e & _ & ->)|(id & _ & _ & Hid & Hdoc & Hup)];
    [done|].
  assert (Hs : ∃ s : string, id = VStr s).
  { destruct Hid as [Hcid|(_ & u & _ & ->)]; [by eapply Hstr|eauto]. }
  destruct Hs as (s & ->).
  destruct (replace_one_upsert_Returned _ _ _ _ _ _ Hup)
    as (pre & post & new & Hpop & Hpre & -> & Hcase).
  cbn [documents with_documents].
  assert (Hnew : new !! "content_id" = Some (VStr s)).
  { rewrite (pop_id_lookup new _ "content_id" Hpop) by done.
    rewrite Hdoc. apply document_after_content_id. }
  destruct Hcase as [(old & Hdocs & Hold & _)|(Hdocs & -> & _)].
  - apply matches_str in Hold. revert Hnodup. rewrite Hdocs.
    unfold content_ids. rewrite !map_app. simpl. by rewrite Hnew, Hold.
  - revert Hnodup. rewrite Hdocs. unfold content_ids. rewrite map_app. simpl.
    intros Hnodup. apply NoDup_app. split; [done|]. split; [|apply NoDup_singleton].
    intros x Hx Hin. apply list_elem_of_singleton in Hin. subst x.
    apply list_elem_of_fmap in Hx as (d & Hd & Hin).
    rewrite Forall_forall in Hpre. specialize (Hpre d Hin).
    apply matches_str_false in Hpre. rewrite Hnew in Hd. by rewrite <- Hd in Hpre.
Qed.

Lemma add_document_keeps_ids_unique_witness :
  NoDup (content_ids
           (documents
              (collection_after
                 (add_document None (VStr "65a000000000000000000004")
                    "2025-01-01T00:00:00" (collection kb_ab) doc_a2)))).
Proof.
  apply add_document_keeps_ids_unique.
  - vm_compute. apply NoDup_cons. split; [|apply NoDup_singleton].
    intros H. apply list_elem_of_singleton in H. discriminate.
  - intros v Hv. vm_compute in Hv. injection Hv as <-. eauto.
Defined.

(** X12: a document that was added is found again under its URL, as the
    call left it and without ['_id'], when the documents stored under that
    URL had its identifier; a scan that fails makes the look-up raise. *)
Theorem add_document_then_get_by_url (fresh_id : pyval) (now_iso : string)
    collection document id (u : string) :
  let r := add_document None fresh_id now_iso collection document in
  returned r = Returned id →
  document !! "url" = Some (VStr u) →
  (∀ d, d ∈ documents collection → d !! "url" = Some (VStr u) →
        d !! "content_id" = Some id) →
  get_document_by_url (collection_after r) u
  = match scan_error collection with
    | Some e => Raised e
    | None => Returned (Some (pop_id (document_after r)))
    end.
Proof.
  intros r Hret Hurl Hstored.
  destruct (add_document_cases None fresh_id now_iso collection document)
    as [(e & He & _)|(id' & _ & Hret' & Hid & Hdoc & Hup)];
    fold r in He || fold r in Hret', Hdoc, Hup.
  { rewrite He in Hret. discriminate. }
  rewrite Hret' in Hret. injection Hret as ->.
  destruct (replace_one_upsert_Returned _ _ _ _ _ _ Hup)
    as (pre & post & new & Hpop & Hpre & Hc & Hcase).
  rewrite Hc. unfold get_document_by_url, find_one.
  cbn [documents scan_error with_documents].
  destruct (scan_error collection) as [e|]; [done|]. simpl.
  assert (Hnew : new !! "url" = Some (VStr u)).
  { rewrite (pop_id_lookup new _ "url" Hpop) by done.
    by rewrite Hdoc, !lookup_insert_ne. }
  assert (Hin : ∀ d, d ∈ pre → d ∈ documents collection).
  { intros d Hd. destruct Hcase as [(old & -> & _)|(-> & _)]; [|done].
    apply elem_of_app. by left. }
  rewrite (find_first_at _ pre new post).
  - destruct (decide (new = ∅)) as [->|_]; [|by rewrite Hpop].
    by rewrite lookup_empty in Hnew.
  - apply Forall_forall. intros d Hd.
    destruct (matches "url" (VStr u) d) eqn:Hm; [|done].
    apply matches_str in Hm.
    rewrite Forall_forall in Hpre. specialize (Hpre d Hd).
    unfold matches in Hpre.
    rewrite (Hstored d (Hin d Hd) Hm), eq_match_refl in Hpre. done.
  - by apply matches_str.
Qed.

Lemma add_document_then_get_by_url_witness :
  get_document_by_url
    (collection_after
       (add_document None (VStr "65a000000000000000000004")
          "2025-01-01T00:00:00" (collection kb_ab) page)) "https://x/n"
  = Returned
      (Some (pop_id
               (document_after
                  (add_document None (VStr "65a000000000000000000004")
                     "2025-01-01T00:00:00" (collection kb_ab) page)))).
Proof.
  apply (add_document_then_get_by_url (VStr "65a000000000000000000004")
           "2025-01-01T00:00:00" (collection kb_ab) page (VStr page_id)).
  - vm_compute. reflexivity.
  - vm_compute. reflexivity.
  - intros d Hd Hu. vm_compute in Hd.
    apply elem_of_cons in Hd as [->|Hd]; [vm_compute in Hu; discriminate|].
    apply elem_of_cons in Hd as [->|Hd]; [vm_compute in Hu; discriminate|].
    by apply elem_of_nil in Hd.
Defined.

(** X13: adding again the dictionary a successful [add_document] left
    inserts nothing: it replaces what the first call stored, and leaves the
    collection as a single call at the later time would have; at the same
    time of the clock the collection does not change at all. *)
Theorem add_document_again (fresh_id fresh_id' : pyval)
    (now_iso now_iso' : string) collection document id :
  let r1 := add_document None fresh_id now_iso collection document in
  let r2 := add_document None fresh_id' now_iso' (collection_after r1)
              (document_after r1) in
  let r := add_document None fresh_id now_iso' collection document in
  returned r1 = Returned id →
  returned r2 = Returned id
  ∧ document_after r2 = document_after r
  ∧ collection_after r2 = collection_after r
  ∧ length (documents (collection_after r2))
    = length (documents (collection_after r1))
  ∧ (now_iso' = now_iso → collection_after r2 = collection_after r1).
Proof.
  intros r1 r2 r Hret.
  destruct (add_document_cases None fresh_id now_iso collection document)
    as [(e & He & _)|(id' & _ & Hret' & Hid & Hdoc & Hup)];
    fold r1 in He || fold r1 in Hret', Hdoc, Hup.
  { rewrite He in Hret. discriminate. }
  rewrite Hret' in Hret. injection Hret as ->.
  set (d1 := <["updated_at" := VStr now_iso]> (<["content_id" := id]> document))
    in *.
  set (d2 := <["updated_at" := VStr now_iso']> (<["content_id" := id]> document)).
  destruct (replace_one_upsert_again fresh_id fresh_id' collection "content_id"
              id (document_after r1) d2 (collection_after r1) Hup)
    as (c2 & Hup2 & Hup' & Hlen & Hsame).
  { done. }
  { rewrite Hdoc. unfold d1. rewrite document_after_content_id.
    apply eq_match_refl. }
  { rewrite Hdoc. unfold d1, d2. by rewrite !lookup_insert_ne. }
  assert (Hd2 : <["updated_at" := VStr now_iso']>
                  (<["content_id" := id]> (document_after r1)) = d2).
  { rewrite Hdoc. unfold d1, d2.
    rewrite (insert_id (<["updated_at" := VStr now_iso]> _) "content_id" id)
      by apply document_after_content_id.
    apply insert_insert_eq. }
  assert (H2 : r2 = Added (Returned id) d2 c2).
  { subst r2. rewrite (add_document_with_id None fresh_id' now_iso'
                         (collection_after r1) (document_after r1) id).
    - rewrite Hd2, Hup2. done.
    - left. rewrite Hdoc. apply document_after_content_id. }
  assert (H : r = Added (Returned id) d2 c2).
  { subst r. rewrite (add_document_with_id None fresh_id now_iso' collection
                        document id Hid).
    fold d2. by rewrite Hup'. }
  rewrite H2, H. simpl. repeat split; try done.
  intros ->. apply Hsame. by rewrite Hdoc.
Qed.

Lemma add_document_again_witness :
  collection_after
    (add_document None (VStr "65a000000000000000000005") "2025-01-01T00:00:00"
       (collection_after
          (add_document None (VStr "65a000000000000000000004")
             "2025-01-01T00:00:00" (collection kb_ab) page))
       (document_after
          (add_document None (VStr "65a000000000000000000004")
             "2025-01-01T00:00:00" (collection kb_ab) page)))
  = collection_after
      (add_document None (VStr "65a000000000000000000004")
         "2025-01-01T00:00:00" (collection kb_ab) page).
Proof.
  destruct (add_document_again (VStr "65a000000000000000000004")
              (VStr "65a000000000000000000005") "2025-01-01T00:00:00"
              "2025-01-01T00:00:00" (collection kb_ab) page (VStr page_id))
    as (_ & _ & _ & _ & Hsame).
  - vm_compute. reflexivity.
  - apply Hsame. reflexivity.
Defined.


(** X14: [delete_document] removes the first stored document with the
    identifier and no other, and answers [True]; when no document has the
    identifier it answers [False] and the collection is as it was; an
    error of the store is raised and nothing is removed. *)
Theorem delete_document_first_match collection (content_id : string) :
  (∀ e, delete_document (Some e) collection content_id
        = (Raised e, collection))
  ∧ ((Forall (λ d, d !! "content_id" ≠ Some (VStr content_id))
             (documents collection)
      ∧ delete_document None collection content_id
        = (Returned false, collection))
     ∨ ∃ pre old post,
         documents collection = pre ++ old :: post
         ∧ Forall (λ d, d !! "content_id" ≠ Some (VStr content_id)) pre
         ∧ old !! "content_id" = Some (VStr content_id)
         ∧ delete_document None collection content_id
           = (Returned true, with_documents collection (pre ++ post))).
Proof.
  split; [done|].
  unfold delete_document, delete_one.
  destruct (first_match_split (matches "content_id" (VStr content_id))
              (documents collection))
    as [Hnone|(pre & old & post & Hdocs & Hpre & Hold)].
  - left. rewrite remove_first_none by done. rewrite with_documents_id.
    split; [|done]. eapply Forall_impl; [exact Hnone|].
    intros d Hd. by apply matches_str_false.
  - right. exists pre, old, post. rewrite Hdocs at 2.
    rewrite remove_first_at by done.
    split; [done|]. split; [|split; [by apply matches_str|done]].
    eapply Forall_impl; [exact Hpre|]. intros d Hd. by apply matches_str_false.
Qed.

(** X15: deleting by the identifier [add_document] returned answers
    [True]; when the identifier was new to the collection, the deletion
    gives back the collection as it was before the document was added. *)
Theorem add_document_then_delete (fresh_id : pyval) (now_iso : string)
    collection document (s : string) :
  let r := add_document None fresh_id now_iso collection document in
  returned r = Returned (VStr s) →
  (delete_document None (collection_after r) s).1 = Returned true
  ∧ (Forall (λ d, d !! "content_id" ≠ Some (VStr s)) (documents collection) →
     delete_document None (collection_after r) s = (Returned true, collection)).
Proof.
  intros r Hret.
  destruct (add_document_cases None fresh_id now_iso collection document)
    as [(e & He & _)|(id' & _ & Hret' & Hid & Hdoc & Hup)];
    fold r in He || fold r in Hret', Hdoc, Hup.
  { rewrite He in Hret. discriminate. }
  rewrite Hret' in Hret. injection Hret as ->.
  destruct (replace_one_upsert_Returned _ _ _ _ _ _ Hup)
    as (pre & post & new & Hpop & Hpre & Hc & Hcase).
  assert (Hnew : matches "content_id" (VStr s) new = true).
  { apply matches_str. rewrite (pop_id_lookup new _ "content_id" Hpop) by done.
    rewrite Hdoc. apply document_after_content_id. }
  rewrite Hc. unfold delete_document, delete_one.
  cbn [documents with_documents]. rewrite remove_first_at by done.
  split; [done|]. intros Hfresh.
  destruct Hcase as [(old & Hdocs & Hold & _)|(Hdocs & -> & _)].
  - rewrite Hdocs in Hfresh. apply Forall_app in Hfresh as [_ Hfresh].
    apply Forall_cons in Hfresh as [Hfresh _].
    apply matches_str in Hold. done.
  - rewrite app_nil_r, <- Hdocs. by destruct collection.
Qed.

Lemma add_document_then_delete_witness :
  delete_document None
    (collection_after
       (add_document None (VStr "65a000000000000000000004")
          "2025-01-01T00:00:00" (collection kb_ab) page)) page_id
  = (Returned true, collection kb_ab).
Proof.
  destruct (add_document_then_delete (VStr "65a000000000000000000004")
              "2025-01-01T00:00:00" (collection kb_ab) page page_id)
    as (_ & Hback).
  - vm_compute. reflexivity.
  - apply Hback. vm_compute.
    repeat (apply Forall_cons; split; [discriminate|]). apply Forall_nil_2.
Defined.

Lemma cursor_limit_nil {A} (n : Z) : cursor_limit n (@nil A) = [].
Proof. unfold cursor_limit. destruct (n =? 0)%Z; [done|apply take_nil]. Qed.

Lemma slice_to_nil {A} (n : Z) : slice_to n (@nil A) = [].
Proof. unfold slice_to. destruct (0 <=? n)%Z; apply take_nil. Qed.

Lemma full_text_search_empty (self : KnowledgeBase) (query : string) (limit : Z) :
  documents (collection self) = [] →
  full_text_search self query limit = Returned [].
Proof.
  intros Hdocs. unfold full_text_search, find_text.
  destruct (text_query_error (collection self)); [done|].
  destruct (text_index (collection self)); [|done].
  rewrite Hdocs. simpl. by rewrite cursor_limit_nil.
Qed.

Lemma vector_search_empty (self : KnowledgeBase) (query : string) (limit : Z)
    (threshold : R) :
  documents (collection self) = [] →
  vector_search self query limit threshold = Returned [].
Proof.
  intros Hdocs. unfold vector_search.
  destruct (enable_vector_search self); simpl;
    [|by apply full_text_search_empty].
  destruct (generate_embedding self query) as [[|x qe]|]; simpl;
    try (rewrite full_text_search_empty by done; done).
  unfold find_exists. destruct (scan_error (collection self)); simpl.
  - by apply full_text_search_empty.
  - rewrite Hdocs. simpl. by rewrite slice_to_nil.
Qed.

(** X16: after [clear_all] the knowledge base is empty for every way of
    reading it: the count is 0, no URL is found, and the searches, the
    category look-up and the listing return nothing.  When the store
    refuses the deletion, [clear_all] raises and nothing is removed. *)
Theorem clear_all_empties (self : KnowledgeBase) :
  (∀ e, clear_all (Some e) (collection self) = (Raised e, collection self))
  ∧ (clear_all None (collection self)).1 = Returned tt
  ∧ let cleared := (clear_all None (collection self)).2 in
    let self' := with_collection self cleared in
    let read {A} (a : A) : outcome A :=
      match scan_error (collection self) with
      | Some e => Raised e
      | None => Returned a
      end in
    count_documents cleared = read 0
    ∧ (∀ url, get_document_by_url cleared url = read None)
    ∧ (∀ limit, get_all_documents cleared limit = read [])
    ∧ (∀ category limit, search_by_category cleared category limit = read [])
    ∧ (∀ query limit, full_text_search self' query limit = Returned [])
    ∧ (∀ query limit, UIT.full_text_search cleared query limit = Returned [])
    ∧ (∀ query limit threshold,
         vector_search self' query limit threshold = Returned [])
    ∧ (∀ query limit tw vw,
         hybrid_search self' query limit tw vw = Returned []).
Proof.
  split; [done|]. split; [done|]. intros cleared self' read.
  subst cleared self' read. cbn [clear_all delete_all snd].
  split; [|split; [|split; [|split]]].
  - unfold count_documents, count_all. simpl.
    by destruct (scan_error (collection self)).
  - intros url. unfold get_document_by_url, find_one. simpl.
    by destruct (scan_error (collection self)).
  - intros limit. unfold get_all_documents, find_where. simpl.
    destruct (scan_error (collection self)); [done|]. simpl.
    by rewrite cursor_limit_nil.
  - intros category limit. unfold search_by_category, find_where. simpl.
    destruct (scan_error (collection self)); [done|]. simpl.
    by rewrite cursor_limit_nil.
  - assert (Hfts : ∀ query limit,
              full_text_search
                (with_collection self (with_documents (collection self) []))
                query limit = Returned [])
      by (intros; by apply full_text_search_empty).
    assert (Hvs : ∀ query limit threshold,
              vector_search
                (with_collection self (with_documents (collection self) []))
                query limit threshold = Returned [])
      by (intros; by apply vector_search_empty).
    split; [exact Hfts|]. split; [|split; [exact Hvs|]].
    + intros query limit. unfold UIT.full_text_search, find_text. simpl.
      destruct (text_query_error (collection self)); [done|].
      destruct (text_index (collection self)); [|done].
      simpl. by rewrite cursor_limit_nil.
    + intros query limit tw vw. unfold hybrid_search.
      destruct (negb _); [apply Hfts|].
      unfold fusion. rewrite Hfts. simpl. rewrite Hvs. simpl.
      by rewrite slice_to_nil.
Qed.

Lemma list_filter_sublist {A} (f : A → bool) (l : list A) :
  List.filter f l `sublist_of` l.
Proof.
  induction l as [|x l IH]; simpl; [constructor|].
  destruct (f x); by constructor.
Qed.

(** X17: [search_by_category] returns stored documents of the category, in
    scan order and without ['_id'], every other field as it is stored (the
    embedding too); with limit 0 it returns all of them, otherwise at most
    the limit taken without its sign.  Unlike [full_text_search] it lets an
    error of the store through. *)
Theorem search_by_category_results collection (category : string) (limit : Z) :
  (∀ e, scan_error collection = Some e →
        search_by_category collection category limit = Raised e)
  ∧ (scan_error collection = None →
     ∃ found,
       search_by_category collection category limit
       = Returned (map pop_id found)
       ∧ found `sublist_of` documents collection
       ∧ Forall (λ d, d !! "category" = Some (VStr category)) found
       ∧ Forall (λ d, d !! "_id" = None
                      ∧ d !! "category" = Some (VStr category))
                (map pop_id found)
       ∧ (∀ d, d ∈ found → pop_id d !! "embedding" = d !! "embedding")
       ∧ (limit ≠ 0%Z → length found <= Z.abs_nat limit)
       ∧ (limit = 0%Z →
          ∀ d, d ∈ documents collection →
               d !! "category" = Some (VStr category) → d ∈ found)).
Proof.
  unfold search_by_category, find_where. split; [by intros e ->|].
  intros ->. simpl.
  eexists. split; [reflexivity|].
  assert (Hcat : Forall (λ d : Doc, d !! "category" = Some (VStr category))
            (cursor_limit limit
               (List.filter (matches "category" (VStr category))
                  (documents collection)))).
  { apply Forall_forall. intros d Hd.
    apply cursor_limit_subseteq, list_elem_of_In, filter_In in Hd as [_ Hd].
    by apply matches_str. }
  split; [|split; [exact Hcat|split; [|split; [|split]]]].
  - etrans; [apply cursor_limit_sublist|apply list_filter_sublist].
  - apply Forall_map. eapply Forall_impl; [exact Hcat|]. intros d Hd.
    unfold pop_id. rewrite lookup_delete_eq, lookup_delete_ne by done. done.
  - intros d _. unfold pop_id. by rewrite lookup_delete_ne.
  - intros Hlimit. unfold cursor_limit.
    destruct (Z.eqb_spec limit 0); [done|]. rewrite length_take. lia.
  - intros -> d Hd Hc. unfold cursor_limit. simpl.
    apply list_elem_of_In, filter_In. split; [by apply list_elem_of_In|].
    by apply matches_str.
Qed.

Lemma search_by_category_results_witness :
  ∃ found,
    search_by_category categorised "tuyen-sinh" (-1) = Returned (map pop_id found)
    ∧ length found <= 1.
Proof.
  destruct (search_by_category_results categorised "tuyen-sinh" (-1))
    as [_ H].
  destruct (H eq_refl) as (found & Hr & _ & _ & _ & _ & Hlen & _).
  exists found. split; [exact Hr|]. apply Hlen. lia.
Defined.

Section Keywords.
Context `{unicode : !Unicode}.




End Keywords.

Section KeywordsExample.

#[local] Existing Instance ascii_text.


End KeywordsExample.

(** X19: [get_document_by_url] answers [None] exactly when no stored
    document has the URL; otherwise it answers the first one in scan order,
    which has the URL asked for and no ['_id'], its other fields as
    stored. *)
Theorem get_document_by_url_first_match collection (url : string) :
  scan_error collection = None →
  (Forall (λ d, d !! "url" ≠ Some (VStr url)) (documents collection)
   ∧ get_document_by_url collection url = Returned None)
  ∨ ∃ pre stored post,
      documents collection = pre ++ stored :: post
      ∧ Forall (λ d, d !! "url" ≠ Some (VStr url)) pre
      ∧ get_document_by_url collection url = Returned (Some (pop_id stored))
      ∧ pop_id stored !! "url" = Some (VStr url)
      ∧ pop_id stored !! "_id" = None
      ∧ ∀ field, field ≠ "_id" → pop_id stored !! field = stored !! field.
Proof.
  intros Hscan. unfold get_document_by_url, find_one. rewrite Hscan. simpl.
  destruct (first_match_split (matches "url" (VStr url)) (documents collection))
    as [Hnone|(pre & stored & post & Hdocs & Hpre & Hm)].
  - left. rewrite find_first_none by done. split; [|done].
    eapply Forall_impl; [exact Hnone|]. intros d Hd. by apply matches_str_false.
  - right. exists pre, stored, post. rewrite Hdocs at 2.
    rewrite find_first_at by done. apply matches_str in Hm.
    split; [done|]. split.
    { eapply Forall_impl; [exact Hpre|]. intros d Hd.
      by apply matches_str_false. }
    split.
    { destruct (decide (stored = ∅)) as [->|_]; [|done].
      by rewrite lookup_empty in Hm. }
    unfold pop_id. split; [by rewrite lookup_delete_ne|].
    split; [apply lookup_delete_eq|]. intros field Hf.
    by apply lookup_delete_ne.
Qed.

Lemma get_document_by_url_first_match_witness :
  ∃ doc, get_document_by_url categorised "https://x/c2" = Returned (Some doc)
         ∧ doc !! "url" = Some (VStr "https://x/c2")
         ∧ doc !! "_id" = None.
Proof.
  destruct (get_document_by_url_first_match categorised "https://x/c2"
              eq_refl)
    as [[_ H]|(pre & stored & post & _ & _ & H & Hurl & Hid & _)].
  - vm_compute in H. discriminate.
  - exists (pop_id stored). split; [exact H|]. split; [exact Hurl|exact Hid].
Defined.



End Store.

(** ** The two caches of the agent *)

Section MoreResponseCache.
Import Agent Examples More.

Context `{unicode : !Unicode}.

Implicit Types (agent : string → outcome AgentResult)
  (cache : gmap string (option string)) (message : string).

Lemma chat_hit agent cache message (cached : option string) :
  cache !! strip (lower message) = Some cached →
  chat agent cache message = Returned (cached, cache).
Proof. intros H. unfold chat. by rewrite H. Qed.

Lemma chat_keeps agent cache message (r : option string)
    (cache' : gmap string (option string)) (k : string) (v : option string) :
  chat agent cache message = Returned (r, cache') →
  cache !! k = Some v → cache' !! k = Some v.
Proof.
  intros Hc Hk.
  destruct (chat_cases agent cache message) as (r0 & c0 & Hc0 & Hcase).
  rewrite Hc in Hc0. injection Hc0 as <- <-.
  destruct Hcase as [->|(_ & Hnone & ->)]; [done|].
  rewrite lookup_insert_ne; [done|]. intros <-. by rewrite Hnone in Hk.
Qed.

Lemma chat_all_keeps agent cache (messages : list string) (k : string)
    (v : option string) :
  cache !! k = Some v → chat_all agent cache messages !! k = Some v.
Proof.
  revert cache. induction messages as [|message rest IH]; simpl; intros cache Hk;
    [done|].
  destruct (chat agent cache message) as [[r cache']|e] eqn:Hc.
  - apply IH. by eapply chat_keeps.
  - by apply IH.
Qed.

(** X21: the response cache has no expiry and no eviction: an answer that
    is cached for a message stays cached, unchanged, whatever is handled
    afterwards, and every later message with the same lower-cased, trimmed
    text gets that answer without the agent being asked. *)
Theorem response_cache_entries_persist agent agent' cache
    (messages : list string) message (cached : option string) :
  cache !! strip (lower message) = Some cached →
  let cache' := chat_all agent cache messages in
  cache' !! strip (lower message) = Some cached
  ∧ chat agent' cache' message = Returned (cached, cache').
Proof.
  intros Hk cache'.
  assert (H : cache' !! strip (lower message) = Some cached)
    by by apply chat_all_keeps.
  split; [exact H|]. by apply chat_hit.
Qed.

(** X22: below the capacity, the answer computed for a message is stored
    under its lower-cased, trimmed text, and a message that differs from it
    by case or by surrounding white space only is then answered from the
    cache, whatever the agent would say. *)
Theorem chat_answer_shared agent agent' cache (m1 m2 : string)
    (response : AgentResult) (result_text : option string) :
  strip (lower m1) = strip (lower m2) →
  cache !! strip (lower m1) = None →
  size cache < RESPONSE_CACHE_MAX_SIZE →
  agent m1 = Returned response →
  extract_text response = Returned result_text →
  let cache1 := <[strip (lower m1) := result_text]> cache in
  chat agent cache m1 = Returned (result_text, cache1)
  ∧ chat agent' cache1 m2 = Returned (result_text, cache1).
Proof.
  intros Hkey Hmiss Hsize Hagent Htext cache1. split.
  - unfold chat. rewrite Hmiss, Hagent. simpl. rewrite Htext. simpl.
    apply Nat.ltb_lt in Hsize. by rewrite Hsize.
  - apply chat_hit. rewrite <- Hkey. apply lookup_insert_eq.
Qed.

(** X23: [chat] raises nothing: when the agent, or the reading of its
    result, raises, the text "Error: " followed by the message of the
    exception is returned and nothing is stored, so the next equal message
    asks the agent again.  A result without text is returned as [None], and
    that [None] is stored like an answer. *)
Theorem chat_errors_not_cached agent cache message :
  cache !! strip (lower message) = None →
  (∀ e, agent message = Raised e →
        chat agent cache message
        = Returned (Some ("Error: " ++ exn_str e), cache))
  ∧ (∀ response e,
       agent message = Returned response → extract_text response = Raised e →
       chat agent cache message
       = Returned (Some ("Error: " ++ exn_str e), cache))
  ∧ (∀ response,
       agent message = Returned response →
       extract_text response = Returned None →
       size cache < RESPONSE_CACHE_MAX_SIZE →
       chat agent cache message
       = Returned (None, <[strip (lower message) := None]> cache)).
Proof.
  intros Hmiss. unfold chat. rewrite Hmiss. split; [|split].
  - by intros e ->.
  - intros response e -> H. simpl. by rewrite H.
  - intros response -> H Hsize. simpl. rewrite H. simpl.
    apply Nat.ltb_lt in Hsize. by rewrite Hsize.
Qed.

End MoreResponseCache.

Section MoreResponseCacheExamples.
Import Agent Examples More.

#[local] Existing Instance ascii_text.

Lemma response_cache_entries_persist_witness :
  chat agent_down
    (chat_all agent_const {[ "hello" := Some "Xin chao" ]} ["Hoc phi?"; "HELLO"])
    " Hello "
  = Returned (Some "Xin chao",
              chat_all agent_const {[ "hello" := Some "Xin chao" ]}
                ["Hoc phi?"; "HELLO"]).
Proof.
  apply (response_cache_entries_persist agent_const agent_down
           {[ "hello" := Some "Xin chao" ]} ["Hoc phi?"; "HELLO"] " Hello "
           (Some "Xin chao")).
  vm_compute. reflexivity.
Defined.

Lemma chat_answer_shared_witness :
  chat agent_const ∅ "Hoc phi UIT?"
  = Returned (Some "UIT co 5 phuong thuc.",
              {[ "hoc phi uit?" := Some "UIT co 5 phuong thuc." ]})
  ∧ chat agent_down {[ "hoc phi uit?" := Some "UIT co 5 phuong thuc." ]}
      "  HOC PHI UIT?  "
    = Returned (Some "UIT co 5 phuong thuc.",
                {[ "hoc phi uit?" := Some "UIT co 5 phuong thuc." ]}).
Proof.
  pose proof (chat_answer_shared agent_const agent_down ∅ "Hoc phi UIT?"
                "  HOC PHI UIT?  " answer (Some "UIT co 5 phuong thuc.")) as H.
  apply H.
  - vm_compute. reflexivity.
  - apply lookup_empty.
  - rewrite map_size_empty. unfold RESPONSE_CACHE_MAX_SIZE. lia.
  - reflexivity.
  - reflexivity.
Defined.

Lemma chat_errors_not_cached_witness :
  chat agent_down ∅ "Hoc phi?"
  = Returned (Some ("Error: " ++ "ThrottlingException"), ∅).
Proof.
  destruct (chat_errors_not_cached agent_down ∅ "Hoc phi?") as (H & _).
  - apply lookup_empty.
  - apply (H (ServiceError "ThrottlingException")). reflexivity.
Defined.

End MoreResponseCacheExamples.

Section MoreQueryCache.
Import Spec Agent Examples More.

Context `{unicode : !Unicode}.

Variable float_repr : R → string.

Implicit Types (cache : gmap string CacheEntry) (query : string)
  (kb : Collection).

Lemma search_all_keeps cache
    (calls : list (option Collection * Z * Z * string)) (k : string) :
  is_Some (cache !! k) → is_Some (search_all float_repr cache calls !! k).
Proof.
  revert cache.
  induction calls as [|[[[uit_kb now] later] query] rest IH]; simpl;
    intros cache Hk; [done|].
  destruct (search_uit_knowledge_cases float_repr uit_kb cache now later query)
    as (text & cache' & -> & Hcase).
  apply IH. destruct Hcase as [->|(kb & results & _ & _ & _ & _ & _ & ->)];
    [done|].
  destruct (decide (cache_key_of_query query = k)) as [<-|Hne].
  - rewrite lookup_insert_eq. eauto.
  - by rewrite lookup_insert_ne.
Qed.

(** X24: the query cache never removes an entry: a key that is present
    stays present throughout a run.  An entry older than [CACHE_TTL] is
    passed over: the store is searched as if the entry were absent, the
    entry is overwritten when documents are found, and is left in the
    cache, expired, otherwise. *)
Theorem query_cache_never_evicts cache :
  (∀ (calls : list (option Collection * Z * Z * string)) (k : string),
     is_Some (cache !! k) →
     is_Some (search_all float_repr cache calls !! k))
  ∧ (∀ kb (now later : Z) query (entry : CacheEntry),
       cache !! cache_key_of_query query = Some entry →
       fresh now entry = false →
       ∃ (text : string) (cache' cache0 : gmap string CacheEntry),
         search_uit_knowledge float_repr (Some kb) cache now later query
         = Returned (text, cache')
         ∧ search_uit_knowledge float_repr (Some kb)
             (delete (cache_key_of_query query) cache) now later query
           = Returned (text, cache0)
         ∧ ((cache' = cache
             ∧ cache0 = delete (cache_key_of_query query) cache)
            ∨ (cache' = <[cache_key_of_query query :=
                            {| result := text; timestamp := later |}]> cache
               ∧ cache0 = cache'))).
Proof.
  split; [intros calls k; apply search_all_keeps|].
  intros kb now later query entry Hk Hstale.
  rewrite !search_uit_knowledge_miss.
  - destruct (UIT.full_text_search kb query 3) as [[|item rest]|e];
      [eexists _, _, _; split; [done|]; split; [done|]; by left| |
       eexists _, _, _; split; [done|]; split; [done|]; by left].
    destruct (format_results float_repr (item :: rest)) as [text|e].
    + eexists _, _, _. split; [done|]. split; [done|]. right.
      split; [done|]. apply insert_delete_eq.
    + eexists _, _, _. split; [done|]. split; [done|]. by left.
  - intros e He. by rewrite lookup_delete_eq in He.
  - intros e He. rewrite Hk in He. by injection He as <-.
Qed.

End MoreQueryCache.

Section MoreQueryCacheExamples.
Import Spec Agent Examples More.

#[local] Existing Instance ascii_text.

Lemma query_cache_never_evicts_witness :
  ∃ (text : string) (cache' cache0 : gmap string CacheEntry),
    search_uit_knowledge repr_any (Some uit_collection) old_cache
      3600000000 3600000001 "UIT"
    = Returned (text, cache')
    ∧ search_uit_knowledge repr_any (Some uit_collection)
        (delete (cache_key_of_query "UIT") old_cache)
        3600000000 3600000001 "UIT"
      = Returned (text, cache0)
    ∧ ((cache' = old_cache
        ∧ cache0 = delete (cache_key_of_query "UIT") old_cache)
       ∨ (cache' = <[cache_key_of_query "UIT" :=
                       {| result := text; timestamp := 3600000001 |}]> old_cache
          ∧ cache0 = cache')).
Proof.
  destruct (query_cache_never_evicts repr_any old_cache) as [_ H].
  apply (H uit_collection 3600000000%Z 3600000001%Z "UIT"
           {| result := "old"; timestamp := 0 |}).
  - apply lookup_singleton_eq.
  - vm_compute. reflexivity.
Defined.

End MoreQueryCacheExamples.

(** ** src/app.py: the messages sent and the webhook *)

Section MoreStrings.

(** A text put before a text that starts with a character adds its own
    characters to it. *)
Lemma chars_app (a b : string) :
  continues b = false → chars (a ++ b) = (chars a ++ chars b)%list.
Proof.
  intros Hb. induction a as [|c a IH]; [done|].
  change (String c a ++ b) with (String c (a ++ b)). cbn [chars].
  rewrite IH. destruct a as [|c' a'].
  - change (EmptyString ++ b) with b. by rewrite Hb.
  - change (String c' a' ++ b) with (String c' (a' ++ b)). cbn [continues].
    destruct (continuation c'); [|done].
    destruct (chars_head c' a') as (t & rest & ->). done.
Qed.

Lemma str_len_cons_ge (c : ascii) (s : string) :
  str_len s <= str_len (String c s).
Proof.
  unfold str_len. cbn [chars]. destruct (continues s).
  - destruct (chars s); simpl; lia.
  - simpl. lia.
Qed.

Lemma str_len_cons_start (c : ascii) (s : string) :
  continues s = false → str_len (String c s) = S (str_len s).
Proof. intros H. unfold str_len. cbn [chars]. by rewrite H. Qed.

Lemma str_len_app_ge (a b : string) : str_len b <= str_len (a ++ b).
Proof.
  induction a as [|c a IH]; [done|].
  change (String c a ++ b) with (String c (a ++ b)).
  pose proof (str_len_cons_ge c (a ++ b)). lia.
Qed.

Lemma str_slice_app (a b : nat) (s : string) :
  str_slice 0 a s ++ str_slice a (a + b) s = str_slice 0 (a + b) s.
Proof.
  unfold str_slice. rewrite !Nat.sub_0_r, drop_0.
  replace (a + b - a) with b by lia.
  by rewrite <- concat_empty_app, take_take_drop.
Qed.

(** The pieces cut at the multiples of [step] make up the prefix they
    cover. *)
Lemma chunks_concat (step n : nat) (s : string) :
  String.concat EmptyString
    (map (λ i, str_slice i (i + step) s) (map (λ k, k * step) (seq 0 n)))
  = str_slice 0 (n * step) s.
Proof.
  induction n as [|n IH]; [done|].
  rewrite seq_S, !map_app. cbn [map]. rewrite concat_empty_app, IH.
  cbn [String.concat Nat.add].
  rewrite (str_slice_app (n * step) step s). f_equal. lia.
Qed.

(** The number of steps that cover a length, rounded up. *)
Lemma ceil_div_facts (len step : nat) :
  0 < step →
  len <= (len + step - 1) / step * step
  ∧ (∀ k, k < (len + step - 1) / step → k * step < len)
  ∧ (step < len → 2 <= (len + step - 1) / step).
Proof.
  intros Hstep.
  pose proof (Nat.div_mod_eq (len + step - 1) step) as Hdiv.
  pose proof (Nat.mod_upper_bound (len + step - 1) step ltac:(lia)) as Hmod.
  set (n := (len + step - 1) / step) in *.
  set (r := (len + step - 1) mod step) in *.
  split; [nia|]. split.
  - intros k Hk. nia.
  - intros Hlen. apply Nat.div_le_lower_bound; lia.
Qed.

End MoreStrings.

Section MoreApp.
Import Agent App Examples More.

Implicit Types (cfg : Config) (user_id : json) (message : string).

Lemma max_length_pos : 0 < max_length.
Proof. unfold max_length. lia. Qed.

Lemma chunks_of_short message :
  str_len message <= max_length → chunks_of message = [message].
Proof.
  intros H. unfold chunks_of.
  by destruct (Nat.ltb_spec max_length (str_len message)); [lia|].
Qed.

Lemma chunks_of_long message :
  max_length < str_len message →
  chunks_of message
  = map (λ i, str_slice i (i + max_length) message)
        (map (λ k, k * max_length)
             (seq 0 ((str_len message + max_length - 1) / max_length))).
Proof.
  intros H. unfold chunks_of, range_step.
  by destruct (Nat.ltb_spec max_length (str_len message)); [|lia].
Qed.

Lemma chunks_of_lookup message (i : nat) (chunk : string) :
  max_length < str_len message →
  chunks_of message !! i = Some chunk →
  chunk = str_slice (i * max_length) (i * max_length + max_length) message
  ∧ i < (str_len message + max_length - 1) / max_length.
Proof.
  intros Hlong. rewrite chunks_of_long by done.
  rewrite !list_lookup_fmap. intros H.
  destruct (seq 0 ((str_len message + max_length - 1) / max_length) !! i)
    as [k|] eqn:Hk; [|done].
  apply lookup_seq in Hk as [-> Hi]. simpl in H. injection H as <-. done.
Qed.

Lemma chunks_of_length message :
  length (chunks_of message)
  = (if (max_length <? str_len message)%nat
     then (str_len message + max_length - 1) / max_length
     else 1).
Proof.
  destruct (Nat.ltb_spec max_length (str_len message)) as [Hlong|Hshort].
  - rewrite chunks_of_long by done. by rewrite !length_map, length_seq.
  - by rewrite chunks_of_short.
Qed.

(** X25: the chunks [send_zalo_message] cuts make up the message, in
    order and without loss; none is longer than 2000 characters, none is
    empty unless the message is, and a message of more than 2000 characters
    gives its length divided by 2000, rounded up, of them.  Lengths are in
    characters, not in bytes. *)
Theorem chunks_of_partition message :
  String.concat EmptyString (chunks_of message) = message
  ∧ Forall (λ chunk, str_len chunk <= max_length) (chunks_of message)
  ∧ (message ≠ EmptyString →
     Forall (λ chunk, chunk ≠ EmptyString) (chunks_of message))
  ∧ length (chunks_of message)
    = (if (max_length <? str_len message)%nat
       then (str_len message + max_length - 1) / max_length
       else 1).
Proof.
  destruct (Nat.ltb_spec max_length (str_len message)) as [Hlong|Hshort].
  - destruct (ceil_div_facts (str_len message) max_length max_length_pos)
      as (Hcover & Hlt & _).
    rewrite chunks_of_long by done.
    split; [|split; [|split]].
    + rewrite chunks_concat. by apply str_slice_to_all.
    + apply Forall_map, Forall_forall. intros i _. simpl.
      rewrite str_len_slice. lia.
    + intros _. apply Forall_map, Forall_map, Forall_forall. intros k Hk. simpl.
      apply elem_of_seq in Hk. intros Hempty.
      pose proof (str_len_slice (k * max_length) (k * max_length + max_length)
                    message) as Hl.
      rewrite Hempty in Hl. change (str_len EmptyString) with 0 in Hl.
      pose proof max_length_pos. specialize (Hlt k ltac:(lia)). lia.
    + by rewrite !length_map, length_seq.
  - rewrite chunks_of_short by done.
    split; [done|]. split; [by apply Forall_cons_2|]. split; [|done].
    intros Hne. by apply Forall_cons_2.
Qed.

Lemma send_zalo_message_lookup cfg user_id message (i : nat) (p : Post) :
  send_zalo_message cfg user_id message !! i = Some p →
  ∃ chunk,
    chunks_of message !! i = Some chunk
    ∧ post_url p = send_url cfg ∧ chat_id p = user_id
    ∧ text p = (if (1 <? length (chunks_of message))%nat
                then "[" ++ pretty (i + 1) ++ "/"
                     ++ pretty (length (chunks_of message)) ++ "]" ++ nl
                     ++ chunk
                else chunk).
Proof.
  unfold send_zalo_message. rewrite list_lookup_imap.
  destruct (chunks_of message !! i) as [chunk|]; [|done].
  simpl. intros [= <-]. exists chunk. done.
Qed.

Lemma send_zalo_message_url cfg user_id message :
  Forall (λ p, post_url p = send_url cfg ∧ chat_id p = user_id)
         (send_zalo_message cfg user_id message).
Proof.
  apply Forall_lookup. intros i p Hp.
  destruct (send_zalo_message_lookup _ _ _ _ _ Hp) as (chunk & _ & ? & ? & _).
  done.
Qed.

(** X26: [send_zalo_message] makes one post for each chunk, all to the
    URL of the bot and to the same chat, and at least one.  A message of at
    most 2000 characters is posted as it is; the chunks of a longer one are
    led by a marker of the form [[i/n]] and a line feed that is added after
    the cutting, so that every post but the last is longer than 2000
    characters.  Lengths are in characters, not in bytes. *)
Theorem send_zalo_message_posts cfg user_id message :
  let posts := send_zalo_message cfg user_id message in
  let chunks := chunks_of message in
  length posts = length chunks
  ∧ posts ≠ []
  ∧ Forall (λ p, post_url p = send_url cfg ∧ chat_id p = user_id) posts
  ∧ (str_len message <= max_length → map text posts = [message])
  ∧ (max_length < str_len message →
     ∀ (i : nat) (p : Post),
       posts !! i = Some p →
       ∃ chunk,
         chunks !! i = Some chunk
         ∧ text p = "[" ++ pretty (i + 1) ++ "/" ++ pretty (length chunks)
                    ++ "]" ++ nl ++ chunk
         ∧ (i + 1 < length chunks → max_length < str_len (text p))).
Proof.
  intros posts chunks. subst posts chunks.
  pose proof (chunks_of_length message) as Hcount.
  assert (Hlen : length (send_zalo_message cfg user_id message)
                 = length (chunks_of message))
    by (unfold send_zalo_message; apply length_imap).
  split; [exact Hlen|]. split; [|split; [apply send_zalo_message_url|split]].
  - intros Hnil. rewrite Hnil in Hlen. simpl in Hlen. rewrite Hcount in Hlen.
    destruct (Nat.ltb_spec max_length (str_len message)) as [Hlong|_];
      [|done].
    destruct (ceil_div_facts (str_len message) max_length max_length_pos)
      as (_ & _ & Htwo).
    specialize (Htwo Hlong). lia.
  - intros Hshort. unfold send_zalo_message.
    by rewrite chunks_of_short.
  - intros Hlong i p Hp.
    destruct (ceil_div_facts (str_len message) max_length max_length_pos)
      as (_ & Hlt & Htwo).
    specialize (Htwo Hlong).
    destruct (Nat.ltb_spec max_length (str_len message)) as [_|?];
      [|lia].
    destruct (send_zalo_message_lookup _ _ _ _ _ Hp)
      as (chunk & Hchunk & _ & _ & Htext).
    destruct (Nat.ltb_spec 1 (length (chunks_of message))) as [_|?]; [|lia].
    exists chunk. split; [done|]. split; [done|].
    intros Hnext. rewrite Htext.
    destruct (chunks_of_lookup _ _ _ Hlong Hchunk) as [-> _].
    rewrite Hcount in Hnext. specialize (Hlt (i + 1) Hnext).
    set (chunk := str_slice (i * max_length) (i * max_length + max_length)
                    message).
    assert (Hfull : str_len chunk = max_length).
    { unfold chunk. rewrite str_len_slice. lia. }
    set (s0 := String (ascii_of_nat 10) chunk).
    set (s1 := String "]" s0).
    set (s2 := pretty (length (chunks_of message)) ++ s1).
    set (s3 := String "/" s2).
    set (s4 := pretty (i + 1) ++ s3).
    change (max_length < str_len (String "[" s4)).
    pose proof (str_len_cons_ge (ascii_of_nat 10) chunk) as H0.
    assert (H1 : str_len s1 = S (str_len s0))
      by (by apply str_len_cons_start).
    pose proof (str_len_app_ge (pretty (length (chunks_of message))) s1) as H2.
    pose proof (str_len_cons_ge "/" s2) as H3.
    pose proof (str_len_app_ge (pretty (i + 1)) s3) as H4.
    pose proof (str_len_cons_ge "[" s4) as H5.
    fold s0 in H0. fold s2 in H2. fold s3 in H3. fold s4 in H4.
    lia.
Qed.

(** A text of 1500 characters, 4500 bytes, is one post; a text of 40000
    characters is cut into 20 posts. *)
Lemma send_zalo_message_posts_witness :
  str_len viet_text = 1500 ∧ String.length viet_text = 4500
  ∧ map text (send_zalo_message cfg_secret (JStr "u1") viet_text) = [viet_text]
  ∧ length (send_zalo_message cfg_secret (JStr "u1") long_text) = 20
  ∧ ∃ p chunk,
      send_zalo_message cfg_secret (JStr "u1") long_text !! 0 = Some p
      ∧ text p = "[1/20]" ++ nl ++ chunk
      ∧ max_length < str_len (text p).
Proof.
  assert (Hviet : str_len viet_text = 1500) by (vm_compute; reflexivity).
  assert (Hchunks : length (chunks_of long_text) = 20)
    by (vm_compute; reflexivity).
  assert (Hlong : max_length < str_len long_text)
    by (apply Nat.ltb_lt; vm_compute; reflexivity).
  split; [exact Hviet|]. split; [vm_compute; reflexivity|].
  destruct (send_zalo_message_posts cfg_secret (JStr "u1") viet_text)
    as (_ & _ & _ & Hshort & _).
  split; [apply Hshort; rewrite Hviet; unfold max_length; lia|].
  destruct (send_zalo_message_posts cfg_secret (JStr "u1") long_text)
    as (Hlen & _ & _ & _ & Hposts).
  split; [by rewrite Hlen|].
  destruct (lookup_lt_is_Some_2
              (send_zalo_message cfg_secret (JStr "u1") long_text) 0)
    as [p Hp]; [rewrite Hlen, Hchunks; lia|].
  destruct (Hposts Hlong 0 p Hp) as (chunk & _ & Htext & Hmore).
  exists p, chunk. split; [exact Hp|]. split.
  - rewrite Htext, Hchunks. reflexivity.
  - apply Hmore. rewrite Hchunks. lia.
Defined.

End MoreApp.

Section Webhook.
Import Agent App Examples More.

Context `{unicode : !Unicode}.

Implicit Types (cfg : Config) (user_id : json) (message : string)
  (agent : string → outcome AgentResult)
  (cache : gmap string (option string)).

(** X27: the secret token is accepted when no secret is configured, or
    when it is the configured secret; with a secret configured, a request
    with another token is answered 403 before its body is read: nothing is
    posted and the cache is left as it was. *)
Theorem webhook_rejects_wrong_token cfg agent cache (secret_token : string)
    (body : outcome json) :
  (verify_zalo_signature cfg secret_token = true
   ↔ ZALO_SECRET cfg = EmptyString ∨ secret_token = ZALO_SECRET cfg)
  ∧ (ZALO_SECRET cfg ≠ EmptyString → secret_token ≠ ZALO_SECRET cfg →
     webhook_handler cfg agent cache secret_token body
     = (([("error", "Invalid signature")], 403), cache, [])).
Proof.
  unfold webhook_handler, verify_zalo_signature.
  destruct (String.eqb_spec (ZALO_SECRET cfg) EmptyString) as [Hs|Hs].
  - split; [|done]. split; [by left|done].
  - destruct (String.eqb_spec secret_token (ZALO_SECRET cfg)) as [Ht|Ht].
    + split; [|done]. split; [by right|done].
    + split; [|done]. split; [done|]. by intros [?|?].
Qed.

Lemma handle_other_message_cases cfg (answer : string) (payload : json)
    (r : response) (posts : list Post) :
  handle_other_message cfg answer payload = Returned (r, posts) →
  r = ok_response
  ∧ ∃ user_id, posts = send_zalo_message cfg user_id answer.
Proof.
  unfold handle_other_message.
  destruct (sender_id payload) as [[message user_id]|e]; simpl; [|done].
  destruct (if json_truthy user_id then Returned user_id
            else bind (get message "chat" (JObj []))
                   (λ chat, get chat "id" JNull)) as [uid|e];
    simpl; [|done].
  intros [= <- <-]. eauto.
Qed.

(** The ways [handle_text_message] ends. *)
Lemma handle_text_message_cases cfg agent cache (payload : json) :
  ∃ (r : response) (cache' : gmap string (option string)) (posts : list Post),
    handle_text_message cfg agent cache payload = (r, cache', posts)
    ∧ (r.2 = 200 ∨ r.2 = 500)
    ∧ (cache' = cache
       ∨ ∃ (text : string) (answer : option string),
           chat agent cache text = Returned (answer, cache'))
    ∧ (posts = [] ∨ ∃ user_id text, posts = send_zalo_message cfg user_id text).
Proof.
  assert (Hfail : ∀ (uid : json) (e : exn)
            (cache' : gmap string (option string)),
            (cache' = cache
             ∨ ∃ (text : string) (answer : option string),
                 chat agent cache text = Returned (answer, cache')) →
            ∃ (r : response) (cache'' : gmap string (option string))
              (posts : list Post),
              (let '(r, posts) := text_failure cfg uid e in (r, cache', posts))
              = (r, cache'', posts)
              ∧ (r.2 = 200 ∨ r.2 = 500)
              ∧ (cache'' = cache
                 ∨ ∃ (text : string) (answer : option string),
                     chat agent cache text = Returned (answer, cache''))
              ∧ (posts = []
                 ∨ ∃ user_id text,
                     posts = send_zalo_message cfg user_id text)).
  { intros uid e cache' Hcache. unfold text_failure.
    eexists _, _, _. split; [reflexivity|]. simpl.
    split; [by right|]. split; [exact Hcache|].
    destruct (json_truthy uid); eauto. }
  unfold handle_text_message.
  destruct (sender_id payload) as [[message user_id]|e];
    [|apply Hfail; by left].
  destruct (chat_fallback message user_id) as [uid|e];
    [|apply Hfail; by left].
  destruct (get message "text" (JStr EmptyString)) as [text|e]; simpl;
    [|apply Hfail; by left].
  destruct (text_strip text) as [stripped|e] eqn:Hstrip; simpl;
    [|apply Hfail; by left].
  destruct text as [| | | |s| |]; try discriminate.
  destruct (String.eqb stripped EmptyString).
  { eexists _, _, _. split; [reflexivity|]. simpl.
    split; [by left|]. split; by left. }
  destruct (chat agent cache s) as [[[answer|] cache']|e] eqn:Hchat.
  - eexists _, _, _. split; [reflexivity|]. simpl.
    split; [by left|]. split; [right; eauto|right; eauto].
  - apply (Hfail uid (TypeError "object of type 'NoneType' has no len()")
             cache').
    right. eauto.
  - apply (Hfail uid e cache). by left.
Qed.

(** X28: whatever the request, [webhook_handler] answers 200, 403 or 500
    and raises nothing.  The response cache changes through [chat] only, so
    no entry is lost or changed and the cache stays within its capacity; a
    request answered 403 changes nothing and posts nothing; and every post
    goes to the URL of the bot. *)
Theorem webhook_handler_outcome cfg agent cache (secret_token : string)
    (body : outcome json) :
  let r := webhook_handler cfg agent cache secret_token body in
  let status := r.1.1.2 in
  let cache' := r.1.2 in
  let posts := r.2 in
  (status = 200 ∨ status = 403 ∨ status = 500)
  ∧ (∀ (k : string) (v : option string),
       cache !! k = Some v → cache' !! k = Some v)
  ∧ (size cache <= RESPONSE_CACHE_MAX_SIZE →
     size cache' <= RESPONSE_CACHE_MAX_SIZE)
  ∧ (status = 403 → cache' = cache ∧ posts = [])
  ∧ Forall (λ p, post_url p = send_url cfg) posts.
Proof.
  intros r status cache' posts. subst status cache' posts r.
  assert (Hsame : ∀ (resp : response) (posts : list Post),
            (resp.2 = 200 ∨ resp.2 = 500) →
            (posts = [] ∨ ∃ user_id text,
                posts = send_zalo_message cfg user_id text) →
            let r := (resp, cache, posts) in
            (r.1.1.2 = 200 ∨ r.1.1.2 = 403 ∨ r.1.1.2 = 500)
            ∧ (∀ (k : string) (v : option string),
                 cache !! k = Some v → r.1.2 !! k = Some v)
            ∧ (size cache <= RESPONSE_CACHE_MAX_SIZE →
               size r.1.2 <= RESPONSE_CACHE_MAX_SIZE)
            ∧ (r.1.1.2 = 403 → r.1.2 = cache ∧ r.2 = [])
            ∧ Forall (λ p, post_url p = send_url cfg) r.2).
  { intros resp posts Hstatus Hposts. simpl.
    split; [tauto|]. split; [done|]. split; [done|]. split.
    - intros H403. rewrite H403 in Hstatus. destruct Hstatus; discriminate.
    - destruct Hposts as [->|(uid & text & ->)]; [apply Forall_nil_2|].
      eapply Forall_impl; [apply send_zalo_message_url|]. by intros p [? _]. }
  unfold webhook_handler.
  destruct (verify_zalo_signature cfg secret_token); simpl.
  2: { split; [tauto|]. split; [done|]. split; [done|]. split; [done|].
       apply Forall_nil_2. }
  destruct (bind body (λ payload,
              bind (get payload "event_name" JNull) (λ event_name,
                Returned (payload, event_name))))
    as [[payload event_name]|e].
  2: { apply (Hsame _ []); simpl; auto. }
  destruct (is_event event_name "message.text.received"
            || is_event event_name "user_send_text").
  { destruct (handle_text_message_cases cfg agent cache payload)
      as (resp & cache' & posts & -> & Hstatus & Hcache & Hposts).
    destruct Hcache as [->|(text & answer & Hchat)];
      [by apply Hsame|].
    simpl. split; [tauto|]. split; [|split; [|split]].
    - intros k v Hk. by eapply chat_keeps.
    - intros Hsize. by eapply chat_size.
    - intros H403. rewrite H403 in Hstatus. destruct Hstatus; discriminate.
    - destruct Hposts as [->|(uid & t & ->)]; [apply Forall_nil_2|].
      eapply Forall_impl; [apply send_zalo_message_url|]. by intros p [? _]. }
  destruct (is_event event_name "message.image.received"
            || is_event event_name "user_send_image").
  { destruct (handle_image_message cfg payload) as [[resp posts]|e] eqn:Himg.
    - apply handle_other_message_cases in Himg as [-> (uid & ->)].
      apply Hsame; simpl; eauto.
    - apply (Hsame _ []); simpl; auto. }
  destruct (is_event event_name "message.link.received"
            || is_event event_name "user_send_link").
  { destruct (handle_link_message cfg payload) as [[resp posts]|e] eqn:Hlink.
    - apply handle_other_message_cases in Hlink as [-> (uid & ->)].
      apply Hsame; simpl; eauto.
    - apply (Hsame _ []); simpl; auto. }
  apply (Hsame _ []); simpl; auto.
Qed.

(** X29: a text message whose sender is given under
    ['message']['from']['id'], sent with an accepted token.  A text that is
    blank is answered 200 without the agent being asked and without a post.
    Otherwise what [chat] returns is sent to the sender, cut as
    [send_zalo_message] cuts it, and the answer is 200; when [chat] returns
    [None] the sender gets the apology and the answer is 500.  The cache is
    left as [chat] left it in both cases. *)
Theorem text_event_answered cfg agent cache (secret_token : string)
    (user_id : json) (text : string) :
  verify_zalo_signature cfg secret_token = true →
  json_truthy user_id = true →
  let r := webhook_handler cfg agent cache secret_token
             (Returned (text_event user_id text)) in
  (strip text = EmptyString → r = (ok_response, cache, []))
  ∧ (strip text ≠ EmptyString →
     ∀ (answer : option string) (cache' : gmap string (option string)),
       chat agent cache text = Returned (answer, cache') →
       r = match answer with
           | Some answer =>
               (ok_response, cache', send_zalo_message cfg user_id answer)
           | None =>
               (([("status", "error");
                  ("message", "object of type 'NoneType' has no len()")], 500),
                cache', send_zalo_message cfg user_id apology)
           end).
Proof.
  intros Hverify Huser r. subst r.
  set (message := JObj [("from", JObj [("id", user_id)]); ("text", JStr text)]).
  assert (Hev : get (text_event user_id text) "event_name" JNull
                = Returned (JStr "message.text.received")) by reflexivity.
  assert (Hsender : sender_id (text_event user_id text)
                    = Returned (message, user_id)).
  { unfold sender_id, text_event. simpl. by rewrite Huser. }
  assert (Hfb : chat_fallback message user_id = Returned user_id).
  { unfold chat_fallback, message. simpl. by rewrite Huser. }
  assert (Htext : get message "text" (JStr EmptyString) = Returned (JStr text))
    by reflexivity.
  unfold webhook_handler. rewrite Hverify. cbn [negb bind]. rewrite Hev.
  cbn [bind].
  change (is_event (JStr "message.text.received") "message.text.received")
    with true.
  cbn [orb]. unfold handle_text_message, text_failure.
  rewrite Hsender, Hfb, Htext. cbn [bind text_strip].
  split.
  - intros ->. done.
  - intros Hne answer cache' Hchat.
    apply String.eqb_neq in Hne. rewrite Hne, Hchat.
    destruct answer as [answer|]; [done|]. by rewrite Huser.
Qed.

End Webhook.

Section WebhookExamples.
Import Agent App Examples More.

#[local] Existing Instance ascii_text.

Lemma webhook_rejects_wrong_token_witness :
  webhook_handler cfg_secret agent_const ∅ "guess"
    (Returned (text_event (JStr "u1") "Hoc phi?"))
  = (([("error", "Invalid signature")], 403), ∅, []).
Proof.
  destruct (webhook_rejects_wrong_token cfg_secret agent_const ∅ "guess"
              (Returned (text_event (JStr "u1") "Hoc phi?"))) as [_ H].
  apply H; discriminate.
Defined.

(** A blank text is answered without the agent; another text is sent to
    the agent, whose answer is posted to the sender. *)
Lemma text_event_answered_witness :
  webhook_handler cfg_secret agent_const ∅ "s3cret"
    (Returned (text_event (JStr "u1") "   "))
  = (ok_response, ∅, [])
  ∧ webhook_handler cfg_secret agent_const ∅ "s3cret"
      (Returned (text_event (JStr "u1") "Hoc phi?"))
    = (ok_response, {[ "hoc phi?" := Some "UIT co 5 phuong thuc." ]},
       send_zalo_message cfg_secret (JStr "u1") "UIT co 5 phuong thuc.")
  ∧ map text (send_zalo_message cfg_secret (JStr "u1") "UIT co 5 phuong thuc.")
    = ["UIT co 5 phuong thuc."].
Proof.
  split; [|split].
  - destruct (text_event_answered cfg_secret agent_const ∅ "s3cret"
                (JStr "u1") "   ") as [H _].
    + reflexivity.
    + reflexivity.
    + apply H. vm_compute. reflexivity.
  - destruct (text_event_answered cfg_secret agent_const ∅ "s3cret"
                (JStr "u1") "Hoc phi?") as [_ H].
    + reflexivity.
    + reflexivity.
    + apply (H ltac:(vm_compute; discriminate)
               (Some "UIT co 5 phuong thuc.")
               {[ "hoc phi?" := Some "UIT co 5 phuong thuc." ]}).
      vm_compute. reflexivity.
  - vm_compute. reflexivity.
Defined.

End WebhookExamples.
